(** * ms-365-mcp-server: the endpoint dispatch engine

    A shallow embedding of [src/graph-client.ts] and [src/graph-tools.ts]:
    parameter binding, the token refresh-and-retry coordinator, page
    aggregation, response normalisation, the SharePoint tree collector, tool
    registration, the discovery tools and the download-to-local handler.

    Conventions of the embedding.
    - A JavaScript string is a [string] of bytes (its UTF-8 encoding), so
      that it holds no lone surrogate.
      [toLowerCase], [toUpperCase] and [trim] are given on ASCII text, where
      they map the letters A to Z and strip the white space of ASCII; what
      is stated about text that goes through them is stated for ASCII text.
    - A JavaScript object used as a record or dictionary is an association
      list in insertion order, which is the order [Object.entries] yields for
      non-numeric keys.
    - A JSON number is an integer [Z]; it stands for a JavaScript number
      when its magnitude is below 2^53, which is where [String] prints it
      digit by digit.
    - [async] functions are functions of a state-and-exception monad over the
      world the client talks to; a rejected promise is the exception case.
    - The client is taken in its default output format, JSON, where the text
      of a result is the [JSON.stringify] of a value; such a text is kept as
      the value it serialises. *)

From Stdlib Require Import String Ascii List ZArith Lia Bool Arith.
Import ListNotations.

Set Implicit Arguments.
Set Warnings "-register-all".
Local Open Scope string_scope.
Local Open Scope Z_scope.

(** ** JavaScript strings *)

Module JS.

(** [s.startsWith(p)] *)
Definition startsWith (s p : string) : bool := String.prefix p s.

(** [s.slice(n)] for [0 <= n]. *)
Fixpoint slice (n : nat) (s : string) : string :=
  match n, s with
  | O, _ => s
  | S n', String _ s' => slice n' s'
  | S _, EmptyString => EmptyString
  end.

(** [s.includes(p)] *)
Fixpoint includes (s p : string) : bool :=
  String.prefix p s ||
  match s with
  | EmptyString => false
  | String _ s' => includes s' p
  end.

(** [s.endsWith(p)] *)
Fixpoint endsWith (s p : string) : bool :=
  String.eqb s p ||
  match s with
  | EmptyString => false
  | String _ s' => endsWith s' p
  end.

(** [s.replace(pat, rep)] with a string pattern: the leftmost occurrence of
    [pat] only.  The replacement strings of this program never contain the
    dollar sign, so the dollar patterns of [replace] do not arise. *)
Fixpoint replace (pat rep s : string) : string :=
  if String.prefix pat s then rep ++ slice (String.length pat) s
  else match s with
       | EmptyString => EmptyString
       | String c s' => String c (replace pat rep s')
       end.

(** [s.replace(/suffix$/, "")] *)
Fixpoint dropSuffix (suffix s : string) : string :=
  if String.eqb s suffix then EmptyString
  else match s with
       | EmptyString => EmptyString
       | String c s' => String c (dropSuffix suffix s')
       end.

Definition lowerChar (c : ascii) : ascii :=
  let n := nat_of_ascii c in
  if (65 <=? n)%nat && (n <=? 90)%nat then ascii_of_nat (n + 32) else c.

Definition upperChar (c : ascii) : ascii :=
  let n := nat_of_ascii c in
  if (97 <=? n)%nat && (n <=? 122)%nat then ascii_of_nat (n - 32) else c.

(** [s.toLowerCase()], [s.toUpperCase()] *)
Fixpoint toLowerCase (s : string) : string :=
  match s with
  | EmptyString => EmptyString
  | String c s' => String (lowerChar c) (toLowerCase s')
  end.

Fixpoint toUpperCase (s : string) : string :=
  match s with
  | EmptyString => EmptyString
  | String c s' => String (upperChar c) (toUpperCase s')
  end.

Definition isSpace (c : ascii) : bool :=
  let n := nat_of_ascii c in
  ((9 <=? n) && (n <=? 13) || (n =? 32))%nat.

Fixpoint trimStart (s : string) : string :=
  match s with
  | EmptyString => EmptyString
  | String c s' => if isSpace c then trimStart s' else s
  end.

Fixpoint trimEnd (s : string) : string :=
  match s with
  | EmptyString => EmptyString
  | String c s' =>
      match trimEnd s' with
      | EmptyString => if isSpace c then EmptyString else String c EmptyString
      | t => String c t
      end
  end.

(** [s.trim()] (ASCII white space) *)
Definition trim (s : string) : string := trimEnd (trimStart s).

(** Text made of ASCII characters only. *)
Fixpoint isAscii (s : string) : bool :=
  match s with
  | EmptyString => true
  | String c s' => (nat_of_ascii c <? 128)%nat && isAscii s'
  end.

(** A non-empty string is truthy. *)
Definition truthy (s : string) : bool := negb (String.eqb s "").

(** [a || b] on optional strings ([None] is [null] or [undefined]). *)
Definition orElse (a b : option string) : option string :=
  match a with
  | Some s => if truthy s then a else b
  | None => b
  end.

Definition isTruthy (a : option string) : bool :=
  match a with
  | Some s => truthy s
  | None => false
  end.

(** [xs.join(sep)] *)
Fixpoint join (sep : string) (xs : list string) : string :=
  match xs with
  | [] => ""
  | [x] => x
  | x :: rest => x ++ sep ++ join sep rest
  end.

(** [s.split(sep)] for a one-character separator. *)
Fixpoint split (sep : ascii) (s : string) : list string :=
  match s with
  | EmptyString => [""]
  | String c s' =>
      if Ascii.eqb c sep then "" :: split sep s'
      else match split sep s' with
           | [] => [String c ""]
           | x :: rest => String c x :: rest
           end
  end.

(** [xs.includes(x)] on an array of strings. *)
Definition arrayIncludes (xs : list string) (x : string) : bool :=
  existsb (String.eqb x) xs.

Definition hexDigit (n : nat) : ascii :=
  if (n <? 10)%nat then ascii_of_nat (48 + n) else ascii_of_nat (55 + n).

Definition isUnreserved (c : ascii) : bool :=
  let n := nat_of_ascii c in
  ((65 <=? n) && (n <=? 90) || (97 <=? n) && (n <=? 122) ||
   (48 <=? n) && (n <=? 57))%nat ||
  existsb (Ascii.eqb c) (list_ascii_of_string "-_.!~*'()").

(** [encodeURIComponent(s)]: every byte outside the unreserved set becomes
    a percent sign and two upper-case hexadecimal digits. *)
Fixpoint encodeURIComponent (s : string) : string :=
  match s with
  | EmptyString => EmptyString
  | String c s' =>
      if isUnreserved c then String c (encodeURIComponent s')
      else
        let n := nat_of_ascii c in
        String "%" (String (hexDigit (n / 16)) (String (hexDigit (n mod 16))
          (encodeURIComponent s')))
  end.

Definition hexValue (c : ascii) : option nat :=
  let n := nat_of_ascii c in
  if (48 <=? n)%nat && (n <=? 57)%nat then Some (n - 48)%nat
  else if (65 <=? n)%nat && (n <=? 70)%nat then Some (n - 55)%nat
  else if (97 <=? n)%nat && (n <=? 102)%nat then Some (n - 87)%nat
  else None.

(** Decoding of one [application/x-www-form-urlencoded] component, as
    [URLSearchParams] does it: a plus sign is a space, a valid percent escape
    is its byte, anything else stands for itself. *)
Fixpoint formDecode (s : string) : string :=
  match s with
  | EmptyString => EmptyString
  | String c s' =>
      if Ascii.eqb c "+" then String " " (formDecode s')
      else
        match s' with
        | String h (String l s'') =>
            match Ascii.eqb c "%", hexValue h, hexValue l with
            | true, Some a, Some b =>
                String (ascii_of_nat (16 * a + b)) (formDecode s'')
            | _, _, _ => String c (formDecode s')
            end
        | _ => String c (formDecode s')
        end
  end.

(** Decimal rendering of an integer, as [String(n)] gives it. *)
Fixpoint natDigits (fuel n : nat) (acc : string) : string :=
  match fuel with
  | O => acc
  | S fuel' =>
      let acc' := String (ascii_of_nat (48 + n mod 10)) acc in
      if (n <? 10)%nat then acc' else natDigits fuel' (n / 10) acc'
  end.

Definition natToString (n : nat) : string := natDigits (S n) n "".

Definition numberToString (z : Z) : string :=
  if z <? 0 then "-" ++ natToString (Z.to_nat (- z)) else natToString (Z.to_nat z).

End JS.

(** ** JSON values *)

Module Json.

Inductive json : Type :=
  | JNull : json
  | JBool : bool -> json
  | JNum : Z -> json
  | JStr : string -> json
  | JArr : list json -> json
  | JObj : list (string * json) -> json.

Definition object := list (string * json).

(** [o[k]]; [None] is [undefined]. *)
Fixpoint get {A : Type} (k : string) (o : list (string * A)) : option A :=
  match o with
  | [] => None
  | (k', v) :: rest => if String.eqb k k' then Some v else get k rest
  end.

(** [o[k] = v]: an existing key keeps its place, a new key goes last. *)
Fixpoint set {A : Type} (k : string) (v : A) (o : list (string * A))
  : list (string * A) :=
  match o with
  | [] => [(k, v)]
  | (k', v') :: rest =>
      if String.eqb k k' then (k, v) :: rest else (k', v') :: set k v rest
  end.

(** [delete o[k]] *)
Definition delete {A : Type} (k : string) (o : list (string * A))
  : list (string * A) :=
  filter (fun kv => negb (String.eqb k (fst kv))) o.

(** [k in o] *)
Definition has {A : Type} (k : string) (o : list (string * A)) : bool :=
  match get k o with Some _ => true | None => false end.

(** [{ ...a, ...b }] *)
Definition spread {A : Type} (a b : list (string * A)) : list (string * A) :=
  fold_left (fun acc kv => set (fst kv) (snd kv) acc) b a.

(** Truthiness of a value. *)
Definition truthy (v : json) : bool :=
  match v with
  | JNull => false
  | JBool b => b
  | JNum n => negb (n =? 0)
  | JStr s => JS.truthy s
  | JArr _ => true
  | JObj _ => true
  end.

Definition truthyOpt (v : option json) : bool :=
  match v with Some j => truthy j | None => false end.

(** Whether [String(v)] throws, which is what a template literal and
    [encodeURIComponent] apply to a value that is not yet a string.  An
    object is converted by its [toString] method; an object that has a
    member of that name hides the inherited method behind a value that
    cannot be called, and the conversion ends in a [TypeError].  An array
    converts its elements one by one, [null] elements apart. *)
Fixpoint stringThrows (v : json) : bool :=
  match v with
  | JArr xs => existsb stringThrows xs
  | JObj fields =>
      (fix own (kvs : list (string * json)) : bool :=
         match kvs with
         | [] => false
         | (k, _) :: rest => String.eqb k "toString" || own rest
         end) fields
  | _ => false
  end.

(** [String(v)] where it returns.  An array joins its elements with commas,
    [null] elements rendering as nothing. *)
Fixpoint toString (v : json) : string :=
  match v with
  | JNull => "null"
  | JBool true => "true"
  | JBool false => "false"
  | JNum n => JS.numberToString n
  | JStr s => s
  | JArr xs =>
      JS.join ","
        (map (fun x => match x with JNull => "" | _ => toString x end) xs)
  | JObj _ => "[object Object]"
  end.

(** [v === true] *)
Definition isTrue (v : option json) : bool :=
  match v with Some (JBool true) => true | _ => false end.

(** [Array.isArray(v)] *)
Definition isArray (v : json) : bool :=
  match v with JArr _ => true | _ => false end.

End Json.

(** ** The Graph client ([src/graph-client.ts]) *)

Module GraphClient.
Import Json.

(** What [fetch] resolves to.  [parsed] is what [JSON.parse] makes of the
    body text, [None] when it throws. *)
Record Response := {
  status : Z;
  statusText : string;
  text : string;
  parsed : option json;
  headers : list (string * string)
}.

(** [response.ok] *)
Definition ok (r : Response) : bool := (200 <=? status r) && (status r <=? 299).

(** [response.headers.get(name)]: header names compare without case, and
    the values of the lines that bear the name are joined by a comma and a
    blank. *)
Definition headers_get (name : string) (hs : list (string * string))
  : option string :=
  match List.filter (fun kv => String.eqb (JS.toLowerCase (fst kv))
                                          (JS.toLowerCase name)) hs with
  | [] => None
  | lines => Some (JS.join ", " (map snd lines))
  end.

(** The body of an outgoing request: a string passed through, or the
    [JSON.stringify] of a value. *)
Inductive BodyText : Type :=
  | Verbatim : string -> BodyText
  | Stringify : json -> BodyText.

Record GraphRequestOptions := {
  opt_headers : list (string * string);
  opt_method : option string;
  opt_body : option BodyText;
  rawResponse : bool;
  includeHeaders : bool;
  excludeResponse : bool;
  opt_accessToken : option string;
  opt_refreshToken : option string;
  queryParams : option (list (string * string))
}.

(** [{ method: m }] *)
Definition optionsOfMethod (m : string) : GraphRequestOptions :=
  {| opt_headers := []; opt_method := Some m; opt_body := None;
     rawResponse := false; includeHeaders := false; excludeResponse := false;
     opt_accessToken := None; opt_refreshToken := None; queryParams := None |}.

(** The options with [includeHeaders] set to [b]. *)
Definition withIncludeHeaders (b : bool) (o : GraphRequestOptions)
  : GraphRequestOptions :=
  {| opt_headers := opt_headers o; opt_method := opt_method o;
     opt_body := opt_body o; rawResponse := rawResponse o;
     includeHeaders := b; excludeResponse := excludeResponse o;
     opt_accessToken := opt_accessToken o;
     opt_refreshToken := opt_refreshToken o; queryParams := queryParams o |}.

(** The argument of one [fetch] call. *)
Record HttpRequest := {
  url : string;
  method : string;
  req_headers : list (string * string);
  req_body : option BodyText
}.

(** One call of the library function [refreshAccessToken(refreshToken,
    clientId, clientSecret, tenantId)] and what it resolves to. *)
Record RefreshCall := {
  rc_refreshToken : string;
  rc_clientId : string;
  rc_clientSecret : string;
  rc_tenantId : string
}.

Record TokenResponse := {
  access_token : string;
  refresh_token : option string
}.

Inductive Error : Type :=
  | NoAccessToken : Error
  | FailedToRefresh : Error
  | ClientSecretNotConfigured : Error
  | RefreshRejected : string -> Error
  | ScopeError : Z -> string -> string -> Error
  | ApiError : Z -> string -> string -> Error
  | FetchFailed : Error
  | AuthManagerFailed : string -> Error
  | OtherError : string -> Error.

(** [error.message] *)
Definition message (e : Error) : string :=
  match e with
  | NoAccessToken => "No access token available"
  | FailedToRefresh => "Failed to refresh access token"
  | ClientSecretNotConfigured => "MS365_MCP_CLIENT_SECRET not configured"
  | RefreshRejected body => "Failed to refresh token: " ++ body
  | ScopeError st stText body =>
      "Microsoft Graph API scope error: " ++ JS.numberToString st ++ " " ++
      stText ++ " - " ++ body ++
      ". This tool requires organization mode. Please restart with --org-mode flag."
  | ApiError st stText body =>
      "Microsoft Graph API error: " ++ JS.numberToString st ++ " " ++
      stText ++ " - " ++ body
  | FetchFailed => "fetch failed"
  | AuthManagerFailed m => m
  | OtherError m => m
  end.

(** The client object together with the world it talks to.  The remote
    services answer the n-th call they receive as [graph n] and
    [tokenEndpoint n] say; [None] from [graph] is a [fetch] that rejects.
    [sent] and [refreshCalls] record the calls made, oldest first. *)
Record World := {
  accessToken : option string;
  refreshToken : option string;
  env_tenantId : option string;
  env_clientId : option string;
  env_clientSecret : option string;
  authManager_getToken : Error + option string;
  graph : nat -> HttpRequest -> option Response;
  tokenEndpoint : nat -> RefreshCall -> string + TokenResponse;
  sent : list HttpRequest;
  refreshCalls : list RefreshCall
}.

(** Computations that read and update the world and may throw. *)
Definition M (A : Type) : Type := World -> (Error + A) * World.

Definition ret {A : Type} (a : A) : M A := fun w => (inr a, w).

Definition throw {A : Type} (e : Error) : M A := fun w => (inl e, w).

Definition bind {A B : Type} (m : M A) (f : A -> M B) : M B :=
  fun w =>
    match m w with
    | (inl e, w') => (inl e, w')
    | (inr a, w') => f a w'
    end.

(** [try { m } catch (e) { h(e) }] *)
Definition tryCatch {A : Type} (m : M A) (h : Error -> M A) : M A :=
  fun w =>
    match m w with
    | (inl e, w') => h e w'
    | (inr a, w') => (inr a, w')
    end.

Definition gets {A : Type} (f : World -> A) : M A := fun w => (inr (f w), w).

Definition modify (f : World -> World) : M unit := fun w => (inr tt, f w).

Declare Scope client_scope.
Delimit Scope client_scope with client.
Notation "x <- m ;; k" := (bind m (fun x => k))
  (at level 61, m at next level, right associativity) : client_scope.
Notation "m ;;; k" := (bind m (fun _ => k))
  (at level 61, right associativity) : client_scope.
Local Open Scope client_scope.

Definition set_sent (xs : list HttpRequest) (w : World) : World :=
  {| accessToken := accessToken w; refreshToken := refreshToken w;
     env_tenantId := env_tenantId w; env_clientId := env_clientId w;
     env_clientSecret := env_clientSecret w;
     authManager_getToken := authManager_getToken w;
     graph := graph w; tokenEndpoint := tokenEndpoint w;
     sent := xs; refreshCalls := refreshCalls w |}.

Definition set_refreshCalls (xs : list RefreshCall) (w : World) : World :=
  {| accessToken := accessToken w; refreshToken := refreshToken w;
     env_tenantId := env_tenantId w; env_clientId := env_clientId w;
     env_clientSecret := env_clientSecret w;
     authManager_getToken := authManager_getToken w;
     graph := graph w; tokenEndpoint := tokenEndpoint w;
     sent := sent w; refreshCalls := xs |}.

Definition set_accessToken (t : option string) (w : World) : World :=
  {| accessToken := t; refreshToken := refreshToken w;
     env_tenantId := env_tenantId w; env_clientId := env_clientId w;
     env_clientSecret := env_clientSecret w;
     authManager_getToken := authManager_getToken w;
     graph := graph w; tokenEndpoint := tokenEndpoint w;
     sent := sent w; refreshCalls := refreshCalls w |}.

Definition set_refreshToken (t : option string) (w : World) : World :=
  {| accessToken := accessToken w; refreshToken := t;
     env_tenantId := env_tenantId w; env_clientId := env_clientId w;
     env_clientSecret := env_clientSecret w;
     authManager_getToken := authManager_getToken w;
     graph := graph w; tokenEndpoint := tokenEndpoint w;
     sent := sent w; refreshCalls := refreshCalls w |}.

(** [fetch(url, init)] against Microsoft Graph. *)
Definition fetch (req : HttpRequest) : M Response :=
  fun w =>
    let w' := set_sent (sent w ++ [req]) w in
    match graph w (length (sent w)) req with
    | Some r => (inr r, w')
    | None => (inl FetchFailed, w')
    end.

(** The library function [refreshAccessToken] of [lib/microsoft-auth.ts]:
    one POST to the token endpoint, which throws unless the answer is ok. *)
Definition lib_refreshAccessToken (call : RefreshCall) : M TokenResponse :=
  fun w =>
    let w' := set_refreshCalls (refreshCalls w ++ [call]) w in
    match tokenEndpoint w (length (refreshCalls w)) call with
    | inr r => (inr r, w')
    | inl body => (inl (RefreshRejected body), w')
    end.

(** [authManager.getToken()] *)
Definition getToken : M (option string) :=
  fun w =>
    match authManager_getToken w with
    | inl e => (inl e, w)
    | inr t => (inr t, w)
    end.

Definition default (d : string) (o : option string) : string :=
  match JS.orElse o None with Some s => s | None => d end.

(** [performRequest]: the URL is the base URL followed by [endpoint]. *)
Definition performRequest (endpoint accessToken : string)
    (options : GraphRequestOptions) : M Response :=
  let url := "https://graph.microsoft.com/v1.0" ++ endpoint in
  let headers :=
    spread [("Authorization", "Bearer " ++ accessToken);
            ("Content-Type", "application/json")] (opt_headers options) in
  fetch {| url := url; method := default "GET" (opt_method options);
           req_headers := headers; req_body := opt_body options |}.

(** [this.refreshAccessToken(refreshToken)] *)
Definition refreshAccessToken (refreshToken : string) : M unit :=
  tenantId <- gets (fun w => default "common" (env_tenantId w)) ;;
  clientId <- gets (fun w =>
    default "084a3e9f-a9f4-43f7-89f9-d229cf97853e" (env_clientId w)) ;;
  clientSecret <- gets env_clientSecret ;;
  match JS.orElse clientSecret None with
  | None => throw ClientSecretNotConfigured
  | Some secret =>
      response <- lib_refreshAccessToken
        {| rc_refreshToken := refreshToken; rc_clientId := clientId;
           rc_clientSecret := secret; rc_tenantId := tenantId |} ;;
      modify (set_accessToken (Some (access_token response))) ;;;
      if JS.isTruthy (refresh_token response)
      then modify (set_refreshToken (refresh_token response))
      else ret tt
  end.

(** The part that [makeRequest] and [downloadBinary] share word for word:
    token selection, the request, one refresh and one retry on 401, and the
    classification of the final status. *)
Definition requestWithRefresh (endpoint : string)
    (options : GraphRequestOptions) : M Response :=
  thisToken <- gets accessToken ;;
  accessToken0 <-
    match JS.orElse (opt_accessToken options) (JS.orElse thisToken None) with
    | Some t => ret (Some t)
    | None => getToken
    end ;;
  thisRefresh <- gets refreshToken ;;
  let refreshToken0 := JS.orElse (opt_refreshToken options) thisRefresh in
  match JS.orElse accessToken0 None with
  | None => throw NoAccessToken
  | Some token =>
      response <- performRequest endpoint token options ;;
      response <-
        match refreshToken0 with
        | Some rt =>
            if (status response =? 401) && JS.truthy rt then
              refreshAccessToken rt ;;;
              refreshed <- gets accessToken ;;
              match JS.orElse refreshed (Some token) with
              | None => throw FailedToRefresh
              | Some token' => performRequest endpoint token' options
              end
            else ret response
        | None => ret response
        end ;;
      if status response =? 403 then
        if JS.includes (text response) "scope" ||
           JS.includes (text response) "permission"
        then throw (ScopeError (status response) (statusText response)
                      (text response))
        else throw (ApiError (status response) (statusText response)
                      (text response))
      else if negb (ok response) then
        throw (ApiError (status response) (statusText response) (text response))
      else ret response
  end.

(** The [result] that [makeRequest] decodes from the body of a response. *)
Definition decodeBody (response : Response) : json :=
  if String.eqb (text response) "" then JObj [("message", JStr "OK!")]
  else match parsed response with
       | Some j => j
       | None => JObj [("message", JStr "OK!");
                       ("rawResponse", JStr (text response))]
       end.

(** [etag || 'no-etag-found'] *)
Definition etagOf (response : Response) : string :=
  default "no-etag-found"
    (JS.orElse (headers_get "ETag" (headers response))
               (headers_get "etag" (headers response))).

(** [makeRequest(endpoint, options)] *)
Definition makeRequest (endpoint : string) (options : GraphRequestOptions)
  : M json :=
  response <- requestWithRefresh endpoint options ;;
  let result := decodeBody response in
  if includeHeaders options then
    match result with
    | JObj fields =>
        ret (JObj (set "_etag" (JStr (etagOf response)) fields))
    | _ => ret result
    end
  else ret result.

(** [downloadBinary(endpoint, options)]: the bytes of the body. *)
Definition downloadBinary (endpoint : string) (options : GraphRequestOptions)
  : M string :=
  response <- requestWithRefresh endpoint options ;;
  ret (text response).

(** The request [performRequest] hands to [fetch]. *)
Definition requestFor (endpoint accessToken : string)
    (options : GraphRequestOptions) : HttpRequest :=
  {| url := "https://graph.microsoft.com/v1.0" ++ endpoint;
     method := default "GET" (opt_method options);
     req_headers :=
       spread [("Authorization", "Bearer " ++ accessToken);
               ("Content-Type", "application/json")] (opt_headers options);
     req_body := opt_body options |}.

(** The access token a call starts with: the one of the options, else the
    one the client holds, else the one the auth manager hands out. *)
Definition startingToken (options : GraphRequestOptions) (w : World)
  : option string :=
  match JS.orElse (opt_accessToken options)
                  (JS.orElse (accessToken w) None) with
  | Some t => Some t
  | None =>
      match authManager_getToken w with
      | inr t => JS.orElse t None
      | inl _ => None
      end
  end.

(** The refresh token a call starts with. *)
Definition startingRefreshToken (options : GraphRequestOptions) (w : World)
  : option string :=
  JS.orElse (JS.orElse (opt_refreshToken options) (refreshToken w)) None.

(** The call [refreshAccessToken] makes to the library function. *)
Definition refreshCallFor (refreshToken secret : string) (w : World)
  : RefreshCall :=
  {| rc_refreshToken := refreshToken;
     rc_clientId := default "084a3e9f-a9f4-43f7-89f9-d229cf97853e"
                      (env_clientId w);
     rc_clientSecret := secret;
     rc_tenantId := default "common" (env_tenantId w) |}.

(** The world after the first request [req] of a call has been sent. *)
Definition afterRequest (req : HttpRequest) (w : World) : World :=
  set_sent (sent w ++ [req]) w.

(** The world after the requests [reqs] have been sent, one after the other,
    with nothing else done in between. *)
Definition afterRequests (reqs : list HttpRequest) (w : World) : World :=
  set_sent (sent w ++ reqs) w.

(** The world after a refresh that the token endpoint answered with
    [tokens]: the call is on record and the tokens are installed. *)
Definition afterRefresh (call : RefreshCall) (tokens : TokenResponse)
    (w : World) : World :=
  let w1 := set_accessToken (Some (access_token tokens))
              (set_refreshCalls (refreshCalls w ++ [call]) w) in
  if JS.isTruthy (refresh_token tokens)
  then set_refreshToken (refresh_token tokens) w1
  else w1.

(** The envelope a tool call answers with.  In the JSON output format every
    [content[i].text] is the [JSON.stringify] of a value; the text is kept as
    that value, which is what [JSON.parse] gives back for it. *)
Record McpResponse := {
  content : list json;
  _meta : option object;
  isError : bool;
  structuredContent : option json
}.

(** [removeODataProps]: deletes every key that starts with [@odata.], in
    objects at every depth, walking through arrays as well. *)
Fixpoint removeODataProps (v : json) : json :=
  match v with
  | JObj fields =>
      JObj ((fix go (kvs : list (string * json)) : list (string * json) :=
               match kvs with
               | [] => []
               | (k, x) :: rest =>
                   if JS.startsWith k "@odata." then go rest
                   else (k, removeODataProps x) :: go rest
               end) fields)
  | JArr xs => JArr (map removeODataProps xs)
  | _ => v
  end.

(** The members [removeODataProps] leaves of an object. *)
Definition removeODataFields (fields : list (string * json))
  : list (string * json) :=
  match removeODataProps (JObj fields) with
  | JObj fields' => fields'
  | _ => []
  end.

(** [makeStructured] *)
Definition makeStructured (value : json) : json :=
  match value with
  | JObj _ => value
  | _ => JObj [("value", value)]
  end.

Definition successOnly : json := JObj [("success", JBool true)].

(** [formatJsonResponse(data, rawResponse, excludeResponse)] *)
Definition formatJsonResponse (data : json) (rawResponse excludeResponse : bool)
  : McpResponse :=
  if excludeResponse then
    {| content := [successOnly]; _meta := None; isError := false;
       structuredContent := Some successOnly |}
  else
    match data with
    | JObj fields =>
        if has "_headers" fields then
          let meta0 :=
            if truthyOpt (get "_etag" fields)
            then match get "_etag" fields with
                 | Some e => [("etag", e)]
                 | None => []
                 end
            else [] in
          let meta :=
            if truthyOpt (get "_headers" fields)
            then match get "_headers" fields with
                 | Some h => set "headers" h meta0
                 | None => meta0
                 end
            else meta0 in
          if rawResponse then
            let structured :=
              makeStructured (match get "data" fields with
                              | Some d => d
                              | None => successOnly
                              end) in
            {| content := [structured]; _meta := Some meta; isError := false;
               structuredContent := Some structured |}
          else
            match get "data" fields with
            | None | Some JNull =>
                {| content := [successOnly]; _meta := Some meta;
                   isError := false; structuredContent := Some successOnly |}
            | Some d =>
                let structured := removeODataProps (makeStructured d) in
                {| content := [structured]; _meta := Some meta;
                   isError := false; structuredContent := Some structured |}
            end
        else if rawResponse then
          {| content := [data]; _meta := None; isError := false;
             structuredContent := Some data |}
        else
          let structured := removeODataProps data in
          {| content := [structured]; _meta := None; isError := false;
             structuredContent := Some structured |}
    | JNull =>
        if rawResponse then
          {| content := [makeStructured data]; _meta := None; isError := false;
             structuredContent := Some (makeStructured data) |}
        else
          {| content := [successOnly]; _meta := None; isError := false;
             structuredContent := Some successOnly |}
    | _ =>
        if rawResponse then
          {| content := [makeStructured data]; _meta := None; isError := false;
             structuredContent := Some (makeStructured data) |}
        else
          let structured := removeODataProps (makeStructured data) in
          {| content := [structured]; _meta := None; isError := false;
             structuredContent := Some structured |}
    end.

(** [graphRequest(endpoint, options)]: never throws. *)
Definition graphRequest (endpoint : string) (options : GraphRequestOptions)
  : M McpResponse :=
  tryCatch
    (result <- makeRequest endpoint options ;;
     ret (formatJsonResponse result (rawResponse options)
            (excludeResponse options)))
    (fun error =>
       let structuredError := JObj [("error", JStr (message error))] in
       ret {| content := [structuredError]; _meta := None; isError := true;
              structuredContent := Some structuredError |}).

(** *** Tokens handed over by the HTTP transport *)

(** [setOAuthTokens(accessToken, refreshToken)] *)
Definition setOAuthTokens (accessToken : string) (refreshToken : option string)
  : M unit :=
  modify (fun w => set_refreshToken (JS.orElse refreshToken None)
                     (set_accessToken (Some accessToken) w)).

(** *** The request log and the shape of values *)

(** The verdict of [requestWithRefresh] on the response it ends with: 403
    is a scope error when the body speaks of scopes or permissions, any other
    status outside 200..299 an API error. *)
Definition classify (response : Response) : Error + Response :=
  if status response =? 403 then
    if JS.includes (text response) "scope" ||
       JS.includes (text response) "permission"
    then inl (ScopeError (status response) (statusText response) (text response))
    else inl (ApiError (status response) (statusText response) (text response))
  else if negb (ok response) then
    inl (ApiError (status response) (statusText response) (text response))
  else inr response.

(** Between [w] and [w'] the requests [l] were sent, in this order, and the
    service is the same. *)
Definition Appended (l : list HttpRequest) (w w' : World) : Prop :=
  graph w' = graph w /\ sent w' = (sent w ++ l)%list.

(** A computation every run of which takes a world [w] to a world [w']
    with [R w w']. *)
Definition Steps {A : Type} (R : World -> World -> Prop) (m : M A) : Prop :=
  forall w, R w (snd (m w)).

(** Between [w] and [w'] the client sent the requests [l] to the Graph
    service, each with [P], and made the calls [c] of the token endpoint, at
    most one for every request; the services are the same. *)
Definition Sent (P : HttpRequest -> Prop) (w w' : World) : Prop :=
  graph w' = graph w /\
  exists l c,
    sent w' = (sent w ++ l)%list /\ Forall P l /\
    refreshCalls w' = (refreshCalls w ++ c)%list /\
    (length c <= length l)%nat.

(** A request [performRequest] builds from [options], for some endpoint
    and access token. *)
Definition builtFrom (options : GraphRequestOptions) (req : HttpRequest)
  : Prop :=
  exists endpoint token, req = requestFor endpoint token options.

(** A request that reads: a GET without a body, with no header beside the
    two of every request. *)
Definition isRead (req : HttpRequest) : Prop :=
  builtFrom (optionsOfMethod "GET") req.

(** No object inside [v], at any depth, has a key that starts with
    [@odata.]. *)
Fixpoint noODataKeys (v : json) : bool :=
  match v with
  | JObj fields =>
      (fix go (kvs : list (string * json)) : bool :=
         match kvs with
         | [] => true
         | (k, x) :: rest =>
             negb (JS.startsWith k "@odata.") && noODataKeys x && go rest
         end) fields
  | JArr xs => forallb noODataKeys xs
  | _ => true
  end.

End GraphClient.

(** ** URLs *)

Module URL.

Record t := {
  pathname : string;
  search : string;
  searchParams : list (string * string)
}.

(** The part of [s] before the first character satisfying [stop], and the
    rest from that character on. *)
Fixpoint span (stop : ascii -> bool) (s : string) : string * string :=
  match s with
  | EmptyString => ("", "")
  | String c s' =>
      if stop c then ("", s)
      else let '(a, b) := span stop s' in (String c a, b)
  end.

Definition isOneOf (cs : string) (c : ascii) : bool :=
  existsb (Ascii.eqb c) (list_ascii_of_string cs).

(** One [key=value] pair of a query string, decoded. *)
Definition pairOf (kv : string) : string * string :=
  let '(k, v) := span (isOneOf "=") kv in
  (JS.formDecode k, JS.formDecode (JS.slice 1 v)).

(** [new URL(s)] for an absolute http or https URL: authority, path, query,
    fragment.  [None] is the [TypeError] of an invalid URL.  The path is
    taken as written (no dot-segment or escape normalisation). *)
Definition parse (s : string) : option t :=
  let afterScheme :=
    if JS.startsWith s "https://" then Some (JS.slice 8 s)
    else if JS.startsWith s "http://" then Some (JS.slice 7 s)
    else None in
  match afterScheme with
  | None => None
  | Some rest =>
      let '(authority, rest1) := span (isOneOf "/?#") rest in
      if String.eqb authority "" then None
      else
        let '(path, rest2) := span (isOneOf "?#") rest1 in
        let '(query, _) := span (isOneOf "#") rest2 in
        Some {| pathname := if String.eqb path "" then "/" else path;
                search := if String.eqb query "?" then "" else query;
                searchParams :=
                  map pairOf
                    (filter (fun kv => negb (String.eqb kv ""))
                       (JS.split "&" (JS.slice 1 query))) |}
  end.

End URL.

(** ** Node's [path] (POSIX) and [fs] *)

Module NodePath.

(** The segments of a path after normalisation: empty and [.] segments go,
    [..] removes the segment before it (and nothing at the root).  [acc] is
    the result so far, innermost segment first. *)
Fixpoint normalizeSegments (segs acc : list string) : list string :=
  match segs with
  | [] => rev acc
  | seg :: rest =>
      if String.eqb seg "" || String.eqb seg "." then normalizeSegments rest acc
      else if String.eqb seg ".." then normalizeSegments rest (tl acc)
      else normalizeSegments rest (seg :: acc)
  end.

(** The right-to-left scan of [path.resolve]: arguments are prepended until
    an absolute one has been taken; empty arguments are skipped. *)
Fixpoint scan (reversed : list string) (resolved : string) : string * bool :=
  match reversed with
  | [] => (resolved, false)
  | p :: rest =>
      if String.eqb p "" then scan rest resolved
      else if JS.startsWith p "/" then (p ++ "/" ++ resolved, true)
      else scan rest (p ++ "/" ++ resolved)
  end.

(** [path.resolve(...paths)] in a process whose working directory is the
    absolute path [cwd]. *)
Definition resolve (cwd : string) (paths : list string) : string :=
  let '(resolved, absolute) := scan (rev paths) "" in
  let full := if absolute then resolved else cwd ++ "/" ++ resolved in
  "/" ++ JS.join "/" (normalizeSegments (JS.split "/" full) []).

(** [path.dirname(p)] for an absolute, normalised [p]. *)
Definition dirname (p : string) : string :=
  "/" ++ JS.join "/" (removelast (normalizeSegments (JS.split "/" p) [])).

(** All the directories on the way to [p], outermost first, [p] included. *)
Definition ancestors (p : string) : list string :=
  let segs := normalizeSegments (JS.split "/" p) [] in
  map (fun n => "/" ++ JS.join "/" (firstn n segs)) (seq 1 (length segs)).

End NodePath.

Module Fs.

Inductive Entry : Type :=
  | File : string -> Entry
  | Dir : Entry.

(** The file system: what exists at each absolute path.  The root directory
    always exists. *)
Definition t := list (string * Entry).

Definition lookup (p : string) (fs : t) : option Entry :=
  if String.eqb p "/" then Some Dir else Json.get p fs.

(** [existsSync(p)] *)
Definition existsSync (p : string) (fs : t) : bool :=
  match lookup p fs with Some _ => true | None => false end.

(** [mkdirSync(p, { recursive: true })]: creates every missing directory on
    the way; [inl] is the error thrown when a file is in the way. *)
Definition mkdirSync (p : string) (fs : t) : string + t :=
  fold_left
    (fun acc d =>
       match acc with
       | inl e => inl e
       | inr fs' =>
           match lookup d fs' with
           | Some Dir => inr fs'
           | Some (File _) => inl ("EEXIST: file already exists, mkdir " ++ p)
           | None => inr (Json.set d Dir fs')
           end
       end)
    (NodePath.ancestors p) (inr fs).

(** [writeFileSync(p, data)]: needs the parent directory, and [p] not to be
    a directory. *)
Definition writeFileSync (p data : string) (fs : t) : string + t :=
  match lookup (NodePath.dirname p) fs with
  | Some Dir =>
      match lookup p fs with
      | Some Dir => inl ("EISDIR: illegal operation on a directory, open " ++ p)
      | _ => inr (Json.set p (File data) fs)
      end
  | _ => inl ("ENOENT: no such file or directory, open " ++ p)
  end.

End Fs.

(** ** The tools ([src/graph-tools.ts]) *)

Module GraphTools.
Import Json GraphClient.
Local Open Scope client_scope.

Inductive ParamType : Type := Path | Query | Body | Header.

(** A parameter of a catalog endpoint; [schema] is the success of its
    validator's [safeParse]. *)
Record ParameterDefinition := {
  name : string;
  type : ParamType;
  schema : option (json -> bool)
}.

(** An element of [api.endpoints]. *)
Record Tool := {
  alias : string;
  tool_method : string;
  path : string;
  parameters : list ParameterDefinition;
  errors : list string;
  description : option string
}.

(** An element of [endpoints.json]. *)
Record EndpointConfig := {
  toolName : string;
  scopes : option (list string);
  workScopes : option (list string);
  returnDownloadUrl : bool;
  supportsTimezone : bool;
  llmTip : option string
}.

Record CallToolResult := {
  res_content : list json;
  res_meta : option object;
  res_isError : bool
}.

Definition controlParams : list string :=
  ["fetchAllPages"; "includeHeaders"; "excludeResponse"; "timezone"].

Definition odataParams : list string :=
  ["filter"; "select"; "expand"; "orderby"; "skip"; "top"; "count"; "search";
   "format"].

(** What the parameter loop of [executeGraphTool] builds up. *)
Record Binding := {
  b_path : string;
  b_queryParams : list (string * string);
  b_headers : list (string * string);
  b_body : option json
}.

Definition normalizedParamName (paramName : string) : string :=
  if JS.startsWith paramName "$" then JS.slice 1 paramName else paramName.

Definition isOdataParam (paramName : string) : bool :=
  JS.arrayIncludes odataParams (JS.toLowerCase (normalizedParamName paramName)).

Definition fixedParamName (paramName : string) : string :=
  if isOdataParam paramName
  then "$" ++ JS.toLowerCase (normalizedParamName paramName)
  else paramName.

(** [parameterDefinitions.find(...)] *)
Definition findParamDef (defs : list ParameterDefinition) (paramName : string)
  : option ParameterDefinition :=
  find (fun p =>
          String.eqb (name p) paramName ||
          (isOdataParam paramName &&
           String.eqb (name p) (normalizedParamName paramName))) defs.

(** One turn of the loop over [Object.entries(params)], for a value whose
    conversion to a string returns ([bindParamThrows] below tells when it
    does not). *)
Definition bindParam (defs : list ParameterDefinition) (b : Binding)
    (entry : string * json) : Binding :=
  let '(paramName, paramValue) := entry in
  if JS.arrayIncludes controlParams paramName then b
  else
    match findParamDef defs paramName with
    | Some paramDef =>
        match type paramDef with
        | Path =>
            let encoded := JS.encodeURIComponent (toString paramValue) in
            {| b_path :=
                 JS.replace (":" ++ paramName) encoded
                   (JS.replace ("{" ++ paramName ++ "}") encoded (b_path b));
               b_queryParams := b_queryParams b; b_headers := b_headers b;
               b_body := b_body b |}
        | Query =>
            {| b_path := b_path b;
               b_queryParams :=
                 set (fixedParamName paramName) (toString paramValue)
                   (b_queryParams b);
               b_headers := b_headers b; b_body := b_body b |}
        | Body =>
            let body :=
              match schema paramDef with
              | Some safeParse =>
                  if safeParse paramValue then paramValue
                  else
                    let wrapped := JObj [(paramName, paramValue)] in
                    if safeParse wrapped then wrapped else paramValue
              | None => paramValue
              end in
            {| b_path := b_path b; b_queryParams := b_queryParams b;
               b_headers := b_headers b; b_body := Some body |}
        | Header =>
            {| b_path := b_path b; b_queryParams := b_queryParams b;
               b_headers :=
                 set (fixedParamName paramName) (toString paramValue)
                   (b_headers b);
               b_body := b_body b |}
        end
    | None =>
        if String.eqb paramName "body"
        then {| b_path := b_path b; b_queryParams := b_queryParams b;
                b_headers := b_headers b; b_body := Some paramValue |}
        else b
    end.

(** The whole loop, from the path template and empty maps. *)
Definition bindParams (tool : Tool) (params : object) : Binding :=
  fold_left (bindParam (parameters tool)) params
    {| b_path := path tool; b_queryParams := []; b_headers := [];
       b_body := None |}.

(** Whether the turn of the loop for [entry] throws: a Path, Query or Header
    value is converted to a string ([encodeURIComponent], a template
    literal), a Body value is not. *)
Definition bindParamThrows (defs : list ParameterDefinition)
    (entry : string * json) : bool :=
  let '(paramName, paramValue) := entry in
  if JS.arrayIncludes controlParams paramName then false
  else
    match findParamDef defs paramName with
    | Some paramDef =>
        match type paramDef with
        | Path | Query | Header => stringThrows paramValue
        | Body => false
        end
    | None => false
    end.

Definition quote : string := String (ascii_of_nat 34) "".

(** The path with the query string appended. *)
Definition withQueryString (p : string) (queryParams : list (string * string))
  : string :=
  match queryParams with
  | [] => p
  | _ =>
      let queryString :=
        JS.join "&"
          (map (fun kv => JS.encodeURIComponent (fst kv) ++ "=" ++
                          JS.encodeURIComponent (snd kv)) queryParams) in
      p ++ (if JS.includes p "?" then "&" else "?") ++ queryString
  end.

(** Whether building the request throws: in a turn of the parameter loop,
    or in the template literal of the [Prefer] header. *)
Definition buildRequestThrows (tool : Tool) (config : option EndpointConfig)
    (params : object) : bool :=
  existsb (bindParamThrows (parameters tool)) params ||
  match config with
  | Some c =>
      supportsTimezone c && truthyOpt (get "timezone" params) &&
      match get "timezone" params with
      | Some tz => stringThrows tz
      | None => false
      end
  | None => false
  end.

(** The request [executeGraphTool] hands to [graphRequest] when building it
    does not throw: the final path and the options. *)
Definition buildRequest (tool : Tool) (config : option EndpointConfig)
    (params : object) : string * GraphRequestOptions :=
  let b := bindParams tool params in
  let headers :=
    match config with
    | Some c =>
        if supportsTimezone c && truthyOpt (get "timezone" params)
        then set "Prefer"
               ("outlook.timezone=" ++ quote ++
                match get "timezone" params with
                | Some tz => toString tz
                | None => ""
                end ++ quote) (b_headers b)
        else b_headers b
    | None => b_headers b
    end in
  let path1 := withQueryString (b_path b) (b_queryParams b) in
  let method := JS.toUpperCase (tool_method tool) in
  let body :=
    if negb (String.eqb method "GET") && truthyOpt (b_body b) then
      match b_body b with
      | Some (JStr s) => Some (Verbatim s)
      | Some j => Some (Stringify j)
      | None => None
      end
    else None in
  let isProbablyMediaContent :=
    existsb (String.eqb "Retrieved media content") (errors tool) ||
    JS.endsWith path1 "/content" in
  let returnsUrl :=
    match config with
    | Some c => returnDownloadUrl c && JS.endsWith path1 "/content"
    | None => false
    end in
  (if returnsUrl then JS.dropSuffix "/content" path1 else path1,
   {| opt_headers := headers; opt_method := Some method; opt_body := body;
      rawResponse := negb returnsUrl && isProbablyMediaContent;
      includeHeaders := isTrue (get "includeHeaders" params);
      excludeResponse := isTrue (get "excludeResponse" params);
      opt_accessToken := None; opt_refreshToken := None;
      queryParams := None |}).

(** [v[k]] for a value that is not [null]: a key of an object, [undefined]
    on anything else. *)
Definition prop (k : string) (v : json) : option json :=
  match v with
  | JObj fields => get k fields
  | _ => None
  end.

(** [a || b] on values that may be [undefined]. *)
Definition orJ (a b : option json) : option json :=
  if truthyOpt a then a else b.

(** [allItems.concat(more)]; [None] is the [TypeError] of a receiver without
    a [concat] method. *)
Definition concatItems (allItems more : json) : option json :=
  match allItems, more with
  | JArr a, JArr b => Some (JArr (a ++ b))
  | JArr a, _ => Some (JArr (a ++ [more]))
  | JStr a, _ => Some (JStr (a ++ toString more))
  | _, _ => None
  end.

(** [allItems.length]; [None] is [undefined]. *)
Definition lengthOf (v : json) : option json :=
  match v with
  | JArr a => Some (JNum (Z.of_nat (length a)))
  | JStr a => Some (JNum (Z.of_nat (String.length a)))
  | _ => None
  end.

Definition withQueryParams (q : list (string * string))
    (o : GraphRequestOptions) : GraphRequestOptions :=
  {| opt_headers := opt_headers o; opt_method := opt_method o;
     opt_body := opt_body o; rawResponse := rawResponse o;
     includeHeaders := includeHeaders o; excludeResponse := excludeResponse o;
     opt_accessToken := opt_accessToken o;
     opt_refreshToken := opt_refreshToken o; queryParams := Some q |}.

(** The [while (nextLink && pageCount < 100)] loop.  [fuel] bounds the turns
    of the loop; the caller passes 99, which the test on [pageCount] never
    lets it use up.  The result is the items gathered and the page count, or
    [None] when a turn threw inside the enclosing [try]. *)
Fixpoint fetchPages (fuel : nat) (options : GraphRequestOptions)
    (allItems : json) (nextLink : option json) (pageCount : Z)
  : M (option (json * Z)) :=
  if truthyOpt nextLink && (pageCount <? 100) then
    match fuel with
    | O => ret (Some (allItems, pageCount))
    | S fuel' =>
        match URL.parse (match nextLink with
                         | Some l => toString l
                         | None => ""
                         end) with
        | None => ret None
        | Some url =>
            let nextPath := JS.replace "/v1.0" "" (URL.pathname url) in
            let nextQueryParams :=
              fold_left (fun acc kv => set (fst kv) (snd kv) acc)
                (URL.searchParams url) [] in
            let nextOptions := withQueryParams nextQueryParams options in
            nextResponse <- graphRequest nextPath nextOptions ;;
            match content nextResponse with
            | JNull :: _ => ret None
            | nextJsonResponse :: _ =>
                let value := prop "value" nextJsonResponse in
                let gathered :=
                  match value with
                  | Some v =>
                      if truthy v && isArray v then concatItems allItems v
                      else Some allItems
                  | None => Some allItems
                  end in
                match gathered with
                | None => ret None
                | Some allItems' =>
                    fetchPages fuel' options allItems'
                      (prop "@odata.nextLink" nextJsonResponse) (pageCount + 1)
                end
            | [] => ret (Some (allItems, pageCount))
            end
        end
    end
  else ret (Some (allItems, pageCount)).

(** The [fetchAllPages] block: the new [content[0].text]. *)
Definition aggregatePages (options : GraphRequestOptions) (first : list json)
  : M (list json) :=
  match first with
  | JObj fields :: rest =>
      let allItems :=
        match orJ (get "value" fields) None with
        | Some v => v
        | None => JArr []
        end in
      r <- fetchPages 99 options allItems (get "@odata.nextLink" fields) 1 ;;
      match r with
      | None => ret first
      | Some (allItems', _) =>
          let combined := set "value" allItems' fields in
          let combined :=
            if truthyOpt (get "@odata.count" combined) then
              match lengthOf allItems' with
              | Some n => set "@odata.count" n combined
              | None => delete "@odata.count" combined
              end
            else combined in
          ret (JObj (delete "@odata.nextLink" combined) :: rest)
      end
  | _ => ret first
  end.

(** The [TypeError] of converting to a string an object that cannot be. *)
Definition cannotConvert : Error :=
  OtherError "Cannot convert object to primitive value".

(** [executeGraphTool(tool, config, graphClient, params)]: the body of the
    function is one [try] block, whose [catch] answers with an error
    result. *)
Definition executeGraphTool (tool : Tool) (config : option EndpointConfig)
    (params : object) : M CallToolResult :=
  tryCatch
    (if buildRequestThrows tool config params then throw cannotConvert
     else
       let '(path, options) := buildRequest tool config params in
       response <- graphRequest path options ;;
       content' <-
         (if isTrue (get "fetchAllPages" params)
          then aggregatePages options (content response)
          else ret (content response)) ;;
       ret {| res_content := content'; res_meta := _meta response;
              res_isError := isError response |})
    (fun error =>
       ret {| res_content :=
                [JObj [("error", JStr ("Error in tool " ++ alias tool ++ ": " ++
                                       message error))]];
              res_meta := None; res_isError := true |}).

(** *** The SharePoint file collector *)

(** What the service sends is cast to the types the code declares and is not
    checked when the code runs, so the members of a drive and of a drive item
    are kept as the values they are: an [id] or a [name] may be any JSON
    value, and the code throws only where it calls a string method on one
    that is no string, or converts one that cannot be converted. *)
Record SharePointDriveInfo := {
  di_driveId : json;
  di_driveName : json;
  di_rootItemId : json
}.

Inductive SharePointFileNode : Type := MkNode {
  n_siteId : string;
  n_driveId : json;
  n_driveItemId : option json;
  n_name : json;
  n_webUrl : option json;
  n_size : option Z;
  n_isFolder : bool;
  n_mimeType : option json;
  n_createdDateTime : option json;
  n_lastModifiedDateTime : option json;
  n_path : string;
  n_children : option (list SharePointFileNode)
}.

Inductive Structure : Type := flat | tree.

Record ListSharePointSiteFilesOptions := {
  o_siteId : string;
  o_driveId : option string;
  o_driveName : option string;
  structure : Structure;
  includeFolders : option bool;
  maxDepth : option Z;
  filter : option string;
  pageSize : option Z
}.

(** [(value || '').trim().toLowerCase()] on a string or nothing. *)
Definition normalize (value : option string) : string :=
  JS.toLowerCase (JS.trim (match JS.orElse value None with
                           | Some s => s
                           | None => ""
                           end)).

(** A test [f] that [normalize]s the member [v] of an element.  A falsy
    member is read as nothing; on a truthy one that is no string, [trim] is
    not a function: [None] is that [TypeError]. *)
Definition whenText (v : option json) (f : option string -> bool)
  : option bool :=
  match v with
  | Some (JStr s) => Some (f (Some s))
  | Some x => if truthy x then None else Some (f None)
  | None => Some (f None)
  end.

(** The [TypeError] of reading the member [member] of [null]. *)
Definition nullRead (member : string) : Error :=
  OtherError ("Cannot read properties of null (reading '" ++ member ++ "')").

(** The [TypeError] of [normalize] on a value that is no string. *)
Definition trimIsNoFunction : Error :=
  OtherError ("(value || " ++ quote ++ quote ++ ").trim is not a function").

(** [array.find(p)] where [p] first reads [member] of the element, which
    throws on [null], and then may throw in [normalize]. *)
Fixpoint findDrive (member : string) (p : json -> option bool)
    (xs : list json) : Error + option json :=
  match xs with
  | [] => inr None
  | JNull :: _ => inl (nullRead member)
  | x :: rest =>
      match p x with
      | None => inl trimIsNoFunction
      | Some true => inr (Some x)
      | Some false => findDrive member p rest
      end
  end.

(** The tests of the drive selection. *)
Definition driveHasId (driveId : option string) (d : json) : option bool :=
  whenText (prop "id" d)
    (fun id => JS.isTruthy id &&
               String.eqb (normalize id) (normalize driveId)).

Definition driveHasName (driveName : option string) (d : json) : option bool :=
  whenText (prop "name" d)
    (fun nm => JS.isTruthy nm &&
               String.eqb (normalize nm) (normalize driveName)).

Definition driveIsPreferred (d : json) : option bool :=
  whenText (prop "name" d)
    (fun nm => JS.arrayIncludes ["dokumente"; "documents"; "shared documents"]
                 (normalize nm)).

(** [resolveSiteDrive(graphClient, siteId, driveId, driveName)] *)
Definition resolveSiteDrive (siteId : string) (driveId driveName : option string)
  : M SharePointDriveInfo :=
  let endpoint := "/sites/" ++ JS.encodeURIComponent siteId ++ "/drives" in
  result <- makeRequest endpoint (optionsOfMethod "GET") ;;
  match orJ (prop "value" result) None with
  | Some (JArr (d0 :: ds)) =>
      let drives := d0 :: ds in
      let lift (r : Error + option json) : M (option json) :=
        match r with inr x => ret x | inl e => throw e end in
      byId <-
        (if JS.isTruthy driveId
         then lift (findDrive "id" (driveHasId driveId) drives)
         else ret None) ;;
      byName <-
        (match byId with
         | Some d => ret (Some d)
         | None =>
             if JS.isTruthy driveName
             then lift (findDrive "name" (driveHasName driveName) drives)
             else ret None
         end) ;;
      selected <-
        (match byName with
         | Some d => ret d
         | None =>
             preferred <- lift (findDrive "name" driveIsPreferred drives) ;;
             ret (match preferred with Some d => d | None => d0 end)
         end) ;;
      match orJ (prop "id" selected) None with
      | None =>
          throw (OtherError ("Failed to resolve drive for siteId=" ++ siteId ++
                             " (missing drive id)"))
      | Some selectedId =>
          let selectedName :=
            match orJ (prop "name" selected) None with
            | Some n => n
            | None => selectedId
            end in
          match orJ (match prop "root" selected with
                     | Some r => prop "id" r
                     | None => None
                     end) None with
          | Some rootItemId =>
              ret {| di_driveId := selectedId; di_driveName := selectedName;
                     di_rootItemId := rootItemId |}
          | None =>
              if stringThrows selectedId then throw cannotConvert
              else
                driveRoot <- makeRequest
                  ("/drives/" ++ JS.encodeURIComponent (toString selectedId) ++
                   "/root")
                  (optionsOfMethod "GET") ;;
                match orJ (prop "id" driveRoot) None with
                | None =>
                    throw (OtherError
                      ("Failed to resolve drive root item for siteId=" ++
                       siteId ++ ", driveId=" ++ toString selectedId ++
                       " (missing root id)"))
                | Some rootItemId =>
                    ret {| di_driveId := selectedId;
                           di_driveName := selectedName;
                           di_rootItemId := rootItemId |}
                end
          end
      end
  | _ =>
      throw (OtherError ("No document libraries (drives) found for siteId=" ++
                         siteId))
  end.

(** The [while (true)] loop of [listDriveItemChildren].  The source loops
    for as long as the service sends a next link; [fuel] bounds the pages the
    model follows, and running out of it is reported as an error of its
    own. *)
Fixpoint listPages (fuel : nat) (endpoint : string) (items : list json)
  : M (list json) :=
  match fuel with
  | O => throw (OtherError "model: page budget exhausted")
  | S fuel' =>
      response <- makeRequest endpoint (optionsOfMethod "GET") ;;
      let items' :=
        match orJ (prop "value" response) None with
        | Some (JArr pageItems) => (items ++ pageItems)%list
        | _ => items
        end in
      match prop "@odata.nextLink" response with
      | Some (JStr nextLink) =>
          if JS.truthy nextLink then
            match URL.parse nextLink with
            | Some url =>
                listPages fuel'
                  (JS.replace "/v1.0" "" (URL.pathname url) ++ URL.search url)
                  items'
            | None => ret items'
            end
          else ret items'
      | _ => ret items'
      end
  end.

(** The endpoint [listDriveItemChildren] starts from; an item id that is
    [undefined] is written out as that word. *)
Definition childrenEndpoint (driveId : json) (driveItemId : option json)
    (pageSize : option Z) : string :=
  let endpoint :=
    "/drives/" ++ JS.encodeURIComponent (toString driveId) ++ "/items/" ++
    JS.encodeURIComponent (match driveItemId with
                           | Some i => toString i
                           | None => "undefined"
                           end) ++ "/children" in
  match pageSize with
  | Some n => if 0 <? n then endpoint ++ "?$top=" ++ JS.numberToString n
              else endpoint
  | None => endpoint
  end.

(** [listDriveItemChildren(graphClient, driveId, driveItemId, pageSize)] *)
Definition listDriveItemChildren (fuel : nat) (driveId : json)
    (driveItemId : option json) (pageSize : option Z) : M (list json) :=
  if stringThrows driveId ||
     match driveItemId with Some i => stringThrows i | None => false end
  then throw cannotConvert
  else listPages fuel (childrenEndpoint driveId driveItemId pageSize) [].

Definition notLineTerminator (c : ascii) : bool :=
  negb (Ascii.eqb c "010" || Ascii.eqb c "013").

(** The regular expression [matchesFilter] builds from a filter with a
    star: every character but the star stands for itself, whatever its
    case, and the star for any run of characters other than line ends. *)
Fixpoint globMatch (pat : string) : string -> bool :=
  match pat with
  | EmptyString => fun s => String.eqb s ""
  | String p pat' =>
      if Ascii.eqb p "*" then
        fix star (s : string) : bool :=
          globMatch pat' s ||
          match s with
          | EmptyString => false
          | String c s' => notLineTerminator c && star s'
          end
      else
        fun s =>
          match s with
          | EmptyString => false
          | String c s' =>
              Ascii.eqb (JS.lowerChar c) (JS.lowerChar p) && globMatch pat' s'
          end
  end.

(** [matchesFilter(name, filter)]; [None] is the [TypeError] of a truthy
    name that is no string and so has no [toLowerCase]. *)
Definition matchesFilter (name : json) (filter : option string) : option bool :=
  match JS.orElse filter None with
  | None => Some true
  | Some f =>
      if negb (truthy name) then Some false
      else
        match name with
        | JStr name =>
            let loweredName := JS.toLowerCase name in
            let loweredFilter := JS.toLowerCase f in
            Some (if JS.startsWith loweredFilter "*." &&
                     (2 <? String.length loweredFilter)%nat
                  then JS.endsWith loweredName (JS.slice 1 loweredFilter)
                  else if JS.includes loweredFilter "*"
                  then globMatch loweredFilter name
                  else JS.includes loweredName loweredFilter)
        | _ => None
        end
  end.

(** The mutable variables [walk] closes over. *)
Record WalkState := {
  flatItems : list SharePointFileNode;
  truncated : bool
}.

(** [!!item.folder] *)
Definition itemIsFolder (item : json) : bool := truthyOpt (prop "folder" item).

(** [item.name || ''] *)
Definition itemName (item : json) : json :=
  match orJ (prop "name" item) None with
  | Some n => n
  | None => JStr ""
  end.

Definition childPathOf (currentPath name : string) : string :=
  if String.eqb currentPath "/" then "/" ++ name
  else currentPath ++ "/" ++ name.

(** [baseNode] *)
Definition baseNode (siteId : string) (driveId : json) (item : json)
    (childPath : string) : SharePointFileNode :=
  {| n_siteId := siteId;
     n_driveId := driveId;
     n_driveItemId :=
       Some (match orJ (prop "id" item) None with
             | Some i => i
             | None => JStr ""
             end);
     n_name := itemName item;
     n_webUrl := prop "webUrl" item;
     n_size := match prop "size" item with
               | Some (JNum n) => Some n
               | _ => None
               end;
     n_isFolder := itemIsFolder item;
     n_mimeType := match prop "file" item with
                   | Some f => prop "mimeType" f
                   | None => None
                   end;
     n_createdDateTime :=
       orJ (prop "createdDateTime" item)
         (match prop "fileSystemInfo" item with
          | Some f => prop "createdDateTime" f
          | None => None
          end);
     n_lastModifiedDateTime :=
       orJ (prop "lastModifiedDateTime" item)
         (match prop "fileSystemInfo" item with
          | Some f => prop "lastModifiedDateTime" f
          | None => None
          end);
     n_path := childPath;
     n_children := None |}.

Definition pushFlat (n : SharePointFileNode) (st : WalkState) : WalkState :=
  {| flatItems := flatItems st ++ [n]; truncated := truncated st |}.

Definition setTruncated (st : WalkState) : WalkState :=
  {| flatItems := flatItems st; truncated := true |}.

Definition SAFE_MAX_DEPTH : Z := 20.

(** [Math.min(maxDepth, SAFE_MAX_DEPTH)], [maxDepth] defaulting to 10. *)
Definition effectiveMaxDepth (o : ListSharePointSiteFilesOptions) : Z :=
  Z.min (match maxDepth o with Some m => m | None => 10 end) SAFE_MAX_DEPTH.

Definition includeFoldersOf (o : ListSharePointSiteFilesOptions) : bool :=
  match includeFolders o with Some b => b | None => false end.

Definition notAFunction : Error :=
  OtherError "name.toLowerCase is not a function".

Section Walk.

Variable o : ListSharePointSiteFilesOptions.
Variable driveInfo : SharePointDriveInfo.
Variable pageFuel : nat.

(** Whether the loop body pushes the node of [item] to [flatItems]: the
    filter is asked about a file, and about a folder when folders are to be
    included. *)
Definition emits (item : json) : option bool :=
  if negb (itemIsFolder item) then matchesFilter (itemName item) (filter o)
  else if includeFoldersOf o then matchesFilter (itemName item) (filter o)
  else Some false.

(** The body of the [for (const item of children)] loop of one [walk], with
    the recursive call passed in: [recurse] is [walk] itself one level
    further down, or [None] when the model has no level left. *)
Fixpoint walkChildren
    (recurse : option (option json -> string -> Z -> WalkState ->
                       M (SharePointFileNode * WalkState)))
    (currentPath : string) (depth : Z) (children : list json)
    (childNodes : list SharePointFileNode) (st : WalkState)
  : M (list SharePointFileNode * WalkState) :=
  match children with
  | [] => ret (childNodes, st)
  | JNull :: _ => throw (nullRead "folder")
  | item :: rest =>
      let isFolder := itemIsFolder item in
      let name := itemName item in
      if stringThrows name then throw cannotConvert
      else
        let childPath := childPathOf currentPath (toString name) in
        let node := baseNode (o_siteId o) (di_driveId driveInfo) item childPath in
        match emits item with
        | None => throw notAFunction
        | Some pushed =>
            let st := if pushed then pushFlat node st else st in
            if isFolder then
              if depth <? effectiveMaxDepth o then
                match recurse with
                | Some walk =>
                    r <- walk (prop "id" item) childPath (depth + 1) st ;;
                    walkChildren recurse currentPath depth rest
                      (childNodes ++ [fst r]) (snd r)
                | None =>
                    walkChildren recurse currentPath depth rest childNodes
                      (setTruncated st)
                end
              else
                walkChildren recurse currentPath depth rest childNodes
                  (setTruncated st)
            else
              match structure o with
              | tree =>
                  walkChildren recurse currentPath depth rest
                    (childNodes ++ [node]) st
              | flat => walkChildren recurse currentPath depth rest childNodes st
              end
        end
  end.

(** [walk(currentItemId, currentPath, depth)].  [levels] is the number of
    levels the model can still descend; [collectSharePointFiles] starts it at
    the depth ceiling, so that the test on [depth] stops the descent first. *)
Fixpoint walk (levels : nat) (currentItemId : option json)
    (currentPath : string) (depth : Z) (st : WalkState)
  : M (SharePointFileNode * WalkState) :=
  children <- listDriveItemChildren pageFuel (di_driveId driveInfo)
                currentItemId (pageSize o) ;;
  let node (kids : option (list SharePointFileNode)) :=
    {| n_siteId := o_siteId o;
       n_driveId := di_driveId driveInfo;
       n_driveItemId := currentItemId;
       n_name :=
         if depth =? 0 then di_driveName driveInfo
         else JStr (last (JS.split "/" currentPath) "");
       n_webUrl := None;
       n_size := None;
       n_isFolder := true;
       n_mimeType := None;
       n_createdDateTime := None;
       n_lastModifiedDateTime := None;
       n_path := if JS.truthy currentPath then currentPath else "/";
       n_children := kids |} in
  r <- walkChildren
         (match levels with
          | S levels' => Some (walk levels')
          | O => None
          end) currentPath depth children [] st ;;
  ret (node (match structure o with
             | tree => Some (fst r)
             | flat => None
             end), snd r).

End Walk.

Inductive CollectResult : Type :=
  | FlatResult (items : list SharePointFileNode) (driveId driveName : json)
      (siteId : string) (truncated : bool)
  | TreeResult (root : SharePointFileNode) (driveId driveName : json)
      (siteId : string) (truncated : bool).

Definition initialWalkState : WalkState :=
  {| flatItems := []; truncated := false |}.

(** [collectSharePointFiles(graphClient, options)] *)
Definition collectSharePointFiles (pageFuel : nat)
    (o : ListSharePointSiteFilesOptions) : M CollectResult :=
  driveInfo <- resolveSiteDrive (o_siteId o) (o_driveId o) (o_driveName o) ;;
  r <- walk o driveInfo pageFuel (Z.to_nat (effectiveMaxDepth o))
         (Some (di_rootItemId driveInfo)) "/" 0 initialWalkState ;;
  ret (match structure o with
       | flat => FlatResult (flatItems (snd r)) (di_driveId driveInfo)
                   (di_driveName driveInfo) (o_siteId o) (truncated (snd r))
       | tree => TreeResult (fst r) (di_driveId driveInfo)
                   (di_driveName driveInfo) (o_siteId o) (truncated (snd r))
       end).


(** The files of a tree, in order. *)
Fixpoint leaves (n : SharePointFileNode) : list SharePointFileNode :=
  if n_isFolder n then
    match n_children n with
    | Some kids =>
        (fix go (ks : list SharePointFileNode) : list SharePointFileNode :=
           match ks with
           | [] => []
           | k :: ks' => leaves k ++ go ks'
           end)%list kids
    | None => []
    end
  else [n].

(** The folders of a tree, each by item id and path, parents first. *)
Fixpoint folders (n : SharePointFileNode) : list (option json * string) :=
  if n_isFolder n then
    (n_driveItemId n, n_path n) ::
    match n_children n with
    | Some kids =>
        (fix go (ks : list SharePointFileNode)
           : list (option json * string) :=
           match ks with
           | [] => []
           | k :: ks' => folders k ++ go ks'
           end)%list kids
    | None => []
    end
  else [].

(** *** What the traversal is measured against *)

(** A document library as the service holds it: a drive item and, for a
    folder, the items inside it. *)
Inductive Stored : Type :=
  | Held (item : json) (inside : list Stored).

Definition itemOf (s : Stored) : json :=
  match s with Held item _ => item end.

(** A drive item the loop of [walk] gets through without an exception: it
    is not [null], its name is a string or is missing, and its id can be
    converted to a string. *)
Definition listable (item : json) : bool :=
  match item with
  | JNull => false
  | _ =>
      match itemName item with JStr _ => true | _ => false end &&
      match prop "id" item with
      | Some i => negb (stringThrows i)
      | None => true
      end
  end.

(** The items of one page of a listing and the endpoint of the page after
    it, as [listDriveItemChildren] reads them from the decoded answer: the
    items are the array under [value], and there is a next page when
    [@odata.nextLink] is a non-empty string that is a URL. *)
Definition pageItems (response : json) : list json :=
  match orJ (prop "value" response) None with
  | Some (JArr items) => items
  | _ => []
  end.

Definition nextEndpoint (response : json) : option string :=
  match prop "@odata.nextLink" response with
  | Some (JStr nextLink) =>
      if JS.truthy nextLink then
        match URL.parse nextLink with
        | Some url =>
            Some (JS.replace "/v1.0" "" (URL.pathname url) ++ URL.search url)
        | None => None
        end
      else None
  | _ => None
  end.

(** The request for the page of a listing at [endpoint]. *)
Definition pageRequest (token endpoint : string) : HttpRequest :=
  requestFor endpoint token (optionsOfMethod "GET").

(** The service [g] answers the request for the page at [endpoint],
    whenever and with whatever token it is asked, with a 2xx response that
    holds [items] and leads on to [next]. *)
Definition Page (g : nat -> HttpRequest -> option Response)
    (endpoint : string) (items : list json) (next : option string) : Prop :=
  forall n token, exists r,
    g n (pageRequest token endpoint) = Some r /\
    ok r = true /\
    pageItems (decodeBody r) = items /\
    nextEndpoint (decodeBody r) = next.

(** The service lists [items] on the pages at [endpoints], each page leading
    on to the next and the last one to none. *)
Inductive Paged (g : nat -> HttpRequest -> option Response)
  : list string -> list json -> Prop :=
  | Paged_last : forall endpoint items,
      Page g endpoint items None -> Paged g [endpoint] items
  | Paged_more : forall endpoint next rest items more,
      Page g endpoint items (Some next) ->
      Paged g (next :: rest) more ->
      Paged g (endpoint :: next :: rest) (items ++ more)%list.

(** A child of a folder as the traversal is to meet it: the item, the path
    it is given and the depth of the folder that lists it. *)
Record Visit := {
  v_item : json;
  v_path : string;
  v_depth : Z
}.

Section Traversal.

Variable o : ListSharePointSiteFilesOptions.
Variable driveId : json.
Variable pageFuel : nat.
Variable pagesOf : option json -> list string.

(** The children to be met under a folder of the library that lies at
    [depth] and has the path [currentPath]: its own, each followed by what
    is to be met under it when it is a folder above the depth ceiling. *)
Fixpoint metFrom (currentPath : string) (depth : Z) (s : Stored)
  : list Visit :=
  match s with
  | Held item inside =>
      let childPath := childPathOf currentPath (toString (itemName item)) in
      {| v_item := item; v_path := childPath; v_depth := depth |} ::
      if itemIsFolder item && (depth <? effectiveMaxDepth o)
      then flat_map (metFrom childPath (depth + 1)) inside
      else []
  end.

Definition met (currentPath : string) (depth : Z) (kids : list Stored)
  : list Visit :=
  flat_map (metFrom currentPath depth) kids.

(** The node the loop builds for a child it meets. *)
Definition nodeOf (v : Visit) : SharePointFileNode :=
  baseNode (o_siteId o) driveId (v_item v) (v_path v).

Definition isFolderVisit (v : Visit) : bool := itemIsFolder (v_item v).

Definition isFileVisit (v : Visit) : bool := negb (itemIsFolder (v_item v)).

(** A folder met below the depth ceiling. *)
Definition belowCeiling (v : Visit) : bool :=
  isFolderVisit v && (v_depth v <? effectiveMaxDepth o).

(** A folder met at the depth ceiling (or beyond it). *)
Definition atCeiling (v : Visit) : bool :=
  isFolderVisit v && negb (v_depth v <? effectiveMaxDepth o).

(** The name of a child passes the filter, and the child is a file or
    folders are to be included. *)
Definition emitted (v : Visit) : bool :=
  match matchesFilter (itemName (v_item v)) (filter o) with
  | Some true => isFileVisit v || includeFoldersOf o
  | _ => false
  end.

(** The service [g] holds the library: it lists the children of the folder
    [id], which lies at [depth], as the items [kids] on the pages at
    [pagesOf id], the first of which is the endpoint [listDriveItemChildren]
    starts from; the pages are no more than the model follows; every item is
    [listable]; and likewise for every folder among the items, as far down
    as the depth ceiling lets the traversal descend. *)
Inductive Served (g : nat -> HttpRequest -> option Response)
  : option json -> Z -> list Stored -> Prop :=
  | Served_folder : forall id depth kids,
      hd_error (pagesOf id) = Some (childrenEndpoint driveId id (pageSize o)) ->
      (length (pagesOf id) <= pageFuel)%nat ->
      Paged g (pagesOf id) (map itemOf kids) ->
      Forall (fun k => listable (itemOf k) = true) kids ->
      (forall item inside,
         In (Held item inside) kids ->
         itemIsFolder item = true -> depth < effectiveMaxDepth o ->
         Served g (prop "id" item) (depth + 1) inside) ->
      Served g id depth kids.

End Traversal.

Section Outcome.

Variable o : ListSharePointSiteFilesOptions.
Variable driveId : json.
Variable token : string.
Variable pagesOf : option json -> list string.

(** The requests that list the folders [ids], page by page. *)
Definition listings (ids : list (option json)) : list HttpRequest :=
  map (pageRequest token) (flat_map pagesOf ids).

(** The item id of a child met, and the place a folder met takes in the
    tree: its item id and its path. *)
Definition idOf (v : Visit) : option json := prop "id" (v_item v).

Definition placeOf (v : Visit) : option json * string := (idOf v, v_path v).

(** What the loop of [walk] over the children [kids] of the folder at
    [currentPath] and [depth] has done, from the variables [st] and the
    world [w] to [st'] and [w'], with the child nodes [nodes] built: the
    nodes pushed to the flat list, the flag, the listings requested, and in
    tree mode the files and the folders under the child nodes. *)
Definition Walked (currentPath : string) (depth : Z) (kids : list Stored)
    (st : WalkState) (w : World) (nodes : list SharePointFileNode)
    (st' : WalkState) (w' : World) : Prop :=
  let seen := met o currentPath depth kids in
  flatItems st' =
    (flatItems st ++
     map (nodeOf o driveId) (List.filter (emitted o) seen))%list /\
  truncated st' = truncated st || existsb (atCeiling o) seen /\
  sent w' =
    (sent w ++ listings (map idOf (List.filter (belowCeiling o) seen)))%list /\
  graph w' = graph w /\
  startingToken (optionsOfMethod "GET") w' =
    startingToken (optionsOfMethod "GET") w /\
  (structure o = tree ->
   flat_map leaves nodes =
     map (nodeOf o driveId) (List.filter isFileVisit seen) /\
   flat_map folders nodes = map placeOf (List.filter (belowCeiling o) seen)).

(** An item id that can be written into an endpoint. *)
Definition writable (id : option json) : bool :=
  match id with Some i => negb (stringThrows i) | None => true end.

(** A call of [walk] for the folder [id], whose children are [kids], has
    returned [out]: the node of the folder, after the listing of the folder
    and the loop over its children. *)
Definition Descended (id : option json) (currentPath : string) (depth : Z)
    (kids : list Stored) (st : WalkState) (w : World)
    (out : (Error + SharePointFileNode * WalkState) * World) : Prop :=
  exists node nodes st' w',
    out = (inr (node, st'), w') /\
    n_isFolder node = true /\
    n_driveItemId node = id /\
    n_path node = currentPath /\
    n_children node =
      (match structure o with tree => Some nodes | flat => None end) /\
    Walked currentPath depth kids st (afterRequests (listings [id]) w)
      nodes st' w'.

(** A world in which the service is [g] and a call starts with [token]. *)
Definition Ready (g : nat -> HttpRequest -> option Response) (w : World)
  : Prop :=
  graph w = g /\ startingToken (optionsOfMethod "GET") w = Some token.

End Outcome.

(** *** What the drive selection is measured against *)

(** A test of the drive selection holds of [d]. *)
Definition passes (p : json -> option bool) (d : json) : bool :=
  match p d with Some true => true | _ => false end.

(** The drive the selection is to settle on: the first drive with the
    requested id, else the first with the requested name, else the first
    under one of the preferred names, else the first drive. *)
Definition selectDrive (driveId driveName : option string) (drives : list json)
  : option json :=
  match (if JS.isTruthy driveId
         then find (passes (driveHasId driveId)) drives else None) with
  | Some d => Some d
  | None =>
      match (if JS.isTruthy driveName
             then find (passes (driveHasName driveName)) drives else None) with
      | Some d => Some d
      | None =>
          match find (passes driveIsPreferred) drives with
          | Some d => Some d
          | None => hd_error drives
          end
      end
  end.

(** A member that is a string holds ASCII text. *)
Definition asciiText (v : option json) : bool :=
  match v with
  | Some (JStr s) => JS.isAscii s
  | _ => true
  end.

Definition asciiOpt (s : option string) : bool :=
  match s with Some t => JS.isAscii t | None => true end.

(** A drive as the code declares it: an object whose [id] is a non-empty
    string, whose [name] is a string or is missing, and whose [root] has an
    [id]. *)
Definition wellFormedDrive (d : json) : bool :=
  match prop "id" d with
  | Some (JStr s) => JS.truthy s
  | _ => false
  end &&
  match prop "name" d with
  | Some (JStr _) | None => true
  | Some _ => false
  end &&
  truthyOpt (match prop "root" d with
             | Some r => prop "id" r
             | None => None
             end).

(** The three searches of the selection, with what follows them passed in
    as [k]. *)
Definition selection {A : Type} (driveId driveName : option string)
    (d0 : json) (ds : list json) (k : json -> M A) : M A :=
  bind (if JS.isTruthy driveId
        then match findDrive "id" (driveHasId driveId) (d0 :: ds) with
             | inl e => throw e
             | inr x => ret x
             end
        else ret None)
    (fun byId =>
       bind (match byId with
             | Some d => ret (Some d)
             | None =>
                 if JS.isTruthy driveName
                 then match findDrive "name" (driveHasName driveName)
                              (d0 :: ds) with
                      | inl e => throw e
                      | inr x => ret x
                      end
                 else ret None
             end)
         (fun byName =>
            bind (match byName with
                  | Some d => ret d
                  | None =>
                      bind (match findDrive "name" driveIsPreferred
                                    (d0 :: ds) with
                            | inl e => throw e
                            | inr x => ret x
                            end)
                        (fun preferred =>
                           ret (match preferred with
                                | Some d => d
                                | None => d0
                                end))
                  end) k)).

(** What replacing the first occurrence of [pat] by [rep] means: the text
    is unchanged when [pat] does not occur, and otherwise the occurrence that
    no other starts before gives way to [rep]. *)
Inductive ReplacedFirst (pat rep : string) : string -> string -> Prop :=
  | RF_absent : forall s,
      JS.includes s pat = false -> ReplacedFirst pat rep s s
  | RF_leftmost : forall pre post,
      (forall k, (k < String.length pre)%nat ->
                 String.prefix pat (JS.slice k (pre ++ pat ++ post)) = false) ->
      ReplacedFirst pat rep (pre ++ pat ++ post) (pre ++ rep ++ post).

(** *** Registration *)

(** What a registered tool name is bound to. *)
Inductive Handler : Type :=
  | GraphToolHandler : Tool -> option EndpointConfig -> Handler
  | ListSharePointSiteFiles : Handler
  | DownloadFileToLocal : Handler.

(** The tools an [McpServer] holds, oldest first. *)
Definition Server := list (string * Handler).

(** [server.tool(name, ...)], which throws ([None]) when the name is taken. *)
Definition serverTool (name : string) (h : Handler) (srv : Server)
  : option Server :=
  if has name srv then None else Some (srv ++ [(name, h)])%list.

Record Counts := {
  registeredCount : nat;
  skippedCount : nat;
  failedCount : nat
}.

(** [try { server.tool(...); registeredCount++ } catch { failedCount++ }] *)
Definition tryRegister (name : string) (h : Handler) (acc : Server * Counts)
  : Server * Counts :=
  let '(srv, c) := acc in
  match serverTool name h srv with
  | Some srv' =>
      (srv', {| registeredCount := S (registeredCount c);
                skippedCount := skippedCount c;
                failedCount := failedCount c |})
  | None =>
      (srv, {| registeredCount := registeredCount c;
               skippedCount := skippedCount c;
               failedCount := S (failedCount c) |})
  end.

Definition skip (acc : Server * Counts) : Server * Counts :=
  let '(srv, c) := acc in
  (srv, {| registeredCount := registeredCount c;
           skippedCount := S (skippedCount c);
           failedCount := failedCount c |}).

Section Registration.

(** [api.endpoints] and the contents of [endpoints.json]; both are generated
    files, taken here as given. *)
Variable endpoints : list Tool.
Variable endpointsData : list EndpointConfig.

Definition findEndpointConfig (tool : Tool) : option EndpointConfig :=
  find (fun e => String.eqb (toolName e) (alias tool)) endpointsData.

Definition workAccountOnly (c : option EndpointConfig) : bool :=
  match c with
  | Some e =>
      match scopes e, workScopes e with
      | None, Some _ => true
      | _, _ => false
      end
  | None => false
  end.

(** One turn of the loop over [api.endpoints]. *)
Definition registerEndpoint (readOnly : bool)
    (enabledToolsRegex : option (string -> bool)) (orgMode : bool)
    (acc : Server * Counts) (tool : Tool) : Server * Counts :=
  let endpointConfig := findEndpointConfig tool in
  if negb orgMode && workAccountOnly endpointConfig then skip acc
  else if readOnly && negb (String.eqb (JS.toUpperCase (tool_method tool)) "GET")
  then skip acc
  else if match enabledToolsRegex with
          | Some test => negb (test (alias tool))
          | None => false
          end
  then skip acc
  else tryRegister (alias tool) (GraphToolHandler tool endpointConfig) acc.

(** [registerGraphTools(server, graphClient, readOnly, enabledToolsPattern,
    orgMode)].  [enabledToolsRegex] is the compiled pattern, [None] when no
    pattern is given or the pattern does not compile. *)
Definition registerGraphTools (server : Server) (readOnly : bool)
    (enabledToolsRegex : option (string -> bool)) (orgMode : bool)
  : Server * Counts :=
  let acc :=
    fold_left (registerEndpoint readOnly enabledToolsRegex orgMode) endpoints
      (server, {| registeredCount := 0; skippedCount := 0;
                  failedCount := 0 |}) in
  let acc := tryRegister "list-sharepoint-site-files" ListSharePointSiteFiles
               acc in
  tryRegister "download-file-to-local" DownloadFileToLocal acc.

(** [buildToolsRegistry(readOnly, orgMode)], the catalog behind the
    [search-tools] and [execute-tool] pair. *)
Definition buildToolsRegistry (readOnly orgMode : bool)
  : list (string * (Tool * option EndpointConfig)) :=
  fold_left
    (fun toolsMap tool =>
       let endpointConfig := findEndpointConfig tool in
       if negb orgMode && workAccountOnly endpointConfig then toolsMap
       else if readOnly &&
               negb (String.eqb (JS.toUpperCase (tool_method tool)) "GET")
       then toolsMap
       else set (alias tool) (tool, endpointConfig) toolsMap)
    endpoints [].

End Registration.

(** *** The download handler *)

Record DownloadEnv := {
  MS365_MCP_DOWNLOAD_DIR : option string;
  cwd : string
}.

Definition errorResult (message : string) : CallToolResult :=
  {| res_content := [JObj [("error", JStr message)]]; res_meta := None;
     res_isError := true |}.

(** The handler registered as [download-file-to-local].  It returns the
    result together with the file system and the world it leaves. *)
Definition downloadFileToLocal (env : DownloadEnv)
    (driveId driveItemId localPath : string) (overwrite : option bool)
    (fs : Fs.t) (w : World) : CallToolResult * Fs.t * World :=
  let overwrite := match overwrite with Some b => b | None => false end in
  let baseDir :=
    match JS.orElse (MS365_MCP_DOWNLOAD_DIR env) None with
    | Some d => d
    | None => NodePath.resolve (cwd env) [cwd env; "downloads"]
    end in
  let resolvedBase := NodePath.resolve (cwd env) [baseDir] in
  let targetPath := NodePath.resolve (cwd env) [resolvedBase; localPath] in
  let failed (m : string) :=
    errorResult ("Failed to download file to local path: " ++ m) in
  if negb (JS.startsWith targetPath resolvedBase) then
    (errorResult
       ("Invalid localPath: resolved path escapes download base directory (" ++
        resolvedBase ++ ")."), fs, w)
  else if negb overwrite && Fs.existsSync targetPath fs then
    (errorResult ("File already exists at " ++ targetPath ++
                  ". Set overwrite=true to replace it."), fs, w)
  else
    match Fs.mkdirSync (NodePath.dirname targetPath) fs with
    | inl e => (failed e, fs, w)
    | inr fs1 =>
        let endpoint :=
          "/drives/" ++ JS.encodeURIComponent driveId ++ "/items/" ++
          JS.encodeURIComponent driveItemId ++ "/content" in
        match downloadBinary endpoint (optionsOfMethod "GET") w with
        | (inl e, w') => (failed (message e), fs1, w')
        | (inr buffer, w') =>
            match Fs.writeFileSync targetPath buffer fs1 with
            | inl e => (failed e, fs1, w')
            | inr fs2 =>
                ({| res_content :=
                      [JObj [("success", JBool true);
                             ("savedAs", JStr targetPath);
                             ("size", JNum (Z.of_nat (String.length buffer)));
                             ("driveId", JStr driveId);
                             ("driveItemId", JStr driveItemId);
                             ("baseDir", JStr resolvedBase)]];
                    res_meta := None; res_isError := false |}, fs2, w')
            end
        end
    end.

(** The directory containment the path check is there for, on path
    segments: [target] lies within [base] when the segments of [base] are
    the leading segments of [target]. *)
Fixpoint leadingSegments (base target : list string) : bool :=
  match base, target with
  | [], _ => true
  | b :: base', x :: target' => String.eqb b x && leadingSegments base' target'
  | _ :: _, [] => false
  end.

Definition isWithin (base target : string) : bool :=
  leadingSegments (NodePath.normalizeSegments (JS.split "/" base) [])
                  (NodePath.normalizeSegments (JS.split "/" target) []).

Definition escapes (base target : string) : bool := negb (isWithin base target).

(** *** Predicates of the properties *)

(** Every character of [s] satisfies [p]. *)
Fixpoint every (p : ascii -> bool) (s : string) : bool :=
  match s with
  | EmptyString => true
  | String c s' => p c && every p s'
  end.

(** The characters [encodeURIComponent] produces. *)
Definition isEncoded (c : ascii) : bool :=
  JS.isUnreserved c || Ascii.eqb c "%".

(** A pair of the query string, as [withQueryString] writes it. *)
Definition encodedPair (kv : string * string) : string :=
  JS.encodeURIComponent (fst kv) ++ "=" ++ JS.encodeURIComponent (snd kv).

(** The three tests an endpoint of the catalog has to pass to be
    registered. *)
Definition passesGates (endpointsData : list EndpointConfig) (readOnly : bool)
    (enabledToolsRegex : option (string -> bool)) (orgMode : bool)
    (tool : Tool) : bool :=
  negb (negb orgMode && workAccountOnly (findEndpointConfig endpointsData tool)) &&
  negb (readOnly &&
        negb (String.eqb (JS.toUpperCase (tool_method tool)) "GET")) &&
  match enabledToolsRegex with
  | Some test => test (alias tool)
  | None => true
  end.

(** What [n] registration attempts do to the server and the counters:
    [added] is bound, in this order, and each attempt is counted once. *)
Definition Registered (n : nat) (acc acc' : Server * Counts)
    (added : Server) : Prop :=
  fst acc' = (fst acc ++ added)%list /\
  registeredCount (snd acc') = (registeredCount (snd acc) + length added)%nat /\
  (registeredCount (snd acc') + skippedCount (snd acc') + failedCount (snd acc') =
   registeredCount (snd acc) + skippedCount (snd acc) + failedCount (snd acc) + n)%nat.

(** The endpoint the download handler reads. *)
Definition contentEndpoint (driveId driveItemId : string) : string :=
  "/drives/" ++ JS.encodeURIComponent driveId ++ "/items/" ++
  JS.encodeURIComponent driveItemId ++ "/content".

(** [resolvedBase] and [targetPath] of the download handler. *)
Definition downloadBase (env : DownloadEnv) : string :=
  NodePath.resolve (cwd env)
    [match JS.orElse (MS365_MCP_DOWNLOAD_DIR env) None with
     | Some d => d
     | None => NodePath.resolve (cwd env) [cwd env; "downloads"]
     end].

Definition downloadTarget (env : DownloadEnv) (localPath : string) : string :=
  NodePath.resolve (cwd env) [downloadBase env; localPath].

(** *** Discovery mode *)

(** What [TOOL_CATEGORIES[category]] is, [TOOL_CATEGORIES] being the object
    imported from [./tool-categories.js]: nothing, a category with the test
    of its pattern, or a member without a pattern (such as the ones every
    object inherits). *)
Inductive CategoryLookup : Type :=
  | NoCategory : CategoryLookup
  | Category : (string -> bool) -> CategoryLookup
  | NotACategory : CategoryLookup.

Definition ToolsRegistry := list (string * (Tool * option EndpointConfig)).

(** The text a query is searched in. *)
Definition searchText (name : string) (tool : Tool)
    (config : option EndpointConfig) : string :=
  JS.toLowerCase
    (name ++ " " ++ path tool ++ " " ++
     match JS.orElse (description tool) None with
     | Some d => d
     | None => ""
     end ++ " " ++
     match config with
     | Some c => match JS.orElse (llmTip c) None with
                 | Some t => t
                 | None => ""
                 end
     | None => ""
     end).

(** One element of [results]. *)
Definition searchResult (name : string) (tool : Tool) : json :=
  JObj [("name", JStr name);
        ("method", JStr (JS.toUpperCase (tool_method tool)));
        ("path", JStr (path tool));
        ("description",
         JStr match JS.orElse (description tool) None with
              | Some d => d
              | None => JS.toUpperCase (tool_method tool) ++ " " ++ path tool
              end)].

(** The loop of the [search-tools] handler over the registry; [inl] is the
    [TypeError] of testing a pattern that is not there. *)
Fixpoint searchLoop (categoryDef : CategoryLookup) (queryLower : option string)
    (maxLimit : Z) (entries : ToolsRegistry) (results : list json)
  : Error + list json :=
  match entries with
  | [] => inr results
  | (name, (tool, config)) :: rest =>
      match categoryDef with
      | NotACategory =>
          inl (OtherError "Cannot read properties of undefined (reading 'test')")
      | _ =>
          if match categoryDef with
             | Category test => negb (test name)
             | _ => false
             end
          then searchLoop categoryDef queryLower maxLimit rest results
          else if match JS.orElse queryLower None with
                  | Some q => negb (JS.includes (searchText name tool config) q)
                  | None => false
                  end
          then searchLoop categoryDef queryLower maxLimit rest results
          else
            let results := (results ++ [searchResult name tool])%list in
            if Z.of_nat (length results) >=? maxLimit then inr results
            else searchLoop categoryDef queryLower maxLimit rest results
      end
  end.

(** The handler registered as [search-tools]. *)
Definition searchTools (TOOL_CATEGORIES : string -> CategoryLookup)
    (toolsRegistry : ToolsRegistry) (query category : option string)
    (limit : option Z) : Error + CallToolResult :=
  let limit := match limit with Some n => n | None => 20 end in
  let maxLimit := Z.min limit 50 in
  let queryLower := option_map JS.toLowerCase query in
  let categoryDef :=
    match JS.orElse category None with
    | Some c => TOOL_CATEGORIES c
    | None => NoCategory
    end in
  match searchLoop categoryDef queryLower maxLimit toolsRegistry [] with
  | inl e => inl e
  | inr results =>
      inr {| res_content :=
               [JObj [("found", JNum (Z.of_nat (length results)));
                      ("total", JNum (Z.of_nat (length toolsRegistry)));
                      ("tools", JArr results);
                      ("tip", JStr "Use execute-tool with the tool name and required parameters to call any of these tools.")]];
             res_meta := None; res_isError := false |}
  end.

(** The handler registered as [execute-tool]. *)
Definition executeTool (toolsRegistry : ToolsRegistry) (tool_name : string)
    (parameters : option object) : M CallToolResult :=
  match get tool_name toolsRegistry with
  | None =>
      ret {| res_content :=
               [JObj [("error", JStr ("Tool not found: " ++ tool_name));
                      ("tip", JStr "Use search-tools to find available tools.")]];
             res_meta := None; res_isError := true |}
  | Some (tool, config) =>
      executeGraphTool tool config
        (match parameters with Some p => p | None => [] end)
  end.

(** An entry of the registry that a search with the category pattern [test]
    and the query [query] lists. *)
Definition listed (test : option (string -> bool)) (query : option string)
    (entry : string * (Tool * option EndpointConfig)) : bool :=
  match test with
  | Some t => t (fst entry)
  | None => true
  end &&
  match JS.orElse (option_map JS.toLowerCase query) None with
  | Some q =>
      JS.includes (searchText (fst entry) (fst (snd entry)) (snd (snd entry))) q
  | None => true
  end.

End GraphTools.

(** ** Sample worlds and inputs *)

Module Samples.
Import Json GraphClient GraphTools.

(** A response with status 200 whose body is the JSON document [j]; [t] is
    the body text. *)
Definition okJson (t : string) (j : json) (hs : list (string * string))
  : Response :=
  {| status := 200; statusText := "OK"; text := t; parsed := Some j;
     headers := hs |}.

Definition okBytes (t : string) : Response :=
  {| status := 200; statusText := "OK"; text := t; parsed := None;
     headers := [] |}.

Definition unauthorized : Response :=
  {| status := 401; statusText := "Unauthorized"; text := "expired";
     parsed := None; headers := [] |}.

(** A client holding the access token [tok] and the refresh token [rt], in a
    process with the client secret [secret], talking to the services [g] and
    [te]. *)
Definition world (tok : string) (rt secret : option string)
    (g : nat -> HttpRequest -> option Response)
    (te : nat -> RefreshCall -> string + TokenResponse) : World :=
  {| accessToken := Some tok; refreshToken := rt;
     env_tenantId := None; env_clientId := None; env_clientSecret := secret;
     authManager_getToken := inr None;
     graph := g; tokenEndpoint := te; sent := []; refreshCalls := [] |}.

Definition noTokens : nat -> RefreshCall -> string + TokenResponse :=
  fun _ _ => inl "invalid_grant".

(** A service that answers the n-th request with the n-th response of a
    script and lets [fetch] fail after that. *)
Definition scripted (rs : list Response) : nat -> HttpRequest -> option Response :=
  fun n _ => nth_error rs n.

Definition tool (method path : string) (ps : list ParameterDefinition)
    (errs : list string) : Tool :=
  {| alias := "sample-tool"; tool_method := method; path := path;
     parameters := ps; errors := errs; description := None |}.

Definition param (n : string) (t : ParamType) : ParameterDefinition :=
  {| name := n; type := t; schema := None |}.

Definition page1 : json :=
  JObj [("@odata.context", JStr "https://graph.microsoft.com/v1.0/$metadata");
        ("@odata.count", JNum 9);
        ("value", JArr [JObj [("id", JStr "m1")]; JObj [("id", JStr "m2")]]);
        ("@odata.nextLink",
         JStr "https://graph.microsoft.com/v1.0/me/messages?$skip=2")].

Definition page2 : json :=
  JObj [("value", JArr [JObj [("id", JStr "m3")]; JObj [("id", JStr "m4")]])].

Definition twoPages : nat -> HttpRequest -> option Response :=
  scripted [okJson "page 1" page1 []; okJson "page 2" page2 []].

(** A service that answers by URL, as Graph does: the first page at the
    collection itself, the second at the cursor of the first. *)
Definition pagedByUrl : nat -> HttpRequest -> option Response :=
  fun _ req =>
    if String.eqb (url req) "https://graph.microsoft.com/v1.0/me/messages"
    then Some (okJson "page 1" page1 [])
    else if String.eqb (url req)
              "https://graph.microsoft.com/v1.0/me/messages?$skip=2"
    then Some (okJson "page 2" page2 [])
    else None.

(** A catalog endpoint served in raw mode. *)
Definition rawTool : Tool :=
  tool "get" "/me/messages" [] ["Retrieved media content"].

Definition listMessages : Tool := tool "get" "/me/messages" [] [].

Definition plainWorld (g : nat -> HttpRequest -> option Response) : World :=
  world "tok" None None g noTokens.

Definition downloadEnv : DownloadEnv :=
  {| MS365_MCP_DOWNLOAD_DIR := Some "/srv/downloads"; cwd := "/srv/app" |}.

Definition message1 : Response :=
  okJson "message 1" (JObj [("id", JStr "m1"); ("subject", JStr "Hello")])
    [("ETag", "W/1")].

(** A client whose access token has expired and that holds a refresh token,
    in a process without the client secret. *)
Definition expiredNoSecret : World :=
  world "old" (Some "refresh-1") None
    (scripted [unauthorized; message1])
    (fun _ _ => inr {| access_token := "new"; refresh_token := None |}).

Definition expiredWithSecret : World :=
  world "old" (Some "refresh-1") (Some "secret")
    (scripted [unauthorized; message1])
    (fun _ _ => inr {| access_token := "new";
                       refresh_token := Some "refresh-2" |}).


Definition fileItem (id nm : string) : json :=
  JObj [("id", JStr id); ("name", JStr nm); ("file", JObj [])].

Definition listing (items : list json) : Response :=
  okJson "listing" (JObj [("value", JArr items)]) [].


Definition listOptions (s : Structure) (folders : option bool)
    (depth : option Z) (f : option string) : ListSharePointSiteFilesOptions :=
  {| o_siteId := "site-1"; o_driveId := None; o_driveName := None;
     structure := s; includeFolders := folders; maxDepth := depth;
     filter := f; pageSize := None |}.

(** The response of a computation that returned one. *)
Definition responseOf (r : (Error + McpResponse) * World) : McpResponse :=
  match fst r with
  | inr x => x
  | inl _ => {| content := []; _meta := None; isError := true;
                structuredContent := None |}
  end.

(** The content of a result, when there is one. *)
Definition contentOf (r : Error + CallToolResult) : option (list json) :=
  match r with
  | inr x => Some (res_content x)
  | inl _ => None
  end.

(** A catalog of three endpoints: one for every account, one that changes
    data, one for work accounts only. *)
Definition namedTool (n method path : string) : Tool :=
  {| alias := n; tool_method := method; path := path;
     parameters := []; errors := []; description := None |}.

Definition configOf (n : string) (personal work : option (list string))
  : EndpointConfig :=
  {| toolName := n; scopes := personal; workScopes := work;
     returnDownloadUrl := false; supportsTimezone := false; llmTip := None |}.

Definition catalog : list Tool :=
  [namedTool "list-mail-messages" "get" "/me/messages";
   namedTool "send-mail" "post" "/me/sendMail";
   namedTool "list-chats" "get" "/chats"].

Definition catalogData : list EndpointConfig :=
  [configOf "list-mail-messages" (Some ["Mail.Read"]) None;
   configOf "send-mail" (Some ["Mail.Send"]) None;
   configOf "list-chats" None (Some ["Chat.Read"])].

(** The categories of a server that knows [mail] alone. *)
Definition mailOnly (c : string) : CategoryLookup :=
  if String.eqb c "mail" then Category (fun n => JS.includes n "mail")
  else NotACategory.

(** A site with two libraries, neither under a preferred name. *)
Definition library (id nm rootId : string) : json :=
  JObj [("id", JStr id); ("name", JStr nm);
        ("root", JObj [("id", JStr rootId)])].

Definition twoLibraries : nat -> HttpRequest -> option Response :=
  fun _ req =>
    if String.eqb (url req) "https://graph.microsoft.com/v1.0/sites/site-1/drives"
    then Some (listing [library "b!Archive" "Archive" "root-a";
                        library "b!Plans" "Plans" "root-p"])
    else None.


Definition documents : SharePointDriveInfo :=
  {| di_driveId := JStr "drive-1"; di_driveName := JStr "Documents";
     di_rootItemId := JStr "root" |}.


(** A site whose library holds two files, listed on two pages. *)
Definition pagedSite : nat -> HttpRequest -> option Response :=
  fun _ req =>
    let at_ (p : string) :=
      String.eqb (url req) ("https://graph.microsoft.com/v1.0" ++ p) in
    if at_ "/sites/site-1/drives" then
      Some (listing [JObj [("id", JStr "drive-1"); ("name", JStr "Documents");
                           ("root", JObj [("id", JStr "root")])]])
    else if at_ "/drives/drive-1/items/root/children" then
      Some (okJson "page 1"
              (JObj [("value", JArr [fileItem "a" "a.pdf"]);
                     ("@odata.nextLink",
                      JStr "https://graph.microsoft.com/v1.0/drives/drive-1/items/root/children?$skiptoken=2")])
              [])
    else if at_ "/drives/drive-1/items/root/children?$skiptoken=2" then
      Some (listing [fileItem "b" "b.txt"])
    else None.

Definition pagedLibrary : list Stored :=
  [Held (fileItem "a" "a.pdf") []; Held (fileItem "b" "b.txt") []].

(** A download directory that holds one file. *)
Definition oneFile : Fs.t :=
  [("/srv", Fs.Dir); ("/srv/downloads", Fs.Dir);
   ("/srv/downloads/a.txt", Fs.File "OLD")].

End Samples.

(** * Properties *)

Import Json GraphClient GraphTools Samples.
Unset Implicit Arguments.
Local Open Scope client_scope.

(** ** The download handler and the base directory *)

(** When the prefix test of the handler fails, the call is an error and
    neither the file system nor the world changes. *)
Lemma download_rejected_without_write env driveId driveItemId localPath
    overwrite fs w :
  let base := NodePath.resolve (cwd env)
                [match JS.orElse (MS365_MCP_DOWNLOAD_DIR env) None with
                 | Some d => d
                 | None => NodePath.resolve (cwd env) [cwd env; "downloads"]
                 end] in
  JS.startsWith (NodePath.resolve (cwd env) [base; localPath]) base = false ->
  let r := downloadFileToLocal env driveId driveItemId localPath overwrite fs w in
  res_isError (fst (fst r)) = true /\ snd (fst r) = fs /\ snd r = w.
Proof.
  intros base H r. subst r base. unfold downloadFileToLocal.
  rewrite H. simpl. auto.
Qed.

(** With the default base directory the path [../../etc/passwd] fails the
    prefix test, whatever [overwrite] is. *)
Lemma download_etc_passwd_rejected overwrite fs w :
  let r := downloadFileToLocal
             {| MS365_MCP_DOWNLOAD_DIR := None; cwd := "/home/mcp/server" |}
             "d" "i" "../../etc/passwd" overwrite fs w in
  res_isError (fst (fst r)) = true /\ snd (fst r) = fs /\ snd r = w.
Proof.
  apply download_rejected_without_write. vm_compute. reflexivity.
Qed.

(** C1 (violated by the code).  With the base directory [/srv/downloads],
    the path [../downloads-evil/x] resolves to [/srv/downloads-evil/x],
    which lies outside the base directory but has the base directory's name
    as a string prefix: whatever [overwrite] is, the handler creates the
    directory, writes the file and reports success. *)
Theorem download_writes_outside_base_directory (overwrite : option bool) :
  let r := downloadFileToLocal downloadEnv "d" "i" "../downloads-evil/x"
             overwrite [] (plainWorld (scripted [okBytes "DATA"])) in
  escapes "/srv/downloads" "/srv/downloads-evil/x" = true /\
  res_isError (fst (fst r)) = false /\
  prop "savedAs" (hd JNull (res_content (fst (fst r)))) =
    Some (JStr "/srv/downloads-evil/x") /\
  snd (fst r) =
    [("/srv", Fs.Dir); ("/srv/downloads-evil", Fs.Dir);
     ("/srv/downloads-evil/x", Fs.File "DATA")].
Proof.
  destruct overwrite as [[|]|]; vm_compute; repeat split; reflexivity.
Qed.

(** The same slip lets [../../etc/passwd] itself through when the base
    directory is [/e]. *)
Lemma download_etc_passwd_accepted (overwrite : option bool) :
  let r := downloadFileToLocal
             {| MS365_MCP_DOWNLOAD_DIR := Some "/e"; cwd := "/srv/app" |}
             "d" "i" "../../etc/passwd" overwrite []
             (plainWorld (scripted [okBytes "root"])) in
  escapes "/e" "/etc/passwd" = true /\
  res_isError (fst (fst r)) = false /\
  Fs.lookup "/etc/passwd" (snd (fst r)) = Some (Fs.File "root").
Proof.
  destruct overwrite as [[|]|]; vm_compute; repeat split; reflexivity.
Qed.

(** ** Follow-up requests of page aggregation *)

(** [performRequest] builds the URL from the endpoint alone: the
    [queryParams] of the options reach no request. *)
Lemma graphRequest_ignores_queryParams endpoint q options w :
  graphRequest endpoint (withQueryParams q options) w =
  graphRequest endpoint options w.
Proof. reflexivity. Qed.

Lemma performRequest_url endpoint token options w :
  map url (sent (snd (performRequest endpoint token options w))) =
  (map url (sent w) ++
   [("https://graph.microsoft.com/v1.0" ++ endpoint)%string])%list.
Proof.
  unfold performRequest, fetch.
  destruct (graph w _ _); simpl; rewrite map_app; reflexivity.
Qed.

(** C3 (violated by the code).  The first page names the cursor
    [https://graph.microsoft.com/v1.0/me/messages?$skip=2]; the request made
    for the second page goes to the cursor's path with no query string at
    all. *)
Theorem follow_up_request_drops_cursor_query :
  let r := executeGraphTool rawTool None [("fetchAllPages", JBool true)]
             (plainWorld twoPages) in
  prop "@odata.nextLink" page1 =
    Some (JStr "https://graph.microsoft.com/v1.0/me/messages?$skip=2") /\
  map url (sent (snd r)) =
    ["https://graph.microsoft.com/v1.0/me/messages";
     "https://graph.microsoft.com/v1.0/me/messages"].
Proof. vm_compute. split; reflexivity. Qed.

(** Against a service that answers by URL the loss is plain: every
    follow-up request fetches the first page again, until the ceiling of 100
    pages ends the loop with 200 items, all of them copies of the first
    two. *)
Lemma lost_cursor_refetches_first_page :
  let r := executeGraphTool rawTool None [("fetchAllPages", JBool true)]
             (plainWorld pagedByUrl) in
  length (sent (snd r)) = 100%nat /\
  forallb (fun req =>
             String.eqb (url req) "https://graph.microsoft.com/v1.0/me/messages")
          (sent (snd r)) = true /\
  match contentOf (fst r) with
  | Some [c] =>
      match prop "value" c with
      | Some (JArr items) =>
          length items = 200%nat /\
          forallb (fun i => match prop "id" i with
                            | Some (JStr id) =>
                                String.eqb id "m1" || String.eqb id "m2"
                            | _ => false
                            end) items = true
      | _ => False
      end
  | _ => False
  end.
Proof. vm_compute. repeat split; reflexivity. Qed.

(** The child listing of the file collector keeps the query of its cursor:
    the second request is the cursor itself. *)
Lemma listDriveItemChildren_keeps_cursor_query :
  let cursor :=
    "https://graph.microsoft.com/v1.0/drives/d/items/i/children?$skiptoken=s" in
  let r := listDriveItemChildren 5 (JStr "d") (Some (JStr "i")) None
             (plainWorld (scripted
                [okJson "1" (JObj [("value", JArr [JNum 1]);
                                   ("@odata.nextLink", JStr cursor)]) [];
                 okJson "2" (JObj [("value", JArr [JNum 2])]) []])) in
  fst r = inr [JNum 1; JNum 2] /\
  map url (sent (snd r)) =
    ["https://graph.microsoft.com/v1.0/drives/d/items/i/children"; cursor].
Proof. vm_compute. split; reflexivity. Qed.

(** ** Page aggregation *)

(** In raw mode the first page keeps its cursor and the loop does gather
    the pages: the items add up, the count is rewritten to their number and
    the cursor is dropped from the result. *)
Lemma raw_mode_aggregates_pages :
  contentOf
    (fst (executeGraphTool rawTool None [("fetchAllPages", JBool true)]
            (plainWorld twoPages))) =
  Some [JObj [("@odata.context",
               JStr "https://graph.microsoft.com/v1.0/$metadata");
              ("@odata.count", JNum 4);
              ("value", JArr [JObj [("id", JStr "m1")]; JObj [("id", JStr "m2")];
                              JObj [("id", JStr "m3")]; JObj [("id", JStr "m4")]])]].
Proof. vm_compute. reflexivity. Qed.

(** The default response mode leaves no [@odata.] member at the top of a
    result, the cursor included. *)
Lemma removeODataProps_top k fields :
  JS.startsWith k "@odata." = true ->
  prop k (removeODataProps (JObj fields)) = None.
Proof.
  intros Hk. cbn [removeODataProps prop].
  induction fields as [|[k0 x] fields IH]; [reflexivity|].
  destruct (JS.startsWith k0 "@odata.") eqn:E; [exact IH|].
  cbn [get]. destruct (String.eqb_spec k k0) as [->|_]; [congruence | exact IH].
Qed.

Lemma formatJsonResponse_default_no_cursor data exclude c :
  In c (content (formatJsonResponse data false exclude)) ->
  prop "@odata.nextLink" c = None.
Proof.
  assert (Hstrip : forall d,
            prop "@odata.nextLink" (removeODataProps (makeStructured d)) = None).
  { intros d. destruct d; cbn [makeStructured];
      apply removeODataProps_top; reflexivity. }
  unfold formatJsonResponse. destruct exclude.
  { intros [<- | []]. reflexivity. }
  destruct data as [| b | n | t | xs | fields];
    try (intros [<- | []]; first [reflexivity | apply (Hstrip (JBool b))
                                 | apply (Hstrip (JNum n))
                                 | apply (Hstrip (JStr t))
                                 | apply (Hstrip (JArr xs))]).
  destruct (has "_headers" fields).
  - destruct (get "data" fields) as [[]|];
      intros [<- | []]; first [reflexivity | apply Hstrip].
  - intros [<- | []]. apply removeODataProps_top. reflexivity.
Qed.

(** So in the default mode the aggregation loop never runs: a call with
    [fetchAllPages] sends exactly the requests the same call sends without
    it (a call whose request cannot be built sends none). *)
Lemma default_mode_never_follows_cursor tool config params w :
  buildRequestThrows tool config params = false ->
  rawResponse (snd (buildRequest tool config params)) = false ->
  sent (snd (executeGraphTool tool config params w)) =
  sent (snd (graphRequest (fst (buildRequest tool config params))
               (snd (buildRequest tool config params)) w)).
Proof.
  intros Hthrows Hraw. unfold executeGraphTool, tryCatch. rewrite Hthrows.
  destruct (buildRequest tool config params) as [path options].
  cbn [fst snd] in *. unfold bind at 1.
  assert (Hcontent :
    forall c, In c (content (responseOf (graphRequest path options w))) ->
              prop "@odata.nextLink" c = None).
  { unfold graphRequest, tryCatch, bind, responseOf.
    destruct (makeRequest path options w) as [[e | result] w1]; cbn.
    - intros c [<- | []]. reflexivity.
    - rewrite Hraw. apply formatJsonResponse_default_no_cursor. }
  assert (Hok : exists response w1,
             graphRequest path options w = (inr response, w1)).
  { unfold graphRequest, tryCatch, bind.
    destruct (makeRequest path options w) as [[e | result] w1];
      eexists; eexists; reflexivity. }
  destruct Hok as (response & w1 & Hrun). rewrite Hrun in *.
  cbn [responseOf fst snd] in *.
  destruct (isTrue (get "fetchAllPages" params)); [| reflexivity].
  unfold bind at 1. unfold aggregatePages.
  destruct (content response) as [|c rest]; [reflexivity|].
  specialize (Hcontent c (or_introl eq_refl)).
  destruct c as [| | | | |fields]; try reflexivity.
  cbn [prop] in Hcontent. rewrite Hcontent. reflexivity.
Qed.

(** C4 (violated by the code).  Two pages of two items each are on offer and
    aggregation is requested, but in the default response mode the first
    page reaches the aggregation loop with its cursor and count already
    stripped: one request is made and the result holds two items, not
    four.  Without the request the single page comes back the same way,
    its cursor gone. *)
Theorem fetchAllPages_default_mode_stops_at_first_page :
  let r := executeGraphTool listMessages None [("fetchAllPages", JBool true)]
             (plainWorld twoPages) in
  let r' := executeGraphTool listMessages None [] (plainWorld twoPages) in
  let firstTwo :=
    JObj [("value", JArr [JObj [("id", JStr "m1")]; JObj [("id", JStr "m2")]])] in
  contentOf (fst r) = Some [firstTwo] /\
  length (sent (snd r)) = 1%nat /\
  contentOf (fst r') = Some [firstTwo].
Proof. vm_compute. repeat split; reflexivity. Qed.

(** ** Header capture *)

(** [formatJsonResponse] attaches metadata only to data that carries a
    [_headers] key, which [makeRequest] never adds. *)
Lemma formatJsonResponse_no_meta fields raw exclude :
  has "_headers" fields = false ->
  _meta (formatJsonResponse (JObj fields) raw exclude) = None.
Proof.
  intros H. unfold formatJsonResponse. rewrite H.
  destruct exclude, raw; reflexivity.
Qed.

(** C7 (violated by the code).  The tool parameter is described as
    [Include response headers (including ETag) in the response metadata],
    and [formatJsonResponse] builds the metadata of a result from the
    members [_etag] and [_headers] of the data; [makeRequest] never writes
    [_headers].  A message is fetched with and without header capture.  With
    it, nothing is attached to the side channel of the result, and the
    entity tag is written into the body as a new member [_etag], so that the
    body differs from the one returned without header capture. *)
Theorem includeHeaders_alters_body_and_sets_no_meta :
  let call params :=
    fst (executeGraphTool listMessages None params
           (plainWorld (scripted [message1]))) in
  call [] =
    inr {| res_content := [JObj [("id", JStr "m1"); ("subject", JStr "Hello")]];
           res_meta := None; res_isError := false |} /\
  call [("includeHeaders", JBool true)] =
    inr {| res_content := [JObj [("id", JStr "m1"); ("subject", JStr "Hello");
                                 ("_etag", JStr "W/1")]];
           res_meta := None; res_isError := false |}.
Proof. vm_compute. split; reflexivity. Qed.

Lemma removeODataFields_cons k x rest :
  removeODataFields ((k, x) :: rest) =
  if JS.startsWith k "@odata." then removeODataFields rest
  else (k, removeODataProps x) :: removeODataFields rest.
Proof.
  unfold removeODataFields. cbn [removeODataProps].
  destruct (JS.startsWith k "@odata."); reflexivity.
Qed.

(** Stripping the vendor members and writing [_etag] commute. *)
Lemma removeODataFields_set_etag t fields :
  removeODataFields (set "_etag" (JStr t) fields) =
  set "_etag" (JStr t) (removeODataFields fields).
Proof.
  induction fields as [|[k x] rest IH]; [reflexivity|].
  cbn [set]. destruct (String.eqb_spec "_etag" k) as [<- | Hk].
  - rewrite !removeODataFields_cons. reflexivity.
  - rewrite !removeODataFields_cons, IH.
    destruct (JS.startsWith k "@odata."); [reflexivity|].
    cbn [set]. destruct (String.eqb_spec "_etag" k); [contradiction |].
    reflexivity.
Qed.

Lemma has_set_other {A : Type} (k k' : string) (v : A) (o : list (string * A)) :
  k <> k' -> has k (set k' v o) = has k o.
Proof.
  intros Hk. unfold has. induction o as [|[k0 v0] o IH]; cbn [set get].
  - destruct (String.eqb_spec k k'); [contradiction | reflexivity].
  - destruct (String.eqb_spec k' k0) as [<- | Hk0]; cbn [get].
    + destruct (String.eqb_spec k k'); [contradiction | reflexivity].
    + destruct (String.eqb k k0); [reflexivity | exact IH].
Qed.

(** What header capture does, for every call.  Take a call whose HTTP
    exchange ends with the response [r], whose decoded body is an object
    (without a member [_headers]) and whose body is not excluded from the
    result.  Without header capture the result carries the body (stripped of
    vendor members in the default mode) and no side-channel metadata.  With
    header capture the result is the same, in the same world, but for one
    member written into the body: [_etag], holding the entity tag of [r] or
    the text [no-etag-found]; the side-channel metadata stays empty. *)
Lemma includeHeaders_adds_etag_to_body
    (endpoint : string) (options : GraphRequestOptions) (w : World)
    (r : Response) (w' : World) (fields : list (string * json)) :
  requestWithRefresh endpoint options w = (inr r, w') ->
  decodeBody r = JObj fields ->
  has "_headers" fields = false ->
  excludeResponse options = false ->
  let body := if rawResponse options then fields
              else removeODataFields fields in
  let body' := set "_etag" (JStr (etagOf r)) body in
  graphRequest endpoint (withIncludeHeaders false options) w =
    (inr {| content := [JObj body]; _meta := None; isError := false;
            structuredContent := Some (JObj body) |}, w') /\
  graphRequest endpoint (withIncludeHeaders true options) w =
    (inr {| content := [JObj body']; _meta := None; isError := false;
            structuredContent := Some (JObj body') |}, w').
Proof.
  intros Hrun Hbody Hheaders Hexclude body body'.
  unfold graphRequest, tryCatch, bind, makeRequest, bind.
  change (requestWithRefresh endpoint (withIncludeHeaders false options))
    with (requestWithRefresh endpoint options).
  change (requestWithRefresh endpoint (withIncludeHeaders true options))
    with (requestWithRefresh endpoint options).
  rewrite Hrun, Hbody.
  cbn [includeHeaders rawResponse excludeResponse withIncludeHeaders ret].
  rewrite Hexclude. unfold formatJsonResponse.
  rewrite (has_set_other "_headers" "_etag") by discriminate.
  rewrite Hheaders. subst body' body.
  destruct (rawResponse options); [split; reflexivity |].
  change (removeODataProps (JObj fields)) with (JObj (removeODataFields fields)).
  change (removeODataProps (JObj (set "_etag" (JStr (etagOf r)) fields)))
    with (JObj (removeODataFields (set "_etag" (JStr (etagOf r)) fields))).
  rewrite removeODataFields_set_etag. split; reflexivity.
Qed.

Lemma includeHeaders_adds_etag_to_body_sample :
  let options := optionsOfMethod "GET" in
  let w := plainWorld (scripted [message1]) in
  let w' := afterRequest (requestFor "/me/messages/m1" "tok" options) w in
  requestWithRefresh "/me/messages/m1" options w = (inr message1, w') /\
  graphRequest "/me/messages/m1" (withIncludeHeaders true options) w =
    (inr {| content := [JObj [("id", JStr "m1"); ("subject", JStr "Hello");
                              ("_etag", JStr "W/1")]];
            _meta := None; isError := false;
            structuredContent :=
              Some (JObj [("id", JStr "m1"); ("subject", JStr "Hello");
                          ("_etag", JStr "W/1")]) |}, w').
Proof.
  intros options w w'.
  assert (H1 : requestWithRefresh "/me/messages/m1" options w =
               (inr message1, w')) by reflexivity.
  split; [exact H1 |].
  exact (proj2 (includeHeaders_adds_etag_to_body "/me/messages/m1" options w
                  message1 w'
                  [("id", JStr "m1"); ("subject", JStr "Hello")]
                  H1 eq_refl eq_refl eq_refl)).
Defined.

(** A body that is not an object, and the error of a failed exchange, come
    back the same with header capture as without. *)
Lemma includeHeaders_leaves_other_results endpoint options w :
  match requestWithRefresh endpoint options w with
  | (inr r, _) => match decodeBody r with JObj _ => False | _ => True end
  | (inl _, _) => True
  end ->
  graphRequest endpoint (withIncludeHeaders true options) w =
  graphRequest endpoint (withIncludeHeaders false options) w.
Proof.
  unfold graphRequest, tryCatch, bind, makeRequest, bind.
  change (requestWithRefresh endpoint (withIncludeHeaders false options))
    with (requestWithRefresh endpoint options).
  change (requestWithRefresh endpoint (withIncludeHeaders true options))
    with (requestWithRefresh endpoint options).
  destruct (requestWithRefresh endpoint options w) as [[e | r] w1];
    [reflexivity |].
  cbn [includeHeaders withIncludeHeaders].
  destruct (decodeBody r); intros H; first [contradiction | reflexivity].
Qed.

(** ** Registration *)

Section RegistrationFacts.

Variable endpoints : list Tool.
Variable endpointsData : list EndpointConfig.

Lemma has_app_other {A : Type} (k k' : string) (v : A) (o : list (string * A)) :
  k <> k' -> has k (o ++ [(k', v)]) = has k o.
Proof.
  intros Hk. unfold has. induction o as [|[k0 v0] o IH]; simpl.
  - destruct (String.eqb_spec k k'); [contradiction | reflexivity].
  - destruct (String.eqb k k0); [reflexivity | exact IH].
Qed.

Lemma get_app_new {A : Type} (k : string) (v : A) (o : list (string * A)) :
  has k o = false -> get k (o ++ [(k, v)]) = Some v.
Proof.
  unfold has. induction o as [|[k0 v0] o IH]; simpl; intros H.
  - rewrite String.eqb_refl. reflexivity.
  - destruct (String.eqb k k0); [discriminate | auto].
Qed.

Lemma tryRegister_other name name' h acc :
  name <> name' ->
  has name (fst (tryRegister name' h acc)) = has name (fst acc).
Proof.
  intros Hn. destruct acc as [srv c]. unfold tryRegister, serverTool.
  destruct (has name' srv); simpl; [reflexivity | now apply has_app_other].
Qed.

Lemma skip_server acc : fst (skip acc) = fst acc.
Proof. destruct acc; reflexivity. Qed.

Lemma registerEndpoint_other name readOnly regex orgMode acc tool :
  alias tool <> name ->
  has name (fst (registerEndpoint endpointsData readOnly regex orgMode acc tool))
  = has name (fst acc).
Proof.
  intros Hn. unfold registerEndpoint.
  repeat match goal with
         | |- context [if ?c then _ else _] => destruct c
         end;
    rewrite ?skip_server; try reflexivity.
  apply tryRegister_other. congruence.
Qed.

Lemma registerEndpoints_other name readOnly regex orgMode tools acc :
  (forall t, In t tools -> alias t <> name) ->
  has name
    (fst (fold_left (registerEndpoint endpointsData readOnly regex orgMode)
            tools acc)) = has name (fst acc).
Proof.
  revert acc. induction tools as [|t tools IH]; intros acc Hall; simpl.
  - reflexivity.
  - rewrite IH by (intros; apply Hall; now right).
    apply registerEndpoint_other, Hall. now left.
Qed.

(** Read-only mode keeps every catalog endpoint that is not a GET out of the
    server. *)
Lemma registerEndpoints_readOnly regex orgMode tools acc name tool cfg :
  In (name, GraphToolHandler tool cfg)
    (fst (fold_left (registerEndpoint endpointsData true regex orgMode)
            tools acc)) ->
  In (name, GraphToolHandler tool cfg) (fst acc) \/
  JS.toUpperCase (tool_method tool) = "GET".
Proof.
  revert acc. induction tools as [|t tools IH]; intros acc Hin; simpl in *.
  - now left.
  - apply IH in Hin. destruct Hin as [Hin | Hget]; [| now right].
    unfold registerEndpoint in Hin. simpl in Hin.
    destruct (negb orgMode && _) in Hin; [rewrite skip_server in Hin; now left|].
    destruct (String.eqb_spec (JS.toUpperCase (tool_method t)) "GET") as [E|E];
      simpl in Hin; [| rewrite skip_server in Hin; now left].
    destruct (match regex with Some _ => _ | None => _ end) in Hin;
      [rewrite skip_server in Hin; now left|].
    destruct acc as [srv c]. unfold tryRegister, serverTool in Hin.
    destruct (has (alias t) srv); simpl in Hin; [now left|].
    apply in_app_or in Hin. destruct Hin as [Hin | [Heq | []]]; [now left|].
    inversion Heq; subst. now right.
Qed.

(** C10.  Whatever the read-only flag, the name pattern and the
    organisation mode are, [registerGraphTools] leaves
    [download-file-to-local] bound to the download handler, provided the name
    is not already taken in the server or by a catalog endpoint; and in
    read-only mode the catalog endpoints it registers are GET endpoints only.
    The exclusion of mutating operations therefore touches catalog endpoints
    and not the download tool. *)
Theorem download_tool_registered_in_every_mode
    (server : Server) (readOnly : bool) (regex : option (string -> bool))
    (orgMode : bool) :
  has "download-file-to-local" server = false ->
  (forall t, In t endpoints -> alias t <> "download-file-to-local") ->
  get "download-file-to-local"
    (fst (registerGraphTools endpoints endpointsData server readOnly regex
            orgMode)) = Some DownloadFileToLocal /\
  (forall name tool cfg,
     In (name, GraphToolHandler tool cfg)
       (fst (registerGraphTools endpoints endpointsData server true regex
               orgMode)) ->
     In (name, GraphToolHandler tool cfg) server \/
     JS.toUpperCase (tool_method tool) = "GET").
Proof.
  intros Hfree Hcat. split.
  - unfold registerGraphTools.
    set (acc1 := fold_left _ endpoints _).
    set (acc2 := tryRegister "list-sharepoint-site-files" _ acc1).
    assert (H2 : has "download-file-to-local" (fst acc2) = false).
    { subst acc2. rewrite tryRegister_other by discriminate.
      subst acc1. rewrite registerEndpoints_other by exact Hcat. exact Hfree. }
    destruct acc2 as [srv c]. simpl in H2.
    unfold tryRegister, serverTool. rewrite H2. simpl.
    now apply get_app_new.
  - intros name tool cfg Hin. unfold registerGraphTools in Hin.
    set (acc1 := fold_left _ endpoints _) in Hin.
    assert (Hstep : forall n h acc,
               In (name, GraphToolHandler tool cfg) (fst (tryRegister n h acc)) ->
               (forall t c, h <> GraphToolHandler t c) ->
               In (name, GraphToolHandler tool cfg) (fst acc)).
    { intros n h [srv c] Hi Hh. unfold tryRegister, serverTool in Hi.
      destruct (has n srv); simpl in Hi; [exact Hi|].
      apply in_app_or in Hi. destruct Hi as [Hi | [Heq | []]]; [exact Hi|].
      injection Heq as Hn Hh'. exfalso. eapply Hh. exact Hh'. }
    apply Hstep in Hin; [| intros; discriminate].
    apply Hstep in Hin; [| intros; discriminate].
    subst acc1. apply registerEndpoints_readOnly in Hin. exact Hin.
Qed.

End RegistrationFacts.

Lemma download_tool_registered_in_read_only_mode :
  has "download-file-to-local" ([] : Server) = false /\
  (forall t, In t [tool "get" "/me" [] []; tool "post" "/me/sendMail" [] []] ->
             alias t <> "download-file-to-local") /\
  get "download-file-to-local"
    (fst (registerGraphTools
            [tool "get" "/me" [] []; tool "post" "/me/sendMail" [] []]
            [] [] true None false)) = Some DownloadFileToLocal.
Proof.
  assert (H1 : has "download-file-to-local" ([] : Server) = false)
    by reflexivity.
  assert (H2 : forall t,
             In t [tool "get" "/me" [] []; tool "post" "/me/sendMail" [] []] ->
             alias t <> "download-file-to-local")
    by (intros t [<- | [<- | []]]; discriminate).
  split; [exact H1 |]. split; [exact H2 |].
  exact (proj1 (@download_tool_registered_in_every_mode
                  [tool "get" "/me" [] []; tool "post" "/me/sendMail" [] []]
                  [] [] true None false H1 H2)).
Defined.

(** ** Parameter binding *)

Lemma prefix_slice pat s :
  String.prefix pat s = true -> s = pat ++ JS.slice (String.length pat) s.
Proof.
  revert s. induction pat as [|c pat IH]; intros s H.
  - reflexivity.
  - destruct s as [|c' s]; simpl in *; [discriminate|].
    destruct (Ascii.ascii_dec c c') as [->|]; [| discriminate].
    f_equal. now apply IH.
Qed.

(** [String.prototype.replace] with a string pattern replaces the first
    occurrence and nothing else. *)
Lemma replace_unfold pat rep s :
  JS.replace pat rep s =
  if String.prefix pat s then rep ++ JS.slice (String.length pat) s
  else match s with
       | EmptyString => EmptyString
       | String c s' => String c (JS.replace pat rep s')
       end.
Proof. destruct s; reflexivity. Qed.

Lemma includes_unfold s p :
  JS.includes s p =
  String.prefix p s ||
  match s with
  | EmptyString => false
  | String _ s' => JS.includes s' p
  end.
Proof. destruct s; reflexivity. Qed.

Lemma replace_first pat rep s : ReplacedFirst pat rep s (JS.replace pat rep s).
Proof.
  induction s as [|c s IH]; rewrite replace_unfold;
    destruct (String.prefix pat _) eqn:E.
  - pattern EmptyString at 1. rewrite (prefix_slice pat "" E).
    apply (RF_leftmost pat rep "" (JS.slice (String.length pat) "")).
    simpl. intros k Hk. lia.
  - apply RF_absent. rewrite includes_unfold, E. reflexivity.
  - pattern (String c s) at 1. rewrite (prefix_slice pat _ E).
    apply (RF_leftmost pat rep "" (JS.slice (String.length pat) (String c s))).
    simpl. intros k Hk. lia.
  - remember (JS.replace pat rep s) as r eqn:Hr.
    destruct IH as [s Habs | pre post Hleft].
    + apply RF_absent. rewrite includes_unfold, E, Habs. reflexivity.
    + change (String c (pre ++ rep ++ post)) with (String c pre ++ rep ++ post).
      change (String c (pre ++ pat ++ post))
        with (String c pre ++ pat ++ post).
      apply RF_leftmost. intros [|k] Hk.
      * exact E.
      * cbn [JS.slice append]. apply Hleft. simpl in Hk. lia.
Qed.

(** The characters [encodeURIComponent] writes: no dollar sign among them,
    so a replacement text it produced holds no replacement pattern. *)
Lemma encodeURIComponent_no_dollar s :
  JS.includes (JS.encodeURIComponent s) "$" = false.
Proof.
  assert (Hhex : forall n, (n < 16)%nat -> JS.hexDigit n <> "$"%char).
  { intros n Hn. do 16 (destruct n as [|n]; [discriminate|]). lia. }
  induction s as [|c s IH]; [reflexivity|].
  cbn [JS.encodeURIComponent].
  destruct (JS.isUnreserved c) eqn:Hc.
  - cbn [JS.includes String.prefix]. rewrite IH.
    destruct (Ascii.ascii_dec "$" c) as [<-|]; [discriminate Hc | reflexivity].
  - cbn [JS.includes String.prefix]. rewrite IH.
    destruct (Ascii.ascii_dec "$" "%"); [discriminate|].
    destruct (Ascii.ascii_dec "$" (JS.hexDigit (nat_of_ascii c / 16))) as [E|_].
    { exfalso. symmetry in E. revert E. apply Hhex.
      apply Nat.Div0.div_lt_upper_bound.
      pose proof (nat_ascii_bounded c). lia. }
    destruct (Ascii.ascii_dec "$" (JS.hexDigit (nat_of_ascii c mod 16))) as [E|_].
    { exfalso. symmetry in E. revert E. apply Hhex.
      apply Nat.mod_upper_bound. lia. }
    reflexivity.
Qed.

(** C5 as stated fails: the template [/users/{id}/manager/{id}] bound with
    [id = 42] keeps its second placeholder. *)
Lemma path_binding_keeps_second_occurrence :
  let bound := bindParams (tool "get" "/users/{id}/manager/{id}"
                             [param "id" Path] []) [("id", JStr "42")] in
  b_path bound = "/users/42/manager/{id}" /\
  JS.includes (b_path bound) "{id}" = true.
Proof. vm_compute. split; reflexivity. Qed.

(** C5, amended.  Binding a value to a Path-kind parameter replaces the
    first occurrence of [{name}] in the path, and then the first occurrence
    of [:name] in the result, by the URL-encoded value (a placeholder that
    does not occur leaves the path as it is), and touches nothing else of the
    request; later occurrences stay. *)
Theorem path_binding_replaces_first_occurrences
    (defs : list ParameterDefinition) (def : ParameterDefinition)
    (paramName : string) (paramValue : json) (b : Binding) :
  JS.arrayIncludes controlParams paramName = false ->
  findParamDef defs paramName = Some def ->
  type def = Path ->
  let encoded := JS.encodeURIComponent (toString paramValue) in
  let b' := bindParam defs b (paramName, paramValue) in
  (exists mid,
     ReplacedFirst ("{" ++ paramName ++ "}") encoded (b_path b) mid /\
     ReplacedFirst (":" ++ paramName) encoded mid (b_path b')) /\
  b_queryParams b' = b_queryParams b /\
  b_headers b' = b_headers b /\
  b_body b' = b_body b.
Proof.
  intros Hctl Hfind Htype encoded b'. subst b'. unfold bindParam.
  rewrite Hctl, Hfind, Htype. cbn [b_path b_queryParams b_headers b_body].
  repeat split.
  exists (JS.replace ("{" ++ paramName ++ "}") encoded (b_path b)).
  split; apply replace_first.
Qed.

Lemma path_binding_replaces_first_occurrences_sample :
  JS.arrayIncludes controlParams "id" = false /\
  findParamDef [param "id" Path] "id" = Some (param "id" Path) /\
  type (param "id" Path) = Path /\
  exists mid,
    ReplacedFirst "{id}" "a%20b" "/users/{id}/photo" mid /\
    ReplacedFirst ":id" "a%20b" mid
      (b_path (bindParam [param "id" Path]
                 {| b_path := "/users/{id}/photo"; b_queryParams := [];
                    b_headers := []; b_body := None |} ("id", JStr "a b"))).
Proof.
  split; [reflexivity|]. split; [reflexivity|]. split; [reflexivity|].
  exact (proj1 (@path_binding_replaces_first_occurrences
                  [param "id" Path] (param "id" Path) "id" (JStr "a b")
                  {| b_path := "/users/{id}/photo"; b_queryParams := [];
                     b_headers := []; b_body := None |}
                  eq_refl eq_refl eq_refl)).
Defined.

(** *** Reserved query names *)





(** ** Refresh and retry *)

(** One [gets] at the head of a computation, run. *)
Ltac read_world := unfold bind at 1; unfold gets at 1.

Lemma startingToken_truthy options w token :
  startingToken options w = Some token -> JS.truthy token = true.
Proof.
  assert (Hor : forall a t, JS.orElse a None = Some t -> JS.truthy t = true).
  { intros [a|] t; unfold JS.orElse; [| discriminate].
    destruct (JS.truthy a) eqn:E; [| discriminate].
    intros H. injection H as <-. exact E. }
  unfold startingToken.
  destruct (JS.orElse (opt_accessToken options) _) as [t|] eqn:E.
  - intros H. injection H as <-. revert E. unfold JS.orElse at 1.
    destruct (opt_accessToken options) as [a|].
    + destruct (JS.truthy a) eqn:Ea.
      * intros H. injection H as <-. exact Ea.
      * apply Hor.
    + apply Hor.
  - destruct (authManager_getToken w) as [e|t]; [discriminate | apply Hor].
Qed.

Lemma performRequest_run endpoint token options w :
  performRequest endpoint token options w =
  match graph w (length (sent w)) (requestFor endpoint token options) with
  | Some r =>
      (inr r, set_sent (sent w ++ [requestFor endpoint token options]) w)
  | None =>
      (inl FetchFailed,
       set_sent (sent w ++ [requestFor endpoint token options]) w)
  end.
Proof.
  unfold performRequest, fetch, requestFor.
  destruct (graph w _ _); reflexivity.
Qed.

(** The first request of a call, up to the answer to it. *)
Lemma requestWithRefresh_first endpoint options w token :
  startingToken options w = Some token ->
  requestWithRefresh endpoint options w =
  bind (performRequest endpoint token options)
    (fun response =>
       bind
         (match JS.orElse (opt_refreshToken options) (refreshToken w) with
          | Some rt =>
              if (status response =? 401) && JS.truthy rt then
                bind (refreshAccessToken rt) (fun _ =>
                bind (gets accessToken) (fun refreshed =>
                  match JS.orElse refreshed (Some token) with
                  | None => throw FailedToRefresh
                  | Some token' => performRequest endpoint token' options
                  end))
              else ret response
          | None => ret response
          end)
         (fun response =>
            if status response =? 403 then
              if JS.includes (text response) "scope" ||
                 JS.includes (text response) "permission"
              then throw (ScopeError (status response) (statusText response)
                            (text response))
              else throw (ApiError (status response) (statusText response)
                            (text response))
            else if negb (ok response) then
              throw (ApiError (status response) (statusText response)
                       (text response))
            else ret response)) w.
Proof.
  intros Htok. pose proof (startingToken_truthy _ _ _ Htok) as Htruthy.
  unfold requestWithRefresh, startingToken in *.
  unfold bind at 1. unfold gets at 1. cbn beta iota.
  unfold bind at 1.
  destruct (JS.orElse (opt_accessToken options) (JS.orElse (accessToken w) None))
    as [t|] eqn:E.
  - injection Htok as ->. unfold ret at 1. cbn beta iota.
    unfold bind at 1. unfold gets at 1. cbn beta iota.
    unfold JS.orElse at 1. rewrite Htruthy. reflexivity.
  - unfold getToken. destruct (authManager_getToken w) as [e|t]; [discriminate|].
    cbn beta iota. unfold bind at 1. unfold gets at 1. cbn beta iota.
    rewrite Htok. reflexivity.
Qed.

Lemma startingRefreshToken_some options w rt :
  startingRefreshToken options w = Some rt ->
  JS.orElse (opt_refreshToken options) (refreshToken w) = Some rt /\
  JS.truthy rt = true.
Proof.
  unfold startingRefreshToken.
  destruct (JS.orElse (opt_refreshToken options) (refreshToken w)) as [x|];
    unfold JS.orElse at 1; [| discriminate].
  destruct (JS.truthy x) eqn:E; [| discriminate].
  intros H. injection H as <-. auto.
Qed.

Lemma startingRefreshToken_none options w :
  startingRefreshToken options w = None ->
  match JS.orElse (opt_refreshToken options) (refreshToken w) with
  | Some rt => JS.truthy rt = false
  | None => True
  end.
Proof.
  unfold startingRefreshToken.
  destruct (JS.orElse (opt_refreshToken options) (refreshToken w)) as [x|];
    unfold JS.orElse at 1; [| trivial].
  destruct (JS.truthy x); [discriminate | reflexivity].
Qed.

Lemma status_401_fatal r :
  status r = 401 ->
  (status r =? 403) = false /\ negb (ok r) = true /\ (status r =? 401) = true.
Proof. intros H. unfold ok. rewrite H. repeat split. Qed.

Lemma makeRequest_outcome endpoint options w :
  snd (makeRequest endpoint options w) =
    snd (requestWithRefresh endpoint options w) /\
  forall e, fst (requestWithRefresh endpoint options w) = inl e ->
            fst (makeRequest endpoint options w) = inl e.
Proof.
  unfold makeRequest, bind.
  destruct (requestWithRefresh endpoint options w) as [[e|r] w'].
  - split; [reflexivity | intros e' H; simpl in *; congruence].
  - split; [| intros e' H; discriminate H].
    simpl. destruct (includeHeaders options); [| reflexivity].
    destruct (decodeBody r); reflexivity.
Qed.

(** A refresh that succeeds: the call is retried in the refreshed world. *)
Lemma requestWithRefresh_refreshed endpoint options w token r1 rt secret tokens :
  startingToken options w = Some token ->
  graph w (length (sent w)) (requestFor endpoint token options) = Some r1 ->
  status r1 = 401 ->
  startingRefreshToken options w = Some rt ->
  JS.orElse (env_clientSecret w) None = Some secret ->
  tokenEndpoint w (length (refreshCalls w)) (refreshCallFor rt secret w) =
    inr tokens ->
  let token' := if JS.truthy (access_token tokens)
                then access_token tokens else token in
  let w2 := afterRefresh (refreshCallFor rt secret w) tokens
              (afterRequest (requestFor endpoint token options) w) in
  requestWithRefresh endpoint options w =
  match graph w (S (length (sent w))) (requestFor endpoint token' options) with
  | Some r2 =>
      (if status r2 =? 403 then
         if JS.includes (text r2) "scope" || JS.includes (text r2) "permission"
         then inl (ScopeError (status r2) (statusText r2) (text r2))
         else inl (ApiError (status r2) (statusText r2) (text r2))
       else if negb (ok r2)
            then inl (ApiError (status r2) (statusText r2) (text r2))
            else inr r2,
       afterRequest (requestFor endpoint token' options) w2)
  | None =>
      (inl FetchFailed, afterRequest (requestFor endpoint token' options) w2)
  end.
Proof.
  intros Htok Hg H401 Hrt Hsec Hte token' w2.
  rewrite (requestWithRefresh_first _ _ _ _ Htok).
  unfold bind at 1. rewrite performRequest_run, Hg.
  destruct (startingRefreshToken_some _ _ _ Hrt) as [Hrt1 Hrt2].
  destruct (status_401_fatal _ H401) as (H403 & Hok & H401b).
  unfold bind at 1. rewrite Hrt1, H401b, Hrt2. cbn [andb].
  unfold bind at 1. unfold refreshAccessToken.
  do 3 read_world.
  cbn [env_clientSecret set_sent]. rewrite Hsec.
  unfold bind at 1. unfold lib_refreshAccessToken.
  cbn [tokenEndpoint refreshCalls set_sent env_clientId env_tenantId].
  fold (refreshCallFor rt secret w). rewrite Hte.
  unfold bind at 1. unfold modify at 1.
  assert (Hw2 :
    (if JS.isTruthy (refresh_token tokens)
     then modify (set_refreshToken (refresh_token tokens))
     else ret tt)
      (set_accessToken (Some (access_token tokens))
         (set_refreshCalls (refreshCalls w ++ [refreshCallFor rt secret w])
            (set_sent (sent w ++ [requestFor endpoint token options]) w)))
    = (inr tt, w2)).
  { subst w2. unfold afterRefresh, afterRequest.
    cbn [refreshCalls set_sent].
    destruct (JS.isTruthy (refresh_token tokens)); reflexivity. }
  rewrite Hw2. unfold bind at 1. unfold gets at 1.
  assert (Hacc : accessToken w2 = Some (access_token tokens)).
  { subst w2. unfold afterRefresh.
    destruct (JS.isTruthy (refresh_token tokens)); reflexivity. }
  rewrite Hacc.
  assert (Htok' : JS.orElse (Some (access_token tokens)) (Some token) =
                  Some token').
  { subst token'. unfold JS.orElse.
    destruct (JS.truthy (access_token tokens)); reflexivity. }
  rewrite Htok'. rewrite performRequest_run.
  assert (Hsent : sent w2 = (sent w ++ [requestFor endpoint token options])%list).
  { subst w2. unfold afterRefresh, afterRequest.
    destruct (JS.isTruthy (refresh_token tokens)); reflexivity. }
  assert (Hgraph : graph w2 = graph w).
  { subst w2. unfold afterRefresh, afterRequest.
    destruct (JS.isTruthy (refresh_token tokens)); reflexivity. }
  rewrite Hsent, Hgraph, length_app. cbn [length]. rewrite Nat.add_1_r.
  fold (afterRequest (requestFor endpoint token' options) w2).
  unfold afterRequest at 1 2. rewrite Hsent.
  destruct (graph w _ (requestFor endpoint token' options)) as [r2|];
    [| reflexivity].
  destruct (status r2 =? 403).
  - destruct (_ || _); reflexivity.
  - destruct (negb (ok r2)); reflexivity.
Qed.

(** A refresh that cannot start, or that the token endpoint rejects: the
    error ends the call, and the request is not sent again. *)
Lemma requestWithRefresh_refresh_fails endpoint options w token r1 rt :
  startingToken options w = Some token ->
  graph w (length (sent w)) (requestFor endpoint token options) = Some r1 ->
  status r1 = 401 ->
  startingRefreshToken options w = Some rt ->
  let w1 := afterRequest (requestFor endpoint token options) w in
  (JS.orElse (env_clientSecret w) None = None ->
   requestWithRefresh endpoint options w = (inl ClientSecretNotConfigured, w1))
  /\
  (forall secret body,
     JS.orElse (env_clientSecret w) None = Some secret ->
     tokenEndpoint w (length (refreshCalls w)) (refreshCallFor rt secret w) =
       inl body ->
     requestWithRefresh endpoint options w =
       (inl (RefreshRejected body),
        set_refreshCalls (refreshCalls w ++ [refreshCallFor rt secret w]) w1)).
Proof.
  intros Htok Hg H401 Hrt w1.
  destruct (startingRefreshToken_some _ _ _ Hrt) as [Hrt1 Hrt2].
  destruct (status_401_fatal _ H401) as (H403 & Hok & H401b).
  assert (Hstart :
    requestWithRefresh endpoint options w =
    bind
      (bind (refreshAccessToken rt) (fun _ =>
       bind (gets accessToken) (fun refreshed =>
         match JS.orElse refreshed (Some token) with
         | None => throw FailedToRefresh
         | Some token' => performRequest endpoint token' options
         end)))
      (fun response =>
         if status response =? 403 then
           if JS.includes (text response) "scope" ||
              JS.includes (text response) "permission"
           then throw (ScopeError (status response) (statusText response)
                         (text response))
           else throw (ApiError (status response) (statusText response)
                         (text response))
         else if negb (ok response) then
           throw (ApiError (status response) (statusText response)
                    (text response))
         else ret response) w1).
  { rewrite (requestWithRefresh_first _ _ _ _ Htok).
    unfold bind at 1. rewrite performRequest_run, Hg.
    unfold bind at 1. rewrite Hrt1, H401b, Hrt2. reflexivity. }
  split.
  - intros Hsec. rewrite Hstart.
    unfold bind at 1. unfold bind at 1. unfold refreshAccessToken.
    do 3 read_world.
    subst w1. unfold afterRequest. cbn [env_clientSecret set_sent].
    rewrite Hsec. reflexivity.
  - intros secret body Hsec Hte. rewrite Hstart.
    unfold bind at 1. unfold bind at 1. unfold refreshAccessToken.
    do 3 read_world.
    subst w1. unfold afterRequest. cbn [env_clientSecret set_sent].
    rewrite Hsec.
    unfold bind at 1. unfold lib_refreshAccessToken.
    cbn [tokenEndpoint refreshCalls set_sent env_clientId env_tenantId].
    fold (refreshCallFor rt secret w). rewrite Hte. reflexivity.
Qed.

(** No refresh token: a 401 is final at once. *)
Lemma requestWithRefresh_no_refresh_token endpoint options w token r1 :
  startingToken options w = Some token ->
  graph w (length (sent w)) (requestFor endpoint token options) = Some r1 ->
  status r1 = 401 ->
  startingRefreshToken options w = None ->
  requestWithRefresh endpoint options w =
    (inl (ApiError 401 (statusText r1) (text r1)),
     afterRequest (requestFor endpoint token options) w).
Proof.
  intros Htok Hg H401 Hrt.
  destruct (status_401_fatal _ H401) as (H403 & Hok & H401b).
  pose proof (startingRefreshToken_none _ _ Hrt) as Hnone.
  rewrite (requestWithRefresh_first _ _ _ _ Htok).
  unfold bind at 1. rewrite performRequest_run, Hg.
  unfold bind at 1.
  assert (Hskip :
    match JS.orElse (opt_refreshToken options) (refreshToken w) with
    | Some rt =>
        if (status r1 =? 401) && JS.truthy rt then
          bind (refreshAccessToken rt) (fun _ =>
          bind (gets accessToken) (fun refreshed =>
            match JS.orElse refreshed (Some token) with
            | None => throw FailedToRefresh
            | Some token' => performRequest endpoint token' options
            end))
        else ret r1
    | None => ret r1
    end = ret r1).
  { destruct (JS.orElse (opt_refreshToken options) (refreshToken w));
      [rewrite Hnone, andb_false_r |]; reflexivity. }
  rewrite Hskip. unfold ret at 1. cbn beta iota.
  rewrite H403, Hok, H401. reflexivity.
Qed.

(** [downloadBinary] goes through the same coordinator: it leaves the world
    [requestWithRefresh] leaves, and fails where it fails. *)
Lemma downloadBinary_outcome endpoint options w :
  snd (downloadBinary endpoint options w) =
    snd (requestWithRefresh endpoint options w) /\
  forall e, fst (requestWithRefresh endpoint options w) = inl e ->
            fst (downloadBinary endpoint options w) = inl e.
Proof.
  unfold downloadBinary, bind.
  destruct (requestWithRefresh endpoint options w) as [[e|r] w'].
  - split; [reflexivity | intros e' H; simpl in *; congruence].
  - split; [reflexivity | intros e' H; discriminate H].
Qed.

(** C2 as stated fails: the access token has expired and a refresh token is
    held, but the process has no client secret.  The refresh stops before
    the token endpoint is called, no token is replaced and the request is
    not sent again. *)
Lemma no_retry_without_client_secret :
  let out := makeRequest "/me" (optionsOfMethod "GET") expiredNoSecret in
  startingRefreshToken (optionsOfMethod "GET") expiredNoSecret =
    Some "refresh-1" /\
  fst out = inl ClientSecretNotConfigured /\
  refreshCalls (snd out) = [] /\
  accessToken (snd out) = Some "old" /\
  map url (sent (snd out)) = ["https://graph.microsoft.com/v1.0/me"].
Proof. vm_compute. repeat split; reflexivity. Qed.

(** C2, amended.  A call whose first answer is a 401:
    - with a refresh token and a refresh that succeeds (the client secret is
      configured and the token endpoint answers with tokens), calls the
      refresh operation exactly once, installs the new access token (and the
      new refresh token when the answer carries one), and sends the request
      exactly once more, with the new access token (with the old one if the
      new one is empty); a 401 in answer to the retry is a fatal error of the
      call, and nothing further is sent;
    - with a refresh token and a refresh that fails, ends with the error of
      the refresh, the tokens unchanged and the request not sent again;
    - without a refresh token, attempts no refresh and ends with the error
      for the 401. *)
Theorem refresh_once_then_retry_once
    (endpoint : string) (options : GraphRequestOptions) (w : World)
    (token : string) (r1 : Response) :
  startingToken options w = Some token ->
  graph w (length (sent w)) (requestFor endpoint token options) = Some r1 ->
  status r1 = 401 ->
  let req1 := requestFor endpoint token options in
  let out := makeRequest endpoint options w in
  (forall rt secret tokens,
     startingRefreshToken options w = Some rt ->
     JS.orElse (env_clientSecret w) None = Some secret ->
     tokenEndpoint w (length (refreshCalls w)) (refreshCallFor rt secret w) =
       inr tokens ->
     let token' := if JS.truthy (access_token tokens)
                   then access_token tokens else token in
     let req2 := requestFor endpoint token' options in
     refreshCalls (snd out) =
       (refreshCalls w ++ [refreshCallFor rt secret w])%list /\
     accessToken (snd out) = Some (access_token tokens) /\
     refreshToken (snd out) =
       (if JS.isTruthy (refresh_token tokens) then refresh_token tokens
        else refreshToken w) /\
     sent (snd out) = (sent w ++ [req1; req2])%list /\
     (forall r2,
        graph w (S (length (sent w))) req2 = Some r2 -> status r2 = 401 ->
        fst out = inl (ApiError 401 (statusText r2) (text r2)))) /\
  (forall rt,
     startingRefreshToken options w = Some rt ->
     (JS.orElse (env_clientSecret w) None = None ->
      fst out = inl ClientSecretNotConfigured /\
      refreshCalls (snd out) = refreshCalls w) /\
     (forall secret body,
        JS.orElse (env_clientSecret w) None = Some secret ->
        tokenEndpoint w (length (refreshCalls w)) (refreshCallFor rt secret w) =
          inl body ->
        fst out = inl (RefreshRejected body) /\
        refreshCalls (snd out) =
          (refreshCalls w ++ [refreshCallFor rt secret w])%list) /\
     ((JS.orElse (env_clientSecret w) None = None \/
       exists secret body,
         JS.orElse (env_clientSecret w) None = Some secret /\
         tokenEndpoint w (length (refreshCalls w)) (refreshCallFor rt secret w) =
           inl body) ->
      accessToken (snd out) = accessToken w /\
      refreshToken (snd out) = refreshToken w /\
      sent (snd out) = (sent w ++ [req1])%list)) /\
  (startingRefreshToken options w = None ->
   fst out = inl (ApiError 401 (statusText r1) (text r1)) /\
   refreshCalls (snd out) = refreshCalls w /\
   accessToken (snd out) = accessToken w /\
   refreshToken (snd out) = refreshToken w /\
   sent (snd out) = (sent w ++ [req1])%list).
Proof.
  intros Htok Hg H401 req1 out.
  destruct (makeRequest_outcome endpoint options w) as [Hworld Herr].
  fold out in Hworld, Herr.
  split; [| split].
  - intros rt secret tokens Hrt Hsec Hte token' req2.
    pose proof (requestWithRefresh_refreshed _ _ _ _ _ _ _ _
                  Htok Hg H401 Hrt Hsec Hte) as Hrun.
    cbv zeta in Hrun. fold token' in Hrun. fold req1 req2 in Hrun.
    set (w2 := afterRefresh (refreshCallFor rt secret w) tokens
                 (afterRequest req1 w)) in Hrun.
    assert (Hw : snd out = afterRequest req2 w2).
    { rewrite Hworld, Hrun. destruct (graph w _ req2); reflexivity. }
    assert (Hfacts :
      refreshCalls w2 = (refreshCalls w ++ [refreshCallFor rt secret w])%list /\
      accessToken w2 = Some (access_token tokens) /\
      refreshToken w2 =
        (if JS.isTruthy (refresh_token tokens) then refresh_token tokens
         else refreshToken w) /\
      sent w2 = (sent w ++ [req1])%list).
    { subst w2. unfold afterRefresh, afterRequest.
      destruct (JS.isTruthy (refresh_token tokens)); repeat split. }
    destruct Hfacts as (F1 & F2 & F3 & F4).
    rewrite Hw. unfold afterRequest.
    cbn [refreshCalls accessToken refreshToken sent set_sent].
    rewrite F1, F2, F3, F4, <- app_assoc. repeat split.
    intros r2 Hg2 H2. apply Herr. rewrite Hrun, Hg2.
    destruct (status_401_fatal _ H2) as (H403 & Hok & _).
    rewrite H403, Hok, H2. reflexivity.
  - intros rt Hrt.
    destruct (requestWithRefresh_refresh_fails _ _ _ _ _ _ Htok Hg H401 Hrt)
      as [Hnosec Hrej].
    fold req1 in Hnosec, Hrej.
    split; [| split].
    + intros Hsec. specialize (Hnosec Hsec).
      split; [apply Herr; rewrite Hnosec; reflexivity |].
      rewrite Hworld, Hnosec. reflexivity.
    + intros secret body Hsec Hte. specialize (Hrej _ _ Hsec Hte).
      split; [apply Herr; rewrite Hrej; reflexivity |].
      rewrite Hworld, Hrej. reflexivity.
    + intros [Hsec | (secret & body & Hsec & Hte)].
      * rewrite Hworld, (Hnosec Hsec). repeat split.
      * rewrite Hworld, (Hrej _ _ Hsec Hte). repeat split.
  - intros Hrt.
    pose proof (requestWithRefresh_no_refresh_token _ _ _ _ _
                  Htok Hg H401 Hrt) as Hrun.
    fold req1 in Hrun.
    split; [apply Herr; rewrite Hrun; reflexivity |].
    rewrite Hworld, Hrun. repeat split.
Qed.

Lemma refresh_once_then_retry_once_sample :
  let options := optionsOfMethod "GET" in
  let w := expiredWithSecret in
  let out := makeRequest "/me" options w in
  startingToken options w = Some "old" /\
  graph w (length (sent w)) (requestFor "/me" "old" options) =
    Some unauthorized /\
  status unauthorized = 401 /\
  refreshCalls (snd out) = [refreshCallFor "refresh-1" "secret" w] /\
  accessToken (snd out) = Some "new" /\
  refreshToken (snd out) = Some "refresh-2" /\
  sent (snd out) = [requestFor "/me" "old" options;
                    requestFor "/me" "new" options].
Proof.
  intros options w out.
  assert (H1 : startingToken options w = Some "old") by reflexivity.
  assert (H2 : graph w (length (sent w)) (requestFor "/me" "old" options) =
               Some unauthorized) by reflexivity.
  assert (H3 : status unauthorized = 401) by reflexivity.
  split; [exact H1 |]. split; [exact H2 |]. split; [exact H3 |].
  pose proof (proj1 (refresh_once_then_retry_once "/me" options w "old"
                       unauthorized H1 H2 H3)
                "refresh-1" "secret"
                {| access_token := "new"; refresh_token := Some "refresh-2" |}
                eq_refl eq_refl eq_refl) as H.
  destruct H as (Ha & Hb & Hc & Hd & _).
  split; [exact Ha |]. split; [exact Hb |]. split; [exact Hc |]. exact Hd.
Defined.


(** * Further properties of the code *)

(** ** The request log of the client *)

Lemma classify_ok r r' : classify r = inr r' -> r' = r /\ ok r = true.
Proof.
  unfold classify. destruct (status r =? 403).
  - destruct (_ || _); discriminate.
  - destruct (ok r); simpl; [| discriminate].
    intros H. injection H as <-. auto.
Qed.

Lemma requestWithRefresh_no_token endpoint options w :
  startingToken options w = None ->
  exists e, requestWithRefresh endpoint options w = (inl e, w).
Proof.
  unfold startingToken, requestWithRefresh.
  unfold bind at 1. unfold gets at 1. cbn beta iota.
  unfold bind at 1.
  destruct (JS.orElse (opt_accessToken options) (JS.orElse (accessToken w) None))
    as [t|] eqn:E; [discriminate |].
  unfold getToken.
  destruct (authManager_getToken w) as [e|t]; [intros _; eexists; reflexivity |].
  intros Hnone. cbn beta iota.
  unfold bind at 1. unfold gets at 1. cbn beta iota. rewrite Hnone.
  eexists; reflexivity.
Qed.

Lemma requestWithRefresh_unanswered endpoint options w token :
  startingToken options w = Some token ->
  graph w (length (sent w)) (requestFor endpoint token options) = None ->
  requestWithRefresh endpoint options w =
    (inl FetchFailed, afterRequest (requestFor endpoint token options) w).
Proof.
  intros Htok Hg. rewrite (requestWithRefresh_first _ _ _ _ Htok).
  unfold bind at 1. rewrite performRequest_run, Hg. reflexivity.
Qed.

Lemma requestWithRefresh_direct endpoint options w token r1 :
  startingToken options w = Some token ->
  graph w (length (sent w)) (requestFor endpoint token options) = Some r1 ->
  (status r1 =? 401) = false ->
  requestWithRefresh endpoint options w =
    (classify r1, afterRequest (requestFor endpoint token options) w).
Proof.
  intros Htok Hg H401. rewrite (requestWithRefresh_first _ _ _ _ Htok).
  unfold bind at 1. rewrite performRequest_run, Hg.
  unfold bind at 1. rewrite H401. cbn [andb].
  assert (Hskip :
    match JS.orElse (opt_refreshToken options) (refreshToken w) with
    | Some _ => ret r1
    | None => ret r1
    end (set_sent (sent w ++ [requestFor endpoint token options]) w) =
    (inr r1, afterRequest (requestFor endpoint token options) w)).
  { destruct (JS.orElse _ _); reflexivity. }
  rewrite Hskip. unfold classify.
  destruct (status r1 =? 403).
  - destruct (_ || _); reflexivity.
  - destruct (negb (ok r1)); reflexivity.
Qed.

Lemma afterRefresh_frame call tokens w :
  graph (afterRefresh call tokens w) = graph w /\
  sent (afterRefresh call tokens w) = sent w /\
  refreshCalls (afterRefresh call tokens w) = (refreshCalls w ++ [call])%list.
Proof.
  unfold afterRefresh. destruct (JS.isTruthy (refresh_token tokens)); auto.
Qed.

Lemma requestWithRefresh_log endpoint options w :
  let out := requestWithRefresh endpoint options w in
  graph (snd out) = graph w /\
  exists l c,
    sent (snd out) = (sent w ++ l)%list /\
    refreshCalls (snd out) = (refreshCalls w ++ c)%list /\
    (length l <= 2)%nat /\ (length c <= 1)%nat /\
    (length l = 2%nat -> length c = 1%nat) /\
    Forall (fun req => exists t, req = requestFor endpoint t options) l /\
    (forall token, startingToken options w = Some token ->
       exists rest, l = requestFor endpoint token options :: rest) /\
    (startingToken options w = None -> l = []) /\
    (startingRefreshToken options w = None -> c = [] /\ (length l <= 1)%nat) /\
    (forall r, fst out = inr r ->
       exists pre req,
         l = (pre ++ [req])%list /\
         graph w (length (sent w) + length pre)%nat req = Some r /\
         ok r = true).
Proof.
  intros out. subst out.
  destruct (startingToken options w) as [token|] eqn:Htok.
  2:{ destruct (requestWithRefresh_no_token endpoint _ _ Htok) as [e ->].
      split; [reflexivity |]. exists [], []. cbn [fst snd].
      rewrite !app_nil_r.
      split; [reflexivity |]. split; [reflexivity |].
      split; [cbn; lia |]. split; [cbn; lia |]. split; [discriminate |].
      split; [constructor |]. split; [discriminate |].
      split; [reflexivity |]. split; [split; [reflexivity | cbn; lia] |].
      discriminate. }
  set (req1 := requestFor endpoint token options).
  assert (Hone : forall out : Error + Response,
    requestWithRefresh endpoint options w = (out, afterRequest req1 w) ->
    (forall r, out = inr r ->
       graph w (length (sent w)) req1 = Some r /\ ok r = true) ->
    graph (snd (out, afterRequest req1 w)) = graph w /\
    exists l c,
      sent (snd (out, afterRequest req1 w)) = (sent w ++ l)%list /\
      refreshCalls (snd (out, afterRequest req1 w)) = (refreshCalls w ++ c)%list /\
      (length l <= 2)%nat /\ (length c <= 1)%nat /\
      (length l = 2%nat -> length c = 1%nat) /\
      Forall (fun req => exists t, req = requestFor endpoint t options) l /\
      (forall token0, Some token = Some token0 ->
         exists rest, l = requestFor endpoint token0 options :: rest) /\
      (Some token = None -> l = []) /\
      (startingRefreshToken options w = None -> c = [] /\ (length l <= 1)%nat) /\
      (forall r, fst (out, afterRequest req1 w) = inr r ->
         exists pre req,
           l = (pre ++ [req])%list /\
           graph w (length (sent w) + length pre)%nat req = Some r /\
           ok r = true)).
  { intros out _ Hout. split; [reflexivity |].
    exists [req1], []. cbn [fst snd]. rewrite app_nil_r.
    split; [reflexivity |]. split; [reflexivity |].
    split; [cbn; lia |]. split; [cbn; lia |]. split; [discriminate |].
    split; [repeat constructor; exists token; reflexivity |].
    split; [intros t0 [= <-]; exists []; reflexivity |].
    split; [discriminate |]. split; [split; [reflexivity | cbn; lia] |].
    intros r Hr. destruct (Hout r Hr) as [Hg Hok].
    exists [], req1. cbn [length app]. rewrite Nat.add_0_r. auto. }
  destruct (graph w (length (sent w)) req1) as [r1|] eqn:Hg.
  2:{ rewrite (requestWithRefresh_unanswered _ _ _ _ Htok Hg).
      apply (Hone (inl FetchFailed)).
      - apply (requestWithRefresh_unanswered _ _ _ _ Htok Hg).
      - discriminate. }
  destruct (status r1 =? 401) eqn:H401.
  2:{ rewrite (requestWithRefresh_direct _ _ _ _ _ Htok Hg H401).
      apply (Hone (classify r1)).
      - apply (requestWithRefresh_direct _ _ _ _ _ Htok Hg H401).
      - intros r Hr. apply classify_ok in Hr as [-> Hok]. auto. }
  apply Z.eqb_eq in H401.
  destruct (startingRefreshToken options w) as [rt|] eqn:Hrt.
  2:{ rewrite (requestWithRefresh_no_refresh_token _ _ _ _ _ Htok Hg H401 Hrt).
      apply (Hone (inl (ApiError 401 (statusText r1) (text r1)))).
      - apply (requestWithRefresh_no_refresh_token _ _ _ _ _ Htok Hg H401 Hrt).
      - discriminate. }
  destruct (requestWithRefresh_refresh_fails endpoint _ _ _ _ _ Htok Hg H401 Hrt)
    as [Hnosecret Hrejected].
  destruct (JS.orElse (env_clientSecret w) None) as [secret|] eqn:Hsec.
  2:{ rewrite (Hnosecret eq_refl).
      apply (Hone (inl ClientSecretNotConfigured)).
      - apply (Hnosecret eq_refl).
      - discriminate. }
  set (call := refreshCallFor rt secret w).
  destruct (tokenEndpoint w (length (refreshCalls w)) call) as [body|tokens]
    eqn:Hte.
  { rewrite (Hrejected secret body eq_refl Hte).
    split; [reflexivity |].
    exists [req1], [call]. cbn [fst snd].
    split; [reflexivity |]. split; [reflexivity |].
    split; [cbn; lia |]. split; [cbn; lia |]. split; [discriminate |].
    split; [repeat constructor; exists token; reflexivity |].
    split; [intros t0 [= <-]; exists []; reflexivity |].
    split; [discriminate |]. split; discriminate. }
  rewrite (requestWithRefresh_refreshed _ _ _ _ _ _ _ _ Htok Hg H401 Hrt Hsec Hte).
  set (token' := if JS.truthy (access_token tokens)
                 then access_token tokens else token).
  set (req2 := requestFor endpoint token' options).
  destruct (afterRefresh_frame call tokens (afterRequest req1 w))
    as (Hfg & Hfs & Hfc).
  assert (Hshape : forall out : Error + Response,
    (forall r, out = inr r ->
       graph w (S (length (sent w))) req2 = Some r /\ ok r = true) ->
    graph (snd (out, afterRequest req2
                       (afterRefresh call tokens (afterRequest req1 w))))
      = graph w /\
    exists l c,
      sent (snd (out, afterRequest req2
                        (afterRefresh call tokens (afterRequest req1 w))))
        = (sent w ++ l)%list /\
      refreshCalls (snd (out, afterRequest req2
                                (afterRefresh call tokens (afterRequest req1 w))))
        = (refreshCalls w ++ c)%list /\
      (length l <= 2)%nat /\ (length c <= 1)%nat /\
      (length l = 2%nat -> length c = 1%nat) /\
      Forall (fun req => exists t, req = requestFor endpoint t options) l /\
      (forall token0, Some token = Some token0 ->
         exists rest, l = requestFor endpoint token0 options :: rest) /\
      (Some token = None -> l = []) /\
      (Some rt = None -> c = [] /\ (length l <= 1)%nat) /\
      (forall r, fst (out, afterRequest req2
                             (afterRefresh call tokens (afterRequest req1 w)))
                 = inr r ->
         exists pre req,
           l = (pre ++ [req])%list /\
           graph w (length (sent w) + length pre)%nat req = Some r /\
           ok r = true)).
  { intros out Hout. cbn [fst snd]. split.
    - unfold afterRequest at 1. cbn [graph set_sent]. exact Hfg.
    - exists [req1; req2], [call].
      split.
      { unfold afterRequest at 1. cbn [sent set_sent]. rewrite Hfs.
        unfold afterRequest. cbn [sent set_sent]. rewrite <- app_assoc.
        reflexivity. }
      split.
      { unfold afterRequest at 1. cbn [refreshCalls set_sent]. rewrite Hfc.
        reflexivity. }
      split; [cbn; lia |]. split; [cbn; lia |]. split; [reflexivity |].
      split; [repeat constructor; [exists token | exists token']; reflexivity |].
      split; [intros t0 [= <-]; exists [req2]; reflexivity |].
      split; [discriminate |]. split; [discriminate |].
      intros r Hr. destruct (Hout r Hr) as [Hg2 Hok].
      exists [req1], req2. cbn [length app]. rewrite Nat.add_1_r. auto. }
  destruct (graph w (S (length (sent w))) req2) as [r2|] eqn:Hg2.
  - apply Hshape. intros r Hr.
    assert (Hc : classify r2 = inr r) by exact Hr.
    apply classify_ok in Hc as [-> Hok]. auto.
  - apply Hshape. discriminate.
Qed.

Lemma appended_nil w : Appended [] w w.
Proof. split; [reflexivity | symmetry; apply app_nil_r]. Qed.

Lemma appended_app l1 l2 w1 w2 w3 :
  Appended l1 w1 w2 -> Appended l2 w2 w3 -> Appended (l1 ++ l2) w1 w3.
Proof.
  intros [Hg1 Hs1] [Hg2 Hs2]. split.
  - congruence.
  - rewrite Hs2, Hs1. symmetry. apply app_assoc.
Qed.

Lemma bind_world {A B : Type} (m : M A) (f : A -> M B) w :
  snd (bind m f w) =
  match m w with
  | (inl _, w1) => w1
  | (inr a, w1) => snd (f a w1)
  end.
Proof. unfold bind. destruct (m w) as [[e|a] w1]; reflexivity. Qed.

Lemma formatJsonResponse_object data raw exclude :
  exists fields,
    formatJsonResponse data raw exclude =
    {| content := [JObj fields];
       _meta := _meta (formatJsonResponse data raw exclude);
       isError := false; structuredContent := Some (JObj fields) |}.
Proof.
  unfold formatJsonResponse.
  destruct exclude; [eexists; reflexivity |].
  destruct data as [| b | n | s | xs | fields];
    try (destruct raw; eexists; reflexivity).
  destruct (has "_headers" fields).
  - destruct raw.
    + destruct (get "data" fields) as [[]|]; eexists; reflexivity.
    + destruct (get "data" fields) as [[]|]; eexists; reflexivity.
  - destruct raw; eexists; reflexivity.
Qed.

Lemma graphRequest_run endpoint options w :
  graphRequest endpoint options w =
  match makeRequest endpoint options w with
  | (inr result, w') =>
      (inr (formatJsonResponse result (rawResponse options)
              (excludeResponse options)), w')
  | (inl error, w') =>
      (inr {| content := [JObj [("error", JStr (message error))]];
              _meta := None; isError := true;
              structuredContent :=
                Some (JObj [("error", JStr (message error))]) |}, w')
  end.
Proof.
  unfold graphRequest, tryCatch, bind.
  destruct (makeRequest endpoint options w) as [[e|j] w']; reflexivity.
Qed.

Lemma graphRequest_world endpoint options w :
  snd (graphRequest endpoint options w) =
  snd (requestWithRefresh endpoint options w).
Proof.
  rewrite graphRequest_run.
  rewrite <- (proj1 (makeRequest_outcome endpoint options w)).
  destruct (makeRequest endpoint options w) as [[e|j] w']; reflexivity.
Qed.

Lemma graphRequest_answers endpoint options w :
  exists r fields,
    fst (graphRequest endpoint options w) = inr r /\
    content r = [JObj fields] /\
    structuredContent r = Some (JObj fields) /\
    (isError r = true <->
     exists error,
       fst (makeRequest endpoint options w) = inl error /\
       fields = [("error", JStr (message error))] /\ _meta r = None).
Proof.
  rewrite graphRequest_run.
  destruct (makeRequest endpoint options w) as [[e|j] w'].
  - eexists; eexists. cbn [fst]. split; [reflexivity |].
    split; [reflexivity |]. split; [reflexivity |].
    split; [intros _; exists e; auto |]. reflexivity.
  - destruct (formatJsonResponse_object j (rawResponse options)
                (excludeResponse options)) as [fields Hf].
    exists (formatJsonResponse j (rawResponse options) (excludeResponse options)),
      fields.
    cbn [fst]. split; [reflexivity |]. rewrite Hf. cbn [content structuredContent isError].
    split; [reflexivity |]. split; [reflexivity |].
    split; [discriminate |]. intros (err & Herr & _). discriminate.
Qed.

Lemma graphRequest_log endpoint options w :
  exists l,
    Appended l w (snd (graphRequest endpoint options w)) /\
    Forall (fun req => exists t, req = requestFor endpoint t options) l /\
    (length l <= 2)%nat.
Proof.
  rewrite graphRequest_world.
  destruct (requestWithRefresh_log endpoint options w)
    as (Hg & l & c & Hs & _ & Hl & _ & _ & Hall & _).
  exists l. split; [split; assumption |]. auto.
Qed.

Lemma requestFor_withQueryParams endpoint token q options :
  requestFor endpoint token (withQueryParams q options) =
  requestFor endpoint token options.
Proof. reflexivity. Qed.

Lemma fetchPages_log fuel :
  forall options allItems nextLink pageCount w,
  exists r l,
    fst (fetchPages fuel options allItems nextLink pageCount w) = inr r /\
    Appended l w (snd (fetchPages fuel options allItems nextLink pageCount w)) /\
    Forall (fun req => exists e t, req = requestFor e t options) l /\
    (length l <= 2 * Z.to_nat (100 - pageCount))%nat.
Proof.
  induction fuel as [| fuel IH]; intros options allItems nextLink pageCount w.
  - cbn [fetchPages].
    destruct (truthyOpt nextLink && (pageCount <? 100));
      (eexists; exists []; cbn [fst snd ret];
       split; [reflexivity |]; split; [apply appended_nil |];
       split; [constructor | cbn; lia]).
  - cbn [fetchPages].
    destruct (truthyOpt nextLink && (pageCount <? 100)) eqn:Hloop.
    2:{ eexists; exists []; cbn [fst snd ret].
        split; [reflexivity |]. split; [apply appended_nil |].
        split; [constructor | cbn; lia]. }
    apply andb_true_iff in Hloop as [_ Hpc]. apply Z.ltb_lt in Hpc.
    destruct (URL.parse _) as [url|].
    2:{ eexists; exists []; cbn [fst snd ret].
        split; [reflexivity |]. split; [apply appended_nil |].
        split; [constructor | cbn; lia]. }
    set (nextPath := JS.replace "/v1.0" "" (URL.pathname url)).
    set (nextOptions := withQueryParams _ options).
    destruct (graphRequest_answers nextPath nextOptions w)
      as (r & fields & Hr & Hc & _).
    destruct (graphRequest_log nextPath nextOptions w)
      as (l1 & Happ & Hall & Hlen).
    destruct (graphRequest nextPath nextOptions w) as [out w1] eqn:Hgr.
    cbn [fst snd] in Hr, Happ. subst out.
    unfold bind. rewrite Hgr, Hc.
    assert (Hall1 : Forall (fun req => exists e t, req = requestFor e t options) l1).
    { eapply Forall_impl; [| exact Hall].
      intros req [t ->]. exists nextPath, t. reflexivity. }
    assert (Hstop : forall x : option (json * Z),
      exists r0 l,
        fst (ret x w1) = inr r0 /\ Appended l w (snd (ret x w1)) /\
        Forall (fun req => exists e t, req = requestFor e t options) l /\
        (length l <= 2 * Z.to_nat (100 - pageCount))%nat).
    { intros x. exists x, l1. cbn [fst snd ret].
      split; [reflexivity |]. split; [exact Happ |].
      split; [exact Hall1 | lia]. }
    destruct (match prop "value" (JObj fields) with
              | Some v =>
                  if truthy v && isArray v then concatItems allItems v
                  else Some allItems
              | None => Some allItems
              end) as [allItems'|]; [| apply Hstop].
    destruct (IH options allItems' (prop "@odata.nextLink" (JObj fields))
                (pageCount + 1) w1) as (r2 & l2 & Hr2 & Happ2 & Hall2 & Hlen2).
    exists r2, (l1 ++ l2)%list.
    split; [exact Hr2 |]. split; [eapply appended_app; eassumption |].
    split; [apply Forall_app; auto |].
    rewrite length_app. lia.
Qed.

Lemma aggregatePages_log options fields w :
  exists fields' l w2,
    aggregatePages options [JObj fields] w = (inr [JObj fields'], w2) /\
    Appended l w w2 /\
    Forall (fun req => exists e t, req = requestFor e t options) l /\
    (length l <= 198)%nat /\
    (forall m, fields = [("error", JStr m)] ->
       l = [] /\ fields' = [("error", JStr m); ("value", JArr [])]).
Proof.
  unfold aggregatePages.
  set (allItems := match orJ (get "value" fields) None with
                   | Some v => v
                   | None => JArr []
                   end).
  destruct (fetchPages_log 99 options allItems (get "@odata.nextLink" fields) 1 w)
    as (r & l & Hr & Happ & Hall & Hlen).
  assert (Herr : forall m,
    fields = [("error", JStr m)] ->
    fetchPages 99 options allItems (get "@odata.nextLink" fields) 1 w =
      (inr (Some (JArr [], 1)), w)).
  { intros m Hf. subst allItems. rewrite Hf. reflexivity. }
  destruct (fetchPages 99 options allItems (get "@odata.nextLink" fields) 1 w)
    as [out w1] eqn:Hrun.
  cbn [fst snd] in Hr, Happ. subst out.
  unfold bind. rewrite Hrun.
  assert (Hlen' : (length l <= 198)%nat) by (cbn in Hlen; lia).
  destruct r as [[allItems' n]|].
  - eexists; exists l, w1. unfold ret.
    split; [reflexivity |]. split; [exact Happ |]. split; [exact Hall |].
    split; [exact Hlen' |].
    intros m Hf. specialize (Herr m Hf). injection Herr as Ha Hn Hw.
    subst allItems' n w1. destruct Happ as [_ Hs].
    split.
    + destruct l; [reflexivity |].
      exfalso. apply (f_equal (@length _)) in Hs.
      rewrite length_app in Hs. cbn in Hs. lia.
    + rewrite Hf. reflexivity.
  - exists fields, l, w1. unfold ret.
    split; [reflexivity |]. split; [exact Happ |]. split; [exact Hall |].
    split; [exact Hlen' |].
    intros m Hf. specialize (Herr m Hf). discriminate Herr.
Qed.

Lemma requestFor_url endpoint token options :
  JS.startsWith (url (requestFor endpoint token options))
    "https://graph.microsoft.com/v1.0" = true.
Proof. unfold requestFor, JS.startsWith. cbn. destruct endpoint; reflexivity. Qed.

Lemma executeGraphTool_run tool config params w :
  buildRequestThrows tool config params = false ->
  let path := fst (buildRequest tool config params) in
  let options := snd (buildRequest tool config params) in
  exists r fields fields' l1 l2 w1 w2,
    graphRequest path options w = (inr r, w1) /\
    content r = [JObj fields] /\
    (isError r = true -> exists m, fields = [("error", JStr m)]) /\
    Appended l1 w w1 /\
    Forall (fun req => exists t, req = requestFor path t options) l1 /\
    (length l1 <= 2)%nat /\
    executeGraphTool tool config params w =
      (inr {| res_content := [JObj fields']; res_meta := _meta r;
              res_isError := isError r |}, w2) /\
    Appended l2 w1 w2 /\
    Forall (fun req => exists e t, req = requestFor e t options) l2 /\
    (length l2 <= 198)%nat /\
    (isTrue (get "fetchAllPages" params) = false -> l2 = [] /\ fields' = fields) /\
    (isTrue (get "fetchAllPages" params) = true ->
     forall m, fields = [("error", JStr m)] ->
       l2 = [] /\ fields' = [("error", JStr m); ("value", JArr [])]).
Proof.
  intros Hthrows path options. subst path options.
  unfold executeGraphTool, tryCatch. rewrite Hthrows.
  destruct (buildRequest tool config params) as [path options].
  cbn [fst snd].
  destruct (graphRequest_answers path options w)
    as (r & fields & Hr & Hc & _ & Herr).
  destruct (graphRequest_log path options w) as (l1 & Happ & Hall & Hlen).
  unfold bind at 1.
  destruct (graphRequest path options w) as [out w1] eqn:Hgr.
  cbn [fst snd] in Hr, Happ. subst out. rewrite Hc.
  assert (Herr' : isError r = true -> exists m, fields = [("error", JStr m)]).
  { intros H. apply Herr in H as (e & _ & -> & _). eauto. }
  destruct (isTrue (get "fetchAllPages" params)).
  - destruct (aggregatePages_log options fields w1)
      as (fields' & l2 & w2 & Hrun & Happ2 & Hall2 & Hlen2 & Herr2).
    exists r, fields, fields', l1, l2, w1, w2.
    unfold bind at 1. rewrite Hrun. unfold ret.
    split; [reflexivity |]. split; [exact Hc |]. split; [exact Herr' |].
    split; [exact Happ |]. split; [exact Hall |]. split; [exact Hlen |].
    split; [reflexivity |]. split; [exact Happ2 |]. split; [exact Hall2 |].
    split; [exact Hlen2 |]. split; [discriminate |]. intros _. exact Herr2.
  - exists r, fields, fields, l1, [], w1, w1.
    unfold bind at 1. unfold ret.
    split; [reflexivity |]. split; [exact Hc |]. split; [exact Herr' |].
    split; [exact Happ |]. split; [exact Hall |]. split; [exact Hlen |].
    split; [reflexivity |]. split; [apply appended_nil |]. split; [constructor |].
    split; [cbn; lia |]. split; [auto | discriminate].
Qed.

(** A request that cannot be built is answered from the [catch] block,
    before anything is sent. *)
Lemma executeGraphTool_thrown tool config params w :
  buildRequestThrows tool config params = true ->
  executeGraphTool tool config params w =
    (inr {| res_content :=
              [JObj [("error",
                      JStr ("Error in tool " ++ alias tool ++ ": " ++
                            message cannotConvert))]];
            res_meta := None; res_isError := true |}, w).
Proof.
  intros H. unfold executeGraphTool, tryCatch. rewrite H. reflexivity.
Qed.


(** *** The two logs along a computation *)

Lemma sent_refl P w : Sent P w w.
Proof.
  split; [reflexivity |]. exists [], [].
  rewrite !app_nil_r. split; [reflexivity |]. split; [constructor |].
  split; [reflexivity | apply Nat.le_refl].
Qed.

Lemma sent_trans P w1 w2 w3 : Sent P w1 w2 -> Sent P w2 w3 -> Sent P w1 w3.
Proof.
  intros (Hg1 & l1 & c1 & Hs1 & Hp1 & Hc1 & Hn1)
         (Hg2 & l2 & c2 & Hs2 & Hp2 & Hc2 & Hn2).
  split; [congruence |]. exists (l1 ++ l2)%list, (c1 ++ c2)%list.
  split; [rewrite Hs2, Hs1; symmetry; apply app_assoc |].
  split; [apply Forall_app; auto |].
  split; [rewrite Hc2, Hc1; symmetry; apply app_assoc |].
  rewrite !length_app. lia.
Qed.

Lemma sent_impl (P Q : HttpRequest -> Prop) w w' :
  (forall req, P req -> Q req) -> Sent P w w' -> Sent Q w w'.
Proof.
  intros HPQ (Hg & l & c & Hs & Hp & Hc & Hn).
  split; [exact Hg |]. exists l, c.
  split; [exact Hs |]. split; [| split; assumption].
  eapply Forall_impl; [exact HPQ | exact Hp].
Qed.

Section StepsFacts.

Variable R : World -> World -> Prop.
Hypothesis R_refl : forall w, R w w.
Hypothesis R_trans : forall w1 w2 w3, R w1 w2 -> R w2 w3 -> R w1 w3.

Lemma steps_ret {A : Type} (a : A) : Steps R (ret a).
Proof. intros w. apply R_refl. Qed.

Lemma steps_throw {A : Type} (e : Error) : Steps R (@throw A e).
Proof. intros w. apply R_refl. Qed.

Lemma steps_bind {A B : Type} (m : M A) (f : A -> M B) :
  Steps R m -> (forall a, Steps R (f a)) -> Steps R (bind m f).
Proof.
  intros Hm Hf w. rewrite bind_world. specialize (Hm w).
  destruct (m w) as [[e|a] w1]; cbn [snd] in Hm; [exact Hm |].
  exact (R_trans _ _ _ Hm (Hf a w1)).
Qed.

Lemma steps_tryCatch {A : Type} (m : M A) (h : Error -> M A) :
  Steps R m -> (forall e, Steps R (h e)) -> Steps R (tryCatch m h).
Proof.
  intros Hm Hh w. unfold tryCatch. specialize (Hm w).
  destruct (m w) as [[e|a] w1]; cbn [snd] in Hm; [| exact Hm].
  exact (R_trans _ _ _ Hm (Hh e w1)).
Qed.

End StepsFacts.

(** Steps through a computation built from [bind], [ret], [throw] and
    [tryCatch] with case distinctions in between; [base] closes the calls of
    the client. *)
Ltac steps_with refl trans base :=
  repeat first
    [ apply (steps_ret _ refl)
    | apply (steps_throw _ refl)
    | base
    | apply (steps_bind _ trans); [| intros ?]
    | apply (steps_tryCatch _ trans); [| intros ?]
    | match goal with
      | |- Steps _ (match ?x with _ => _ end) => destruct x
      | |- Steps _ (if ?x then _ else _) => destruct x
      end ].

(** One call of the coordinator sends requests built from its endpoint and
    options, and calls the token endpoint at most once, after a request. *)
Lemma steps_requestWithRefresh endpoint options :
  Steps (Sent (builtFrom options)) (requestWithRefresh endpoint options).
Proof.
  intros w.
  destruct (requestWithRefresh_log endpoint options w)
    as (Hg & l & c & Hs & Hc & _ & Hc1 & _ & Hall & Hfirst & _).
  split; [exact Hg |]. exists l, c.
  split; [exact Hs |].
  split; [eapply Forall_impl; [| exact Hall]; intros req [t ->];
          exists endpoint, t; reflexivity |].
  split; [exact Hc |].
  destruct (startingToken options w) as [token|] eqn:Htok.
  - destruct (Hfirst token eq_refl) as [rest ->]. cbn [length]. lia.
  - destruct (requestWithRefresh_no_token endpoint options w Htok) as [e He].
    rewrite He in Hc. cbn [snd] in Hc.
    rewrite <- (app_nil_r (refreshCalls w)) in Hc at 1.
    apply app_inv_head in Hc. subst c. cbn [length]. lia.
Qed.

Lemma steps_makeRequest endpoint options :
  Steps (Sent (builtFrom options)) (makeRequest endpoint options).
Proof.
  intros w. rewrite (proj1 (makeRequest_outcome endpoint options w)).
  apply steps_requestWithRefresh.
Qed.

Lemma steps_graphRequest endpoint options :
  Steps (Sent (builtFrom options)) (graphRequest endpoint options).
Proof.
  intros w. rewrite graphRequest_world. apply steps_requestWithRefresh.
Qed.

Lemma steps_fetchPages fuel :
  forall options allItems nextLink pageCount,
    Steps (Sent (builtFrom options))
      (fetchPages fuel options allItems nextLink pageCount).
Proof.
  induction fuel as [| fuel IH]; intros options allItems nextLink pageCount;
    cbn [fetchPages].
  - destruct (truthyOpt nextLink && (pageCount <? 100));
      apply steps_ret, sent_refl.
  - destruct (truthyOpt nextLink && (pageCount <? 100));
      [| apply steps_ret, sent_refl].
    destruct (URL.parse _) as [url|]; [| apply steps_ret, sent_refl].
    apply (steps_bind _ (sent_trans _)).
    { intros w. eapply sent_impl; [| apply steps_graphRequest].
      intros req (e & t & ->). exists e, t. reflexivity. }
    intros nextResponse.
    destruct (content nextResponse) as [| [| | | | |] rest];
      try apply steps_ret, sent_refl;
      match goal with
      | |- Steps _ (match ?g with _ => _ end) =>
          destruct g; [apply IH | apply steps_ret, sent_refl]
      end.
Qed.

Lemma steps_aggregatePages options first :
  Steps (Sent (builtFrom options)) (aggregatePages options first).
Proof.
  unfold aggregatePages.
  destruct first as [| [| | | | |fields] rest]; try apply steps_ret, sent_refl.
  apply (steps_bind _ (sent_trans _)); [apply steps_fetchPages |].
  intros [[allItems' n]|]; apply steps_ret, sent_refl.
Qed.

Lemma steps_executeGraphTool tool config params :
  Steps (Sent (builtFrom (snd (buildRequest tool config params))))
    (executeGraphTool tool config params).
Proof.
  unfold executeGraphTool.
  apply (steps_tryCatch _ (sent_trans _));
    [| intros e; apply steps_ret, sent_refl].
  destruct (buildRequestThrows tool config params);
    [apply steps_throw, sent_refl |].
  destruct (buildRequest tool config params) as [path options]. cbn [snd].
  apply (steps_bind _ (sent_trans _)); [apply steps_graphRequest |].
  intros response.
  apply (steps_bind _ (sent_trans _)); [| intros c; apply steps_ret, sent_refl].
  destruct (isTrue (get "fetchAllPages" params));
    [apply steps_aggregatePages | apply steps_ret, sent_refl].
Qed.

(** X2.  Every request [executeGraphTool] sends to the Graph service is built
    by [performRequest] from the options of the call (method, body,
    headers), for some endpoint and token, and goes to a URL under
    [https://graph.microsoft.com/v1.0].  One call sends at most 200 of them;
    unless [fetchAllPages] is [true] it sends at most two, both to the path
    the parameters were bound into.  Beside these requests the call
    calls the token endpoint, to refresh the access token, at most once for
    every request it sends. *)
Theorem executeGraphTool_request_log tool config params w :
  let path := fst (buildRequest tool config params) in
  let options := snd (buildRequest tool config params) in
  let out := executeGraphTool tool config params w in
  exists l c,
    sent (snd out) = (sent w ++ l)%list /\
    refreshCalls (snd out) = (refreshCalls w ++ c)%list /\
    (length c <= length l)%nat /\
    Forall (fun req =>
              (exists e t, req = requestFor e t options) /\
              JS.startsWith (url req) "https://graph.microsoft.com/v1.0" = true)
           l /\
    (length l <= 200)%nat /\
    (isTrue (get "fetchAllPages" params) = false ->
     (length l <= 2)%nat /\
     Forall (fun req => exists t, req = requestFor path t options) l).
Proof.
  intros path options out. subst path options out.
  destruct (steps_executeGraphTool tool config params w)
    as (_ & l & c & Hs & Hbuilt & Hc & Hn).
  exists l, c. split; [exact Hs |]. split; [exact Hc |]. split; [exact Hn |].
  split.
  { eapply Forall_impl; [| exact Hbuilt].
    intros req (e & t & ->). split; [eauto | apply requestFor_url]. }
  destruct (buildRequestThrows tool config params) eqn:Hthrows.
  { rewrite (executeGraphTool_thrown _ _ _ _ Hthrows) in Hs. cbn [snd] in Hs.
    rewrite <- (app_nil_r (sent w)) in Hs at 1.
    apply app_inv_head in Hs. subst l.
    split; [cbn; lia |]. intros _. split; [cbn; lia | constructor]. }
  destruct (executeGraphTool_run tool config params w Hthrows)
    as (r & fields & fields' & l1 & l2 & w1 & w2 & _ & _ & _ & Happ1 & Hall1 &
        Hlen1 & Hout & Happ2 & Hall2 & Hlen2 & Hoff & _).
  rewrite Hout in Hs. cbn [snd] in Hs.
  rewrite (proj2 (appended_app _ _ _ _ _ Happ1 Happ2)) in Hs.
  apply app_inv_head in Hs. subst l.
  split; [rewrite length_app; lia |].
  intros H. destruct (Hoff H) as [-> _]. rewrite app_nil_r. auto.
Qed.

(** ** Results of [graphRequest] and the values of [makeRequest] *)

Lemma json_nested_ind (P : json -> Prop) :
  P JNull ->
  (forall b, P (JBool b)) ->
  (forall n, P (JNum n)) ->
  (forall s, P (JStr s)) ->
  (forall xs, Forall P xs -> P (JArr xs)) ->
  (forall fields, Forall (fun kv => P (snd kv)) fields -> P (JObj fields)) ->
  forall v, P v.
Proof.
  intros Hnull Hbool Hnum Hstr Harr Hobj.
  fix IH 1. intros [| b | n | s | xs | fields].
  - exact Hnull.
  - apply Hbool.
  - apply Hnum.
  - apply Hstr.
  - apply Harr. induction xs as [| x xs IHxs]; constructor; [apply IH | exact IHxs].
  - apply Hobj.
    induction fields as [| [k x] fields IHf]; constructor; [apply IH | exact IHf].
Qed.

Lemma noODataKeys_cons k x rest :
  noODataKeys (JObj ((k, x) :: rest)) =
  negb (JS.startsWith k "@odata.") && noODataKeys x && noODataKeys (JObj rest).
Proof. reflexivity. Qed.

Lemma removeODataProps_object fields :
  removeODataProps (JObj fields) = JObj (removeODataFields fields).
Proof. reflexivity. Qed.

Lemma removeODataProps_clean v : noODataKeys (removeODataProps v) = true.
Proof.
  induction v as [| b | n | s | xs IH | fields IH] using json_nested_ind;
    try reflexivity.
  - cbn [removeODataProps noODataKeys].
    induction IH as [| x rest Hx _ IHrest]; [reflexivity |].
    cbn [map forallb]. rewrite Hx, IHrest. reflexivity.
  - rewrite removeODataProps_object.
    induction IH as [| [k x] rest Hx _ IHrest]; [reflexivity |].
    rewrite removeODataFields_cons.
    destruct (JS.startsWith k "@odata.") eqn:Hk; [exact IHrest |].
    rewrite noODataKeys_cons, Hk. cbn [snd] in Hx. rewrite Hx, IHrest.
    reflexivity.
Qed.

Lemma removeODataProps_fixes_clean v :
  noODataKeys v = true -> removeODataProps v = v.
Proof.
  induction v as [| b | n | s | xs IH | fields IH] using json_nested_ind;
    try reflexivity.
  - cbn [removeODataProps noODataKeys]. intros Hclean. f_equal.
    induction IH as [| x rest Hx _ IHrest]; [reflexivity |].
    cbn [forallb map] in *. apply andb_true_iff in Hclean as [H1 H2].
    rewrite (Hx H1), (IHrest H2). reflexivity.
  - rewrite removeODataProps_object. intros Hclean. f_equal.
    induction IH as [| [k x] rest Hx _ IHrest]; [reflexivity |].
    rewrite noODataKeys_cons in Hclean.
    apply andb_true_iff in Hclean as [Hclean H3].
    apply andb_true_iff in Hclean as [H1 H2].
    rewrite removeODataFields_cons.
    destruct (JS.startsWith k "@odata."); [discriminate |].
    cbn [snd] in Hx. rewrite (Hx H2), (IHrest H3). reflexivity.
Qed.

Lemma removeODataFields_get k fields :
  JS.startsWith k "@odata." = false ->
  get k (removeODataFields fields) = option_map removeODataProps (get k fields).
Proof.
  intros Hk. induction fields as [| [k' x] rest IH]; [reflexivity |].
  rewrite removeODataFields_cons. cbn [get].
  destruct (String.eqb k k') eqn:E.
  - apply String.eqb_eq in E. subst k'. rewrite Hk. cbn [get].
    rewrite String.eqb_refl. reflexivity.
  - destruct (JS.startsWith k' "@odata."); [exact IH |].
    cbn [get]. rewrite E. exact IH.
Qed.

(** X3.  [graphRequest] never throws and leaves the world [makeRequest]
    leaves.  Its result has one content item, a JSON object, and the same
    object as structured content; it is flagged as an error exactly when
    [makeRequest] failed, and then the object is [{ error: message }] and
    there is no [_meta]. *)
Theorem graphRequest_always_answers endpoint options w :
  exists r fields,
    graphRequest endpoint options w = (inr r, snd (makeRequest endpoint options w)) /\
    content r = [JObj fields] /\
    structuredContent r = Some (JObj fields) /\
    (isError r = true <->
     exists error,
       fst (makeRequest endpoint options w) = inl error /\
       fields = [("error", JStr (message error))] /\ _meta r = None).
Proof.
  destruct (graphRequest_answers endpoint options w)
    as (r & fields & Hr & Hrest).
  exists r, fields. split; [| exact Hrest].
  rewrite graphRequest_run in *.
  destruct (makeRequest endpoint options w) as [[e|j] w'];
    cbn [fst snd] in *; congruence.
Qed.

Lemma formatJsonResponse_clean data exclude :
  forallb noODataKeys (content (formatJsonResponse data false exclude)) = true.
Proof.
  unfold formatJsonResponse.
  destruct exclude; [reflexivity |].
  destruct data as [| b | n | s | xs | fields]; try reflexivity.
  - cbn [content forallb]. rewrite removeODataProps_clean. reflexivity.
  - destruct (has "_headers" fields).
    + destruct (get "data" fields) as [d|]; [| reflexivity].
      destruct d; try reflexivity;
        cbn [content forallb]; rewrite removeODataProps_clean; reflexivity.
    + cbn [content forallb]. rewrite removeODataProps_clean. reflexivity.
Qed.

(** X4.  Unless [rawResponse] is set, no object in the content of a result of
    [graphRequest] has a key that starts with [@odata.], at any depth of
    nesting. *)
Theorem default_mode_result_has_no_odata_keys endpoint options w r :
  rawResponse options = false ->
  fst (graphRequest endpoint options w) = inr r ->
  forallb noODataKeys (content r) = true.
Proof.
  intros Hraw. rewrite graphRequest_run, Hraw.
  destruct (makeRequest endpoint options w) as [[e|j] w']; cbn [fst];
    intros [= <-]; [reflexivity | apply formatJsonResponse_clean].
Qed.

Lemma default_mode_result_has_no_odata_keys_sample :
  noODataKeys page1 = false /\
  forallb noODataKeys
    (content (responseOf (graphRequest "/me/messages" (optionsOfMethod "GET")
                            (plainWorld twoPages)))) = true.
Proof.
  split; [reflexivity |].
  apply (default_mode_result_has_no_odata_keys "/me/messages"
           (optionsOfMethod "GET") (plainWorld twoPages)
           (responseOf (graphRequest "/me/messages" (optionsOfMethod "GET")
                          (plainWorld twoPages))));
    vm_compute; reflexivity.
Defined.

(** X5.  [removeODataProps] changes nothing in a value without [@odata.]
    keys, does nothing more when applied twice, and keeps every other key of
    an object, with its value cleaned in the same way. *)
Theorem removeODataProps_keeps_everything_else (v : json) :
  (noODataKeys v = true -> removeODataProps v = v) /\
  removeODataProps (removeODataProps v) = removeODataProps v /\
  (forall fields k,
     v = JObj fields -> JS.startsWith k "@odata." = false ->
     prop k (removeODataProps v) = option_map removeODataProps (get k fields)).
Proof.
  split; [apply removeODataProps_fixes_clean |].
  split; [apply removeODataProps_fixes_clean, removeODataProps_clean |].
  intros fields k -> Hk. rewrite removeODataProps_object. cbn [prop].
  apply removeODataFields_get, Hk.
Qed.

(** X6.  One call of [makeRequest] sends at most two requests and calls the
    token endpoint at most once; a second request is only sent after a
    refresh.  Without an access token nothing is sent; without a refresh
    token the token endpoint is not called and at most one request is sent.
    Every request is built from the endpoint and the options of the call. *)
Theorem makeRequest_request_budget endpoint options w :
  let out := makeRequest endpoint options w in
  exists l c,
    sent (snd out) = (sent w ++ l)%list /\
    refreshCalls (snd out) = (refreshCalls w ++ c)%list /\
    (length l <= 2)%nat /\ (length c <= 1)%nat /\
    (length l = 2%nat -> length c = 1%nat) /\
    (startingToken options w = None -> l = []) /\
    (startingRefreshToken options w = None -> c = [] /\ (length l <= 1)%nat) /\
    Forall (fun req => exists t, req = requestFor endpoint t options) l.
Proof.
  intros out. subst out.
  rewrite (proj1 (makeRequest_outcome endpoint options w)).
  destruct (requestWithRefresh_log endpoint options w)
    as (_ & l & c & Hs & Hc & Hl & Hlc & H2 & Hall & _ & Hnone & Hnort & _).
  exists l, c. auto 10.
Qed.

Lemma makeRequest_value endpoint options w j :
  fst (makeRequest endpoint options w) = inr j ->
  exists r,
    fst (requestWithRefresh endpoint options w) = inr r /\
    j = if includeHeaders options then
          match decodeBody r with
          | JObj fields => JObj (set "_etag" (JStr (etagOf r)) fields)
          | other => other
          end
        else decodeBody r.
Proof.
  unfold makeRequest, bind.
  destruct (requestWithRefresh endpoint options w) as [[e|r] w'];
    [discriminate |].
  intros H. exists r. split; [reflexivity |].
  destruct (includeHeaders options).
  - destruct (decodeBody r); cbn in H; congruence.
  - cbn in H. congruence.
Qed.

(** X7.  A value [makeRequest] returns is the decoded body of the answer to
    the last request of the call (with [_etag] added when [includeHeaders]
    is set), and the status of that answer lies in 200..299. *)
Theorem makeRequest_value_comes_from_a_2xx_answer endpoint options w j :
  fst (makeRequest endpoint options w) = inr j ->
  exists pre req r,
    sent (snd (makeRequest endpoint options w)) = (sent w ++ pre ++ [req])%list /\
    graph w (length (sent w) + length pre)%nat req = Some r /\
    200 <= status r <= 299 /\
    j = if includeHeaders options then
          match decodeBody r with
          | JObj fields => JObj (set "_etag" (JStr (etagOf r)) fields)
          | other => other
          end
        else decodeBody r.
Proof.
  intros Hj. destruct (makeRequest_value _ _ _ _ Hj) as (r & Hr & ->).
  rewrite (proj1 (makeRequest_outcome endpoint options w)).
  destruct (requestWithRefresh_log endpoint options w)
    as (_ & l & c & Hs & _ & _ & _ & _ & _ & _ & _ & _ & Hval).
  destruct (Hval r Hr) as (pre & req & -> & Hg & Hok).
  exists pre, req, r. split; [exact Hs |]. split; [exact Hg |].
  split; [| reflexivity].
  unfold ok in Hok. apply andb_true_iff in Hok as [H1 H2]. lia.
Qed.

Lemma makeRequest_value_comes_from_a_2xx_answer_sample :
  fst (makeRequest "/me" (optionsOfMethod "GET") expiredWithSecret) =
    inr (JObj [("id", JStr "m1"); ("subject", JStr "Hello")]) /\
  exists pre req r,
    sent (snd (makeRequest "/me" (optionsOfMethod "GET") expiredWithSecret)) =
      (sent expiredWithSecret ++ pre ++ [req])%list /\
    graph expiredWithSecret (length (sent expiredWithSecret) + length pre)%nat req
      = Some r /\
    200 <= status r <= 299 /\
    JObj [("id", JStr "m1"); ("subject", JStr "Hello")] =
      if includeHeaders (optionsOfMethod "GET") then
        match decodeBody r with
        | JObj fields => JObj (set "_etag" (JStr (etagOf r)) fields)
        | other => other
        end
      else decodeBody r.
Proof.
  assert (H : fst (makeRequest "/me" (optionsOfMethod "GET") expiredWithSecret) =
              inr (JObj [("id", JStr "m1"); ("subject", JStr "Hello")]))
    by (vm_compute; reflexivity).
  split; [exact H |].
  exact (makeRequest_value_comes_from_a_2xx_answer "/me" (optionsOfMethod "GET")
           expiredWithSecret _ H).
Defined.

Lemma startingToken_after_setOAuthTokens options w tok rt :
  JS.truthy tok = true ->
  JS.isTruthy (opt_accessToken options) = false ->
  startingToken options
    (set_refreshToken (JS.orElse rt None) (set_accessToken (Some tok) w)) =
  Some tok.
Proof.
  intros Htok Hopt. unfold startingToken. cbn [accessToken set_refreshToken set_accessToken].
  unfold JS.orElse at 2. rewrite Htok.
  unfold JS.orElse. destruct (opt_accessToken options) as [a|]; cbn in Hopt.
  - rewrite Hopt. reflexivity.
  - reflexivity.
Qed.

Lemma startingRefreshToken_after_setOAuthTokens options w tok rt :
  JS.isTruthy (opt_refreshToken options) = false ->
  startingRefreshToken options
    (set_refreshToken (JS.orElse rt None) (set_accessToken (Some tok) w)) =
  JS.orElse rt None.
Proof.
  intros Hopt. unfold startingRefreshToken.
  cbn [refreshToken set_refreshToken set_accessToken].
  assert (H : JS.orElse (opt_refreshToken options) (JS.orElse rt None) =
              JS.orElse rt None).
  { unfold JS.orElse at 1. destruct (opt_refreshToken options) as [a|];
      cbn in Hopt; [rewrite Hopt |]; reflexivity. }
  rewrite H. unfold JS.orElse. destruct rt as [x|]; [| reflexivity].
  destruct (JS.truthy x) eqn:E; [rewrite E |]; reflexivity.
Qed.

(** X8.  After [setOAuthTokens(tok, rt)] with a non-empty [tok], a request
    whose options carry no tokens of their own is first sent with [tok].
    When [rt] is absent or empty, the refresh token held before is dropped:
    exactly one request is sent and the token endpoint is not called,
    whatever the answer. *)
Theorem setOAuthTokens_governs_the_next_request endpoint options w tok rt :
  JS.truthy tok = true ->
  JS.isTruthy (opt_accessToken options) = false ->
  JS.isTruthy (opt_refreshToken options) = false ->
  let out := bind (setOAuthTokens tok rt) (fun _ => makeRequest endpoint options) w in
  (exists rest,
     sent (snd out) = (sent w ++ requestFor endpoint tok options :: rest)%list) /\
  (JS.isTruthy rt = false ->
   sent (snd out) = (sent w ++ [requestFor endpoint tok options])%list /\
   refreshCalls (snd out) = refreshCalls w).
Proof.
  intros Htok Hopt Hoptr out. subst out.
  set (w1 := set_refreshToken (JS.orElse rt None) (set_accessToken (Some tok) w)).
  assert (Hrun :
    bind (setOAuthTokens tok rt) (fun _ => makeRequest endpoint options) w =
    makeRequest endpoint options w1) by reflexivity.
  rewrite Hrun.
  rewrite (proj1 (makeRequest_outcome endpoint options w1)).
  destruct (requestWithRefresh_log endpoint options w1)
    as (_ & l & c & Hs & Hc & Hl & _ & _ & _ & Hfirst & _ & Hnort & _).
  destruct (Hfirst tok (startingToken_after_setOAuthTokens options w tok rt Htok Hopt))
    as [rest ->].
  split; [exists rest; exact Hs |].
  intros Hrt.
  assert (Hnone : startingRefreshToken options w1 = None).
  { subst w1. rewrite startingRefreshToken_after_setOAuthTokens by exact Hoptr.
    unfold JS.orElse. destruct rt as [x|]; [| reflexivity].
    cbn in Hrt. rewrite Hrt. reflexivity. }
  destruct (Hnort Hnone) as [-> Hlen].
  rewrite Hs, Hc, app_nil_r. split; [| reflexivity].
  destruct rest; [reflexivity | cbn in Hlen; lia].
Qed.

Lemma setOAuthTokens_governs_the_next_request_sample :
  let w := world "stale" (Some "refresh-1") (Some "secret")
             (scripted [unauthorized; message1])
             (fun _ _ => inr {| access_token := "new"; refresh_token := None |}) in
  let out := bind (setOAuthTokens "fresh" (Some ""))
               (fun _ => makeRequest "/me" (optionsOfMethod "GET")) w in
  sent (snd out) = [requestFor "/me" "fresh" (optionsOfMethod "GET")] /\
  refreshCalls (snd out) = [].
Proof.
  exact (proj2 (setOAuthTokens_governs_the_next_request "/me"
                  (optionsOfMethod "GET")
                  (world "stale" (Some "refresh-1") (Some "secret")
                     (scripted [unauthorized; message1])
                     (fun _ _ => inr {| access_token := "new";
                                        refresh_token := None |}))
                  "fresh" (Some "") eq_refl eq_refl eq_refl) eq_refl).
Defined.

(** ** Registration and the discovery registry *)

Section RegistrationCounts.

Variable endpoints : list Tool.
Variable endpointsData : list EndpointConfig.

Lemma registerEndpoint_gates readOnly regex orgMode acc tool :
  registerEndpoint endpointsData readOnly regex orgMode acc tool =
  if passesGates endpointsData readOnly regex orgMode tool
  then tryRegister (alias tool)
         (GraphToolHandler tool (findEndpointConfig endpointsData tool)) acc
  else skip acc.
Proof.
  unfold registerEndpoint, passesGates.
  destruct (negb orgMode && _); [reflexivity |].
  destruct (readOnly && _); [reflexivity |].
  destruct regex as [test|]; [| reflexivity].
  destruct (test (alias tool)); reflexivity.
Qed.

Lemma registered_nil acc : Registered 0 acc acc [].
Proof. unfold Registered. rewrite app_nil_r. cbn. repeat split; lia. Qed.

Lemma registered_app n m acc1 acc2 acc3 a b :
  Registered n acc1 acc2 a -> Registered m acc2 acc3 b ->
  Registered (n + m) acc1 acc3 (a ++ b)%list.
Proof.
  intros (H1 & H2 & H3) (H4 & H5 & H6). unfold Registered.
  rewrite H4, H1, app_assoc, length_app. repeat split; lia.
Qed.

Lemma tryRegister_registered name h acc :
  Registered 1 acc (tryRegister name h acc)
    (if has name (fst acc) then [] else [(name, h)]).
Proof.
  destruct acc as [srv c]. unfold tryRegister, serverTool. cbn [fst].
  destruct (has name srv); unfold Registered; cbn.
  - rewrite app_nil_r. repeat split; lia.
  - repeat split; lia.
Qed.

Lemma skip_registered acc : Registered 1 acc (skip acc) [].
Proof.
  destruct acc as [srv c]. unfold skip, Registered. cbn.
  rewrite app_nil_r. repeat split; lia.
Qed.

Lemma skip_count acc :
  skippedCount (snd (skip acc)) = S (skippedCount (snd acc)).
Proof. destruct acc; reflexivity. Qed.

Lemma tryRegister_skipped name h acc :
  skippedCount (snd (tryRegister name h acc)) = skippedCount (snd acc).
Proof.
  destruct acc as [srv c]. unfold tryRegister.
  destruct (serverTool name h srv); reflexivity.
Qed.

Lemma registerEndpoints_registered readOnly regex orgMode tools :
  forall acc,
  exists added,
    Registered (length tools) acc
      (fold_left (registerEndpoint endpointsData readOnly regex orgMode) tools acc)
      added /\
    skippedCount
      (snd (fold_left (registerEndpoint endpointsData readOnly regex orgMode)
              tools acc)) =
    (skippedCount (snd acc) +
     length (List.filter
               (fun t => negb (passesGates endpointsData readOnly regex orgMode t))
               tools))%nat /\
    forall name h, In (name, h) added ->
      exists tool,
        In tool tools /\ name = alias tool /\
        h = GraphToolHandler tool (findEndpointConfig endpointsData tool) /\
        passesGates endpointsData readOnly regex orgMode tool = true.
Proof.
  induction tools as [| t tools IH]; intros acc.
  - exists []. split; [apply registered_nil |]. split; [cbn; lia |].
    intros name h [].
  - cbn [fold_left].
    destruct (IH (registerEndpoint endpointsData readOnly regex orgMode acc t))
      as (added & Hreg & Hskip & Hin).
    rewrite registerEndpoint_gates in Hreg, Hskip |- *.
    cbn [List.filter length].
    destruct (passesGates endpointsData readOnly regex orgMode t) eqn:Hgate;
      cbn [negb].
    + exists ((if has (alias t) (fst acc) then []
               else [(alias t,
                      GraphToolHandler t (findEndpointConfig endpointsData t))])
              ++ added)%list.
      split; [apply (registered_app 1 (length tools) _ _ _ _ _
                       (tryRegister_registered _ _ acc) Hreg) |].
      split; [rewrite Hskip, tryRegister_skipped; reflexivity |].
      intros name h Hi. apply in_app_or in Hi as [Hi | Hi].
      * destruct (has (alias t) (fst acc)); [destruct Hi |].
        destruct Hi as [[= <- <-] | []].
        exists t. split; [now left | auto].
      * destruct (Hin name h Hi) as (tool & Ht & Hrest).
        exists tool. split; [now right | exact Hrest].
    + exists added.
      split; [apply (registered_app 1 (length tools) _ _ _ [] _
                       (skip_registered acc) Hreg) |].
      split; [rewrite Hskip, skip_count; cbn [length]; lia |].
      intros name h Hi. destruct (Hin name h Hi) as (tool & Ht & Hrest).
      exists tool. split; [now right | exact Hrest].
Qed.

(** X9.  [registerGraphTools] appends to the server as many tools as it
    counts as registered; registered, skipped and failed add up to the size
    of the catalog plus the two custom tools; and the skipped endpoints are
    the ones that fail one of the three tests. *)
Theorem registration_counts_add_up
    (server : Server) (readOnly : bool) (regex : option (string -> bool))
    (orgMode : bool) :
  let r := registerGraphTools endpoints endpointsData server readOnly regex
             orgMode in
  exists added,
    fst r = (server ++ added)%list /\
    registeredCount (snd r) = length added /\
    (registeredCount (snd r) + skippedCount (snd r) + failedCount (snd r) =
     length endpoints + 2)%nat /\
    skippedCount (snd r) =
      length (List.filter
                (fun t => negb (passesGates endpointsData readOnly regex orgMode t))
                endpoints).
Proof.
  intros r. subst r. unfold registerGraphTools.
  set (acc0 := (server, {| registeredCount := 0; skippedCount := 0;
                           failedCount := 0 |})).
  destruct (registerEndpoints_registered readOnly regex orgMode endpoints acc0)
    as (added & Hreg & Hskip & _).
  set (acc1 := fold_left _ endpoints acc0) in *.
  pose proof (tryRegister_registered "list-sharepoint-site-files"
                ListSharePointSiteFiles acc1) as H2.
  set (acc2 := tryRegister "list-sharepoint-site-files" _ acc1) in *.
  pose proof (tryRegister_registered "download-file-to-local"
                DownloadFileToLocal acc2) as H3.
  pose proof (registered_app _ _ _ _ _ _ _
                (registered_app _ _ _ _ _ _ _ Hreg H2) H3) as (Hs & Hc & Hsum).
  eexists. split; [exact Hs |].
  split; [rewrite Hc; reflexivity |].
  split; [rewrite Hsum; cbn; lia |].
  rewrite tryRegister_skipped. subst acc2. rewrite tryRegister_skipped.
  rewrite Hskip. reflexivity.
Qed.

(** X10.  A catalog handler found in the server after [registerGraphTools]
    was there before, or belongs to an endpoint of the catalog, is bound
    under the alias of that endpoint with its entry of [endpoints.json], and
    passed all three tests: it is not a work-account-only endpoint outside
    organisation mode, it is a GET endpoint in read-only mode, and its alias
    matches the pattern when there is one. *)
Theorem registered_catalog_tools_pass_the_gates
    (server : Server) (readOnly : bool) (regex : option (string -> bool))
    (orgMode : bool) (name : string) (tool : Tool)
    (cfg : option EndpointConfig) :
  In (name, GraphToolHandler tool cfg)
    (fst (registerGraphTools endpoints endpointsData server readOnly regex
            orgMode)) ->
  In (name, GraphToolHandler tool cfg) server \/
  (In tool endpoints /\ name = alias tool /\
   cfg = findEndpointConfig endpointsData tool /\
   (orgMode = false -> workAccountOnly cfg = false) /\
   (readOnly = true -> JS.toUpperCase (tool_method tool) = "GET") /\
   (forall test, regex = Some test -> test name = true)).
Proof.
  unfold registerGraphTools.
  set (acc0 := (server, {| registeredCount := 0; skippedCount := 0;
                           failedCount := 0 |})).
  destruct (registerEndpoints_registered readOnly regex orgMode endpoints acc0)
    as (added & (Hs & _) & _ & Hin).
  set (acc1 := fold_left _ endpoints acc0) in *.
  destruct (tryRegister_registered "list-sharepoint-site-files"
              ListSharePointSiteFiles acc1) as (H2 & _).
  set (acc2 := tryRegister "list-sharepoint-site-files" _ acc1) in *.
  destruct (tryRegister_registered "download-file-to-local"
              DownloadFileToLocal acc2) as (H3 & _).
  rewrite H3, H2, Hs. cbn [fst acc0].
  intros Hi.
  assert (Hcustom : forall (b : bool) n h,
            In (name, GraphToolHandler tool cfg) (if b then [] else [(n, h)]) ->
            h = GraphToolHandler tool cfg).
  { intros [] n h Hx; [destruct Hx |].
    destruct Hx as [Hx | []]. now injection Hx. }
  apply in_app_or in Hi as [Hi | Hi].
  2:{ apply Hcustom in Hi. discriminate Hi. }
  apply in_app_or in Hi as [Hi | Hi].
  2:{ apply Hcustom in Hi. discriminate Hi. }
  apply in_app_or in Hi as [Hi | Hi]; [now left | right].
  destruct (Hin _ _ Hi) as (t & Ht & Hname & Hh & Hgate).
  injection Hh as Htool Hcfg. subst t cfg name.
  unfold passesGates in Hgate.
  apply andb_true_iff in Hgate as [Hgate Hregex].
  apply andb_true_iff in Hgate as [Horg Hro].
  split; [exact Ht |]. split; [reflexivity |]. split; [reflexivity |].
  split; [| split].
  - intros ->. destruct (workAccountOnly _); [discriminate Horg | reflexivity].
  - intros ->. destruct (String.eqb_spec (JS.toUpperCase (tool_method tool)) "GET");
      [assumption | discriminate Hro].
  - intros test ->. exact Hregex.
Qed.

Lemma get_app_some {A : Type} (k : string) (v : A) (o more : list (string * A)) :
  get k o = Some v -> get k (o ++ more) = Some v.
Proof.
  induction o as [| [k0 v0] o IH]; cbn [get app]; [discriminate |].
  destruct (String.eqb k k0); auto.
Qed.

Lemma has_app_some {A : Type} (k : string) (o more : list (string * A)) :
  has k o = true -> has k (o ++ more) = true.
Proof.
  unfold has. destruct (get k o) as [v|] eqn:E; [| discriminate].
  intros _. rewrite (get_app_some _ _ _ more E). reflexivity.
Qed.

Lemma tryRegister_has name h acc :
  has name (fst (tryRegister name h acc)) = true.
Proof.
  destruct acc as [srv c]. unfold tryRegister, serverTool.
  destruct (has name srv) eqn:E; cbn [fst]; [exact E |].
  unfold has. rewrite (get_app_new _ _ _ E). reflexivity.
Qed.

Lemma tryRegister_get name h acc :
  has name (fst acc) = false ->
  get name (fst (tryRegister name h acc)) = Some h.
Proof.
  destruct acc as [srv c]. unfold tryRegister, serverTool. cbn [fst].
  intros E. rewrite E. cbn [fst]. apply get_app_new, E.
Qed.

Lemma registerEndpoints_prefix readOnly regex orgMode tools acc :
  exists added,
    fst (fold_left (registerEndpoint endpointsData readOnly regex orgMode)
           tools acc) = (fst acc ++ added)%list.
Proof.
  destruct (registerEndpoints_registered readOnly regex orgMode tools acc)
    as (added & (Hs & _) & _).
  exists added. exact Hs.
Qed.

Lemma registerGraphTools_shape server readOnly regex orgMode before tool after :
  endpoints = (before ++ tool :: after)%list ->
  passesGates endpointsData readOnly regex orgMode tool = true ->
  exists acc more,
    fst acc =
      fst (fold_left (registerEndpoint endpointsData readOnly regex orgMode)
             before
             (server, {| registeredCount := 0; skippedCount := 0;
                         failedCount := 0 |})) /\
    fst (registerGraphTools endpoints endpointsData server readOnly regex
           orgMode) =
    (fst (tryRegister (alias tool)
            (GraphToolHandler tool (findEndpointConfig endpointsData tool)) acc)
     ++ more)%list.
Proof.
  intros -> Hgate. unfold registerGraphTools.
  rewrite fold_left_app. cbn [fold_left].
  set (acc := fold_left _ before _).
  rewrite registerEndpoint_gates, Hgate.
  set (acc1 := tryRegister (alias tool) _ acc).
  destruct (registerEndpoints_prefix readOnly regex orgMode after acc1)
    as (added & Hs).
  set (acc2 := fold_left _ after acc1) in *.
  destruct (tryRegister_registered "list-sharepoint-site-files"
              ListSharePointSiteFiles acc2) as (H2 & _).
  set (acc3 := tryRegister "list-sharepoint-site-files" _ acc2) in *.
  destruct (tryRegister_registered "download-file-to-local"
              DownloadFileToLocal acc3) as (H3 & _).
  exists acc. eexists. split; [reflexivity |].
  rewrite H3, H2, Hs, <- !app_assoc. reflexivity.
Qed.

(** X11.  An endpoint of the catalog that passes the three tests has its
    alias bound in the server after [registerGraphTools]; when the alias was
    free before and the aliases of the catalog are distinct, it is bound to
    the handler of this very endpoint and its entry of [endpoints.json]. *)
Theorem eligible_catalog_tools_are_registered
    (server : Server) (readOnly : bool) (regex : option (string -> bool))
    (orgMode : bool) (tool : Tool) :
  In tool endpoints ->
  passesGates endpointsData readOnly regex orgMode tool = true ->
  let r := registerGraphTools endpoints endpointsData server readOnly regex
             orgMode in
  has (alias tool) (fst r) = true /\
  (has (alias tool) server = false ->
   NoDup (map alias endpoints) ->
   get (alias tool) (fst r) =
     Some (GraphToolHandler tool (findEndpointConfig endpointsData tool))).
Proof.
  intros Hin Hgate r. subst r.
  destruct (in_split _ _ Hin) as (before & after & Hsplit).
  destruct (registerGraphTools_shape server readOnly regex orgMode _ _ _
              Hsplit Hgate) as (acc & more & Hacc & ->).
  split; [apply has_app_some, tryRegister_has |].
  intros Hfree Hnodup. apply get_app_some, tryRegister_get.
  etransitivity; [exact (f_equal (has (alias tool)) Hacc) |].
  rewrite registerEndpoints_other; [exact Hfree |].
  intros t Ht Heq. rewrite Hsplit, map_app in Hnodup. cbn [map] in Hnodup.
  apply NoDup_remove_2 in Hnodup. apply Hnodup, in_or_app. left.
  rewrite <- Heq. apply in_map, Ht.
Qed.

Lemma get_set_same {A : Type} (k : string) (v : A) (o : list (string * A)) :
  get k (set k v o) = Some v.
Proof.
  induction o as [| [k0 v0] o IH]; cbn [set get].
  - rewrite String.eqb_refl. reflexivity.
  - destruct (String.eqb k k0) eqn:E; cbn [get].
    + rewrite String.eqb_refl. reflexivity.
    + rewrite E. exact IH.
Qed.

Lemma get_set_other {A : Type} (k k' : string) (v : A) (o : list (string * A)) :
  String.eqb k k' = false -> get k (set k' v o) = get k o.
Proof.
  intros Hk. induction o as [| [k0 v0] o IH]; cbn [set get].
  - rewrite Hk. reflexivity.
  - destruct (String.eqb k' k0) eqn:E; cbn [get].
    + apply String.eqb_eq in E. subst k0. rewrite Hk. reflexivity.
    + destruct (String.eqb k k0); [reflexivity | exact IH].
Qed.

Lemma keys_set {A : Type} (k : string) (v : A) (o : list (string * A)) :
  map fst (set k v o) =
  if has k o then map fst o else (map fst o ++ [k])%list.
Proof.
  unfold has. induction o as [| [k0 v0] o IH]; cbn [set get map fst app].
  - reflexivity.
  - destruct (String.eqb k k0) eqn:E; cbn [map fst].
    + apply String.eqb_eq in E. subst k0. reflexivity.
    + rewrite IH. destruct (get k o); reflexivity.
Qed.

Lemma has_keys {A B : Type} (k : string) (a : list (string * A))
    (b : list (string * B)) :
  map fst a = map fst b -> has k a = has k b.
Proof.
  unfold has. revert b.
  induction a as [| [k0 v0] a IH]; intros [| [k1 v1] b]; cbn [map fst get];
    try discriminate; [reflexivity |].
  intros [= -> Hrest]. destruct (String.eqb k k1); [reflexivity |].
  apply IH, Hrest.
Qed.

Lemma buildToolsRegistry_step readOnly orgMode :
  buildToolsRegistry endpoints endpointsData readOnly orgMode =
  fold_left
    (fun toolsMap tool =>
       if passesGates endpointsData readOnly None orgMode tool
       then set (alias tool) (tool, findEndpointConfig endpointsData tool)
              toolsMap
       else toolsMap) endpoints [].
Proof.
  unfold buildToolsRegistry. generalize (@nil (string * (Tool * option EndpointConfig))).
  induction endpoints as [| t tools IH]; intros acc; [reflexivity |].
  cbn [fold_left]. rewrite IH. f_equal.
  unfold passesGates.
  destruct (negb orgMode && _); [reflexivity |].
  destruct (readOnly && _); reflexivity.
Qed.

Lemma registry_sound readOnly orgMode tools :
  forall acc name tool cfg,
    get name
      (fold_left
         (fun toolsMap tool =>
            if passesGates endpointsData readOnly None orgMode tool
            then set (alias tool) (tool, findEndpointConfig endpointsData tool)
                   toolsMap
            else toolsMap) tools acc) = Some (tool, cfg) ->
    get name acc = Some (tool, cfg) \/
    (In tool tools /\ name = alias tool /\
     cfg = findEndpointConfig endpointsData tool /\
     passesGates endpointsData readOnly None orgMode tool = true).
Proof.
  induction tools as [| t tools IH]; intros acc name tool cfg; cbn [fold_left].
  - now left.
  - intros H. apply IH in H as [H | (Hin & Hrest)].
    2:{ right. split; [now right | exact Hrest]. }
    destruct (passesGates endpointsData readOnly None orgMode t) eqn:Hgate;
      [| now left].
    destruct (String.eqb name (alias t)) eqn:E.
    + apply String.eqb_eq in E. subst name. rewrite get_set_same in H.
      injection H as <- <-. right. split; [now left | auto].
    + rewrite (get_set_other _ _ _ _ E) in H. now left.
Qed.

Lemma registry_keys readOnly orgMode tools :
  forall (acc : Server * Counts)
         (reg : list (string * (Tool * option EndpointConfig))),
    map fst (fst acc) = map fst reg ->
    map fst (fst (fold_left (registerEndpoint endpointsData readOnly None orgMode)
                    tools acc)) =
    map fst
      (fold_left
         (fun toolsMap tool =>
            if passesGates endpointsData readOnly None orgMode tool
            then set (alias tool) (tool, findEndpointConfig endpointsData tool)
                   toolsMap
            else toolsMap) tools reg).
Proof.
  induction tools as [| t tools IH]; intros acc reg Hkeys; cbn [fold_left];
    [exact Hkeys |].
  apply IH. rewrite registerEndpoint_gates.
  destruct (passesGates endpointsData readOnly None orgMode t);
    [| rewrite skip_server; exact Hkeys].
  rewrite keys_set, <- (has_keys (alias t) (fst acc) reg Hkeys).
  destruct acc as [srv c]. unfold tryRegister, serverTool. cbn [fst] in *.
  destruct (has (alias t) srv); cbn [fst]; [exact Hkeys |].
  rewrite map_app, Hkeys. reflexivity.
Qed.

(** X12.  When no endpoint of the catalog bears the name of one of the two
    custom tools, the names [registerGraphTools] registers in an empty server
    without a name pattern are the names of the discovery registry, in the
    same order, followed by the two custom tools. *)
Theorem discovery_registry_lists_the_registered_catalog
    (readOnly orgMode : bool) :
  (forall t, In t endpoints ->
     alias t <> "list-sharepoint-site-files" /\
     alias t <> "download-file-to-local") ->
  map fst (fst (registerGraphTools endpoints endpointsData [] readOnly None
                  orgMode)) =
  (map fst (buildToolsRegistry endpoints endpointsData readOnly orgMode) ++
   ["list-sharepoint-site-files"; "download-file-to-local"])%list.
Proof.
  intros Hnames. rewrite buildToolsRegistry_step. unfold registerGraphTools.
  cbv zeta.
  set (acc0 := ([], {| registeredCount := 0; skippedCount := 0;
                       failedCount := 0 |}) : Server * Counts).
  pose proof (registry_keys readOnly orgMode endpoints acc0 [] eq_refl) as Hkeys.
  assert (H1 : has "list-sharepoint-site-files"
                 (fst (fold_left (registerEndpoint endpointsData readOnly None
                                    orgMode) endpoints acc0)) = false).
  { rewrite registerEndpoints_other; [reflexivity |].
    intros t Ht. apply (Hnames t Ht). }
  assert (H2 : has "download-file-to-local"
                 (fst (fold_left (registerEndpoint endpointsData readOnly None
                                    orgMode) endpoints acc0)) = false).
  { rewrite registerEndpoints_other; [reflexivity |].
    intros t Ht. apply (Hnames t Ht). }
  set (acc1 := fold_left _ endpoints acc0) in *.
  destruct (tryRegister_registered "list-sharepoint-site-files"
              ListSharePointSiteFiles acc1) as (E2 & _).
  rewrite H1 in E2.
  set (acc2 := tryRegister "list-sharepoint-site-files" _ acc1) in *.
  destruct (tryRegister_registered "download-file-to-local"
              DownloadFileToLocal acc2) as (E3 & _).
  rewrite E2, has_app_other, H2 in E3 by discriminate.
  etransitivity; [exact (f_equal (map fst) E3) |].
  rewrite !map_app, Hkeys, <- app_assoc. reflexivity.
Qed.

End RegistrationCounts.

Lemma registered_catalog_tools_pass_the_gates_sample :
  let tool := namedTool "list-mail-messages" "get" "/me/messages" in
  let cfg := Some (configOf "list-mail-messages" (Some ["Mail.Read"]) None) in
  In ("list-mail-messages", GraphToolHandler tool cfg)
    (fst (registerGraphTools catalog catalogData [] true None false)) /\
  (In ("list-mail-messages", GraphToolHandler tool cfg) [] \/
   (In tool catalog /\ "list-mail-messages" = alias tool /\
    cfg = findEndpointConfig catalogData tool /\
    (false = false -> workAccountOnly cfg = false) /\
    (true = true -> JS.toUpperCase (tool_method tool) = "GET") /\
    (forall test, @None (string -> bool) = Some test ->
                  test "list-mail-messages" = true))).
Proof.
  intros tool cfg.
  assert (H : In ("list-mail-messages", GraphToolHandler tool cfg)
                (fst (registerGraphTools catalog catalogData [] true None false)))
    by (left; reflexivity).
  split; [exact H |].
  exact (registered_catalog_tools_pass_the_gates catalog catalogData [] true None
           false "list-mail-messages" tool cfg H).
Defined.

Lemma eligible_catalog_tools_are_registered_sample :
  let tool := namedTool "list-mail-messages" "get" "/me/messages" in
  passesGates catalogData true None false tool = true /\
  passesGates catalogData true None false
    (namedTool "send-mail" "post" "/me/sendMail") = false /\
  has "list-mail-messages"
    (fst (registerGraphTools catalog catalogData [] true None false)) = true.
Proof.
  intros tool.
  split; [reflexivity |]. split; [reflexivity |].
  apply (eligible_catalog_tools_are_registered catalog catalogData [] true None
           false tool); [left; reflexivity | reflexivity].
Defined.

Lemma discovery_registry_lists_the_registered_catalog_sample :
  map fst (fst (registerGraphTools catalog catalogData [] true None false)) =
  (map fst (buildToolsRegistry catalog catalogData true false) ++
   ["list-sharepoint-site-files"; "download-file-to-local"])%list.
Proof.
  apply (discovery_registry_lists_the_registered_catalog catalog catalogData
           true false).
  intros t [<- | [<- | [<- | []]]]; split; discriminate.
Defined.

(** ** The discovery tools *)

Lemma searchLoop_firstn test queryLower query maxLimit entries :
  queryLower = option_map JS.toLowerCase query ->
  forall results,
    (Z.of_nat (length results) < Z.max 1 maxLimit) ->
    searchLoop (match test with Some t => Category t | None => NoCategory end)
      queryLower maxLimit entries results =
    inr (results ++
         firstn (Z.to_nat (Z.max 1 maxLimit) - length results)
           (map (fun e => searchResult (fst e) (fst (snd e)))
              (List.filter (listed test query) entries)))%list.
Proof.
  intros ->.
  induction entries as [| [name [tool config]] rest IH]; intros results Hlen.
  - cbn. rewrite firstn_nil, app_nil_r. reflexivity.
  - assert (Hpush :
      (if Z.of_nat (length (results ++ [searchResult name tool])) >=? maxLimit
       then inr (results ++ [searchResult name tool])%list
       else searchLoop
              (match test with Some t => Category t | None => NoCategory end)
              (option_map JS.toLowerCase query) maxLimit rest
              (results ++ [searchResult name tool])%list) =
      inr (results ++
           firstn (Z.to_nat (Z.max 1 maxLimit) - length results)
             (searchResult name tool ::
              map (fun e => searchResult (fst e) (fst (snd e)))
                (List.filter (listed test query) rest)))%list).
    { rewrite length_app. cbn [length].
      destruct (Z.of_nat (length results + 1) >=? maxLimit) eqn:Hfull;
        rewrite Z.geb_leb in Hfull;
        [apply Z.leb_le in Hfull | apply Z.leb_gt in Hfull].
      - replace (Z.to_nat (Z.max 1 maxLimit) - length results)%nat
          with 1%nat by lia.
        cbn [firstn]. reflexivity.
      - rewrite IH by (rewrite length_app; cbn [length]; lia).
        rewrite <- app_assoc, length_app. cbn [app length].
        replace (Z.to_nat (Z.max 1 maxLimit) - length results)%nat
          with (S (Z.to_nat (Z.max 1 maxLimit) - (length results + 1)))%nat
          by lia.
        reflexivity. }
    cbn [searchLoop List.filter]. unfold listed at 1. cbn [fst snd].
    destruct test as [t|].
    + destruct (t name); cbn [negb andb]; [| apply IH, Hlen].
      destruct (JS.orElse (option_map JS.toLowerCase query) None) as [q|];
        [| exact Hpush].
      destruct (JS.includes (searchText name tool config) q); cbn [negb];
        [exact Hpush | apply IH, Hlen].
    + cbn [andb].
      destruct (JS.orElse (option_map JS.toLowerCase query) None) as [q|];
        [| exact Hpush].
      destruct (JS.includes (searchText name tool config) q); cbn [negb];
        [exact Hpush | apply IH, Hlen].
Qed.

(** X13.  When [category] is absent, empty, unknown or a category with a
    pattern, [search-tools] lists the first [max 1 (min limit 50)] entries
    of the registry, in registry order, that match the pattern and contain
    the lower-cased query; [total] is the size of the registry.  In
    particular a limit of zero or less still yields one tool when one
    matches. *)
Theorem search_tools_lists_the_first_matches
    (TOOL_CATEGORIES : string -> CategoryLookup) (toolsRegistry : ToolsRegistry)
    (query category : option string) (limit : option Z)
    (test : option (string -> bool)) :
  match JS.orElse category None with
  | Some c => TOOL_CATEGORIES c
  | None => NoCategory
  end = match test with Some t => Category t | None => NoCategory end ->
  let maxLimit := Z.min (match limit with Some n => n | None => 20 end) 50 in
  let tools :=
    firstn (Z.to_nat (Z.max 1 maxLimit))
      (map (fun e => searchResult (fst e) (fst (snd e)))
         (List.filter (listed test query) toolsRegistry)) in
  searchTools TOOL_CATEGORIES toolsRegistry query category limit =
    inr {| res_content :=
             [JObj [("found", JNum (Z.of_nat (length tools)));
                    ("total", JNum (Z.of_nat (length toolsRegistry)));
                    ("tools", JArr tools);
                    ("tip", JStr "Use execute-tool with the tool name and required parameters to call any of these tools.")]];
           res_meta := None; res_isError := false |} /\
  (1 <= length tools <= 50 \/ List.filter (listed test query) toolsRegistry = [])%nat.
Proof.
  intros Hcat maxLimit tools. unfold searchTools. rewrite Hcat.
  fold maxLimit.
  rewrite (searchLoop_firstn test _ query maxLimit toolsRegistry eq_refl [])
    by (cbn; lia).
  cbn [app length]. rewrite Nat.sub_0_r. fold tools. split; [reflexivity |].
  subst tools.
  destruct (List.filter (listed test query) toolsRegistry) as [| e es];
    [now right | left].
  rewrite length_firstn, length_map. cbn [length]. subst maxLimit. lia.
Qed.

Lemma buildRequest_method tool config params :
  opt_method (snd (buildRequest tool config params)) =
    Some (JS.toUpperCase (tool_method tool)) /\
  (JS.toUpperCase (tool_method tool) = "GET" ->
   opt_body (snd (buildRequest tool config params)) = None).
Proof.
  unfold buildRequest. cbn [snd opt_method opt_body].
  split; [reflexivity |]. intros ->. reflexivity.
Qed.

(** X14.  Through a registry built in read-only mode, the requests
    [execute-tool] sends to the Graph service are GET requests without a
    body, whatever the tool name and the parameters are; beside them the
    client calls the token endpoint, to refresh its access token, at
    most once for every request to the Graph service.  A name that is not in
    the registry sends nothing and yields the error result
    [Tool not found]. *)
Theorem read_only_discovery_sends_only_GET
    (endpoints : list Tool) (endpointsData : list EndpointConfig)
    (orgMode : bool) (tool_name : string) (parameters : option object)
    (w : World) :
  let toolsRegistry := buildToolsRegistry endpoints endpointsData true orgMode in
  let out := executeTool toolsRegistry tool_name parameters w in
  (exists l c,
     sent (snd out) = (sent w ++ l)%list /\
     refreshCalls (snd out) = (refreshCalls w ++ c)%list /\
     (length c <= length l)%nat /\
     Forall (fun req => method req = "GET" /\ req_body req = None) l) /\
  (get tool_name toolsRegistry = None ->
   snd out = w /\
   exists r, fst out = inr r /\ res_isError r = true /\
     res_content r =
       [JObj [("error", JStr ("Tool not found: " ++ tool_name));
              ("tip", JStr "Use search-tools to find available tools.")]]).
Proof.
  intros toolsRegistry out. subst out. unfold executeTool.
  destruct (get tool_name toolsRegistry) as [[tool config]|] eqn:Hget.
  2:{ split.
      - exists [], []. cbn [snd ret]. rewrite !app_nil_r.
        split; [reflexivity |]. split; [reflexivity |].
        split; [apply Nat.le_refl | constructor].
      - intros _. split; [reflexivity |]. eexists. cbn [fst ret].
        split; [reflexivity |]. split; reflexivity. }
  split; [| discriminate].
  subst toolsRegistry. rewrite buildToolsRegistry_step in Hget.
  apply registry_sound in Hget as [Hget | (_ & _ & _ & Hgate)];
    [discriminate Hget |].
  assert (HGET : JS.toUpperCase (tool_method tool) = "GET").
  { unfold passesGates in Hgate.
    apply andb_true_iff in Hgate as [Hgate _].
    apply andb_true_iff in Hgate as [_ Hro].
    destruct (String.eqb_spec (JS.toUpperCase (tool_method tool)) "GET");
      [assumption | discriminate Hro]. }
  set (params := match parameters with Some p => p | None => [] end).
  destruct (steps_executeGraphTool tool config params w)
    as (_ & l & c & Hs & Hall & Hc & Hn).
  destruct (buildRequest_method tool config params) as [Hm Hb].
  exists l, c. split; [exact Hs |]. split; [exact Hc |]. split; [exact Hn |].
  eapply Forall_impl; [| exact Hall].
  intros req (e & t & ->). unfold requestFor. cbn [method req_body].
  rewrite Hm, (Hb HGET), HGET. split; reflexivity.
Qed.

Lemma search_tools_lists_the_first_matches_sample :
  searchTools mailOnly (buildToolsRegistry catalog catalogData false true)
    (Some "ME/") (Some "mail") (Some 0) =
  inr {| res_content :=
           [JObj [("found", JNum 1); ("total", JNum 3);
                  ("tools",
                   JArr [JObj [("name", JStr "list-mail-messages");
                               ("method", JStr "GET");
                               ("path", JStr "/me/messages");
                               ("description", JStr "GET /me/messages")]]);
                  ("tip", JStr "Use execute-tool with the tool name and required parameters to call any of these tools.")]];
         res_meta := None; res_isError := false |}.
Proof.
  exact (proj1 (search_tools_lists_the_first_matches mailOnly
                  (buildToolsRegistry catalog catalogData false true)
                  (Some "ME/") (Some "mail") (Some 0)
                  (Some (fun n => JS.includes n "mail")) eq_refl)).
Defined.

(** ** Query strings *)

Lemma append_assoc (a b c : string) : (a ++ b) ++ c = a ++ (b ++ c).
Proof.
  induction a as [| x a IH]; [reflexivity |].
  cbn [append]. rewrite IH. reflexivity.
Qed.

Lemma every_app p a b : every p (a ++ b) = every p a && every p b.
Proof.
  induction a as [| c a IH]; [reflexivity |].
  cbn [append every]. rewrite IH, andb_assoc. reflexivity.
Qed.

Lemma every_impl (p q : ascii -> bool) s :
  (forall c, p c = true -> q c = true) -> every p s = true -> every q s = true.
Proof.
  intros Hpq. induction s as [| c s IH]; [reflexivity |].
  cbn [every]. intros H. apply andb_true_iff in H as [H1 H2].
  rewrite (Hpq _ H1), (IH H2). reflexivity.
Qed.

Lemma hexDigit_unreserved n : (n < 16)%nat -> JS.isUnreserved (JS.hexDigit n) = true.
Proof. intros Hn. do 16 (destruct n as [| n]; [reflexivity |]). lia. Qed.

Lemma hexValue_hexDigit n : (n < 16)%nat -> JS.hexValue (JS.hexDigit n) = Some n.
Proof. intros Hn. do 16 (destruct n as [| n]; [reflexivity |]). lia. Qed.

Lemma nat_of_ascii_hi c : (nat_of_ascii c / 16 < 16)%nat.
Proof.
  apply Nat.Div0.div_lt_upper_bound. pose proof (nat_ascii_bounded c). lia.
Qed.

Lemma nat_of_ascii_lo c : (nat_of_ascii c mod 16 < 16)%nat.
Proof. apply Nat.mod_upper_bound. lia. Qed.

Lemma encodeURIComponent_chars s :
  every isEncoded (JS.encodeURIComponent s) = true.
Proof.
  induction s as [| c s IH]; [reflexivity |].
  cbn [JS.encodeURIComponent].
  destruct (JS.isUnreserved c) eqn:Hc; cbn [every]; rewrite IH.
  - unfold isEncoded. rewrite Hc. reflexivity.
  - unfold isEncoded at 2 3.
    rewrite (hexDigit_unreserved _ (nat_of_ascii_hi c)),
            (hexDigit_unreserved _ (nat_of_ascii_lo c)).
    reflexivity.
Qed.

Lemma formDecode_plain c s :
  Ascii.eqb c "+" = false -> Ascii.eqb c "%" = false ->
  JS.formDecode (String c s) = String c (JS.formDecode s).
Proof.
  intros Hplus Hpct. cbn [JS.formDecode]. rewrite Hplus, Hpct.
  destruct s as [| h [| l s]]; reflexivity.
Qed.

Lemma isUnreserved_plain c :
  JS.isUnreserved c = true ->
  Ascii.eqb c "+" = false /\ Ascii.eqb c "%" = false.
Proof.
  intros Hc. split.
  - destruct (Ascii.eqb_spec c "+") as [-> |]; [discriminate Hc | reflexivity].
  - destruct (Ascii.eqb_spec c "%") as [-> |]; [discriminate Hc | reflexivity].
Qed.

(** Decoding undoes encoding. *)
Lemma formDecode_encodeURIComponent s :
  JS.formDecode (JS.encodeURIComponent s) = s.
Proof.
  induction s as [| c s IH]; [reflexivity |].
  cbn [JS.encodeURIComponent].
  destruct (JS.isUnreserved c) eqn:Hc.
  - destruct (isUnreserved_plain c Hc) as [H1 H2].
    rewrite (formDecode_plain _ _ H1 H2), IH. reflexivity.
  - cbn [JS.formDecode].
    replace (Ascii.eqb "%" "+") with false by reflexivity.
    replace (Ascii.eqb "%" "%") with true by reflexivity.
    rewrite (hexValue_hexDigit _ (nat_of_ascii_hi c)),
            (hexValue_hexDigit _ (nat_of_ascii_lo c)), IH.
    f_equal. rewrite <- (ascii_nat_embedding c) at 3. f_equal.
    pose proof (Nat.div_mod_eq (nat_of_ascii c) 16). lia.
Qed.

Lemma span_stop (stop : ascii -> bool) a c b :
  every (fun x => negb (stop x)) a = true -> stop c = true ->
  URL.span stop (a ++ String c b) = (a, String c b).
Proof.
  intros Ha Hc. induction a as [| x a IH]; cbn [append URL.span].
  - rewrite Hc. reflexivity.
  - cbn [every] in Ha. apply andb_true_iff in Ha as [Hx Ha].
    apply negb_true_iff in Hx. rewrite Hx, (IH Ha). reflexivity.
Qed.

Lemma span_all (stop : ascii -> bool) a :
  every (fun x => negb (stop x)) a = true -> URL.span stop a = (a, "").
Proof.
  intros Ha. induction a as [| x a IH]; cbn [URL.span]; [reflexivity |].
  cbn [every] in Ha. apply andb_true_iff in Ha as [Hx Ha].
  apply negb_true_iff in Hx. rewrite Hx, (IH Ha). reflexivity.
Qed.

Lemma split_all sep a :
  every (fun x => negb (Ascii.eqb x sep)) a = true -> JS.split sep a = [a].
Proof.
  intros Ha. induction a as [| x a IH]; cbn [JS.split]; [reflexivity |].
  cbn [every] in Ha. apply andb_true_iff in Ha as [Hx Ha].
  apply negb_true_iff in Hx. rewrite Hx, (IH Ha). reflexivity.
Qed.

Lemma split_sep sep a b :
  every (fun x => negb (Ascii.eqb x sep)) a = true ->
  JS.split sep (a ++ String sep b) = a :: JS.split sep b.
Proof.
  intros Ha. induction a as [| x a IH]; cbn [append JS.split].
  - rewrite Ascii.eqb_refl. reflexivity.
  - cbn [every] in Ha. apply andb_true_iff in Ha as [Hx Ha].
    apply negb_true_iff in Hx. rewrite Hx, (IH Ha). reflexivity.
Qed.

Lemma split_join sep xs :
  xs <> [] ->
  Forall (fun x => every (fun c => negb (Ascii.eqb c sep)) x = true) xs ->
  JS.split sep (JS.join (String sep "") xs) = xs.
Proof.
  intros Hne Hall. induction Hall as [| x xs Hx Hxs IH]; [congruence |].
  destruct xs as [| y ys].
  - cbn [JS.join]. apply split_all, Hx.
  - change (JS.join (String sep "") (x :: y :: ys))
      with (x ++ String sep (JS.join (String sep "") (y :: ys))).
    rewrite (split_sep _ _ _ Hx), IH by discriminate. reflexivity.
Qed.

Lemma endsWith_unfold s p :
  JS.endsWith s p =
  String.eqb s p ||
  match s with
  | EmptyString => false
  | String _ s' => JS.endsWith s' p
  end.
Proof. destruct s; reflexivity. Qed.

(** A suffix of [a ++ b] is a suffix of [b] or ends with the whole of [b]. *)
Lemma endsWith_app a b p :
  JS.endsWith (a ++ b) p = true ->
  JS.endsWith b p = true \/ exists a', p = a' ++ b.
Proof.
  induction a as [| c a IH]; cbn [append]; [now left |].
  rewrite endsWith_unfold. intros H. apply orb_true_iff in H as [H | H].
  - apply String.eqb_eq in H. right. exists (String c a). symmetry. exact H.
  - apply IH, H.
Qed.

Lemma endsWith_every (q : ascii -> bool) s c p :
  every q s = true -> JS.endsWith s (String c p) = true -> q c = true.
Proof.
  induction s as [| x s IH]; rewrite endsWith_unfold; cbn [every].
  - cbn. discriminate.
  - intros Hs H. apply andb_true_iff in Hs as [Hx Hs].
    apply orb_true_iff in H as [H | H].
    + apply String.eqb_eq in H. injection H as -> _. exact Hx.
    + apply IH; assumption.
Qed.

Lemma every_suffix (q : ascii -> bool) a b :
  every q (a ++ b) = true -> every q b = true.
Proof. rewrite every_app. intros H. now apply andb_true_iff in H. Qed.

Lemma join_last sep (xs : list string) x :
  exists pre, JS.join sep (xs ++ [x]) = pre ++ x.
Proof.
  induction xs as [| y ys IH].
  - exists "". reflexivity.
  - destruct IH as [pre Hpre]. cbn [app].
    destruct ys as [| z zs].
    + exists (y ++ sep). cbn [app JS.join]. rewrite append_assoc.
      reflexivity.
    + exists (y ++ sep ++ pre).
      change (JS.join sep (y :: (z :: zs) ++ [x]))
        with (y ++ sep ++ JS.join sep ((z :: zs) ++ [x])).
      rewrite Hpre, !append_assoc. reflexivity.
Qed.

(** No query string ends with [/content]. *)
Lemma query_string_not_content p (q : list (string * string)) :
  q <> [] ->
  JS.endsWith (withQueryString p q) "/content" = false.
Proof.
  intros Hne. destruct (exists_last Hne) as (q' & [k v] & ->).
  unfold withQueryString.
  destruct (q' ++ [(k, v)])%list eqn:Hq; [destruct q'; discriminate Hq |].
  rewrite <- Hq. clear Hq.
  rewrite map_app. cbn [map fst snd].
  destruct (join_last "&"
              (map (fun kv => JS.encodeURIComponent (fst kv) ++ "=" ++
                              JS.encodeURIComponent (snd kv)) q')
              (JS.encodeURIComponent k ++ "=" ++ JS.encodeURIComponent v))
    as [pre ->].
  set (sep := if JS.includes p "?" then "&" else "?").
  replace (p ++ sep ++ pre ++ JS.encodeURIComponent k ++ "=" ++
           JS.encodeURIComponent v)
    with ((p ++ sep ++ pre ++ JS.encodeURIComponent k) ++
          "=" ++ JS.encodeURIComponent v)
    by (rewrite !append_assoc; reflexivity).
  destruct (JS.endsWith _ "/content") eqn:E; [exfalso | reflexivity].
  apply endsWith_app in E as [E | [a' E]].
  - cbn [append] in E. rewrite endsWith_unfold in E.
    apply orb_true_iff in E as [E | E]; [discriminate E |].
    pose proof (endsWith_every isEncoded _ _ _ (encodeURIComponent_chars v) E)
      as Hslash.
    discriminate Hslash.
  - assert (H : every (fun c => negb (Ascii.eqb c "=")) "/content" = true)
      by reflexivity.
    rewrite E in H. apply every_suffix in H. discriminate H.
Qed.

Lemma isEncoded_other c x :
  isEncoded x = false -> isEncoded c = true -> Ascii.eqb c x = false.
Proof.
  intros Hx Hc. destruct (Ascii.eqb_spec c x) as [-> |]; [congruence | reflexivity].
Qed.

Lemma encoded_without x s :
  isEncoded x = false ->
  every (fun c => negb (Ascii.eqb c x)) (JS.encodeURIComponent s) = true.
Proof.
  intros Hx. apply (every_impl isEncoded); [| apply encodeURIComponent_chars].
  intros c Hc. rewrite (isEncoded_other c x Hx Hc). reflexivity.
Qed.

Lemma encodedPair_without x kv :
  isEncoded x = false -> Ascii.eqb "=" x = false ->
  every (fun c => negb (Ascii.eqb c x)) (encodedPair kv) = true.
Proof.
  intros Hx Heq. unfold encodedPair. rewrite every_app. cbn [append every].
  rewrite !(encoded_without x _ Hx), Heq. reflexivity.
Qed.

Lemma pairOf_encodedPair kv : URL.pairOf (encodedPair kv) = kv.
Proof.
  destruct kv as [k v]. unfold URL.pairOf, encodedPair. cbn [fst snd append].
  rewrite span_stop.
  - cbn [JS.slice]. rewrite !formDecode_encodeURIComponent. reflexivity.
  - apply (every_impl isEncoded); [| apply encodeURIComponent_chars].
    intros c Hc. unfold URL.isOneOf. cbn [list_ascii_of_string existsb].
    rewrite (isEncoded_other c "=" eq_refl Hc). reflexivity.
  - reflexivity.
Qed.

Lemma every_join (q : ascii -> bool) sep xs :
  every q sep = true -> Forall (fun x => every q x = true) xs ->
  every q (JS.join sep xs) = true.
Proof.
  intros Hsep Hall. induction Hall as [| x xs Hx Hxs IH]; [reflexivity |].
  destruct xs as [| y ys]; [exact Hx |].
  change (JS.join sep (x :: y :: ys)) with (x ++ sep ++ JS.join sep (y :: ys)).
  rewrite !every_app, Hx, Hsep, IH. reflexivity.
Qed.

Lemma includes_char x s :
  every (fun c => negb (Ascii.eqb c x)) s = true ->
  JS.includes s (String x "") = false.
Proof.
  induction s as [| c s IH]; [reflexivity |].
  cbn [every]. intros H. apply andb_true_iff in H as [Hc Hs].
  rewrite includes_unfold, (IH Hs). cbn [String.prefix].
  destruct (Ascii.ascii_dec x c) as [-> |]; [| destruct s; reflexivity].
  rewrite Ascii.eqb_refl in Hc. discriminate Hc.
Qed.

Lemma withQueryString_plain p (q : list (string * string)) :
  every (fun c => negb (Ascii.eqb c "?")) p = true ->
  q <> [] ->
  withQueryString p q = p ++ "?" ++ JS.join "&" (map encodedPair q).
Proof.
  intros Hp Hne. unfold withQueryString. destruct q; [congruence |].
  rewrite (includes_char "?" p Hp). reflexivity.
Qed.

Lemma split_query_string (q : list (string * string)) :
  q <> [] ->
  JS.split "&" (JS.join "&" (map encodedPair q)) = map encodedPair q.
Proof.
  intros Hne. apply split_join.
  - destruct q; [congruence | discriminate].
  - apply Forall_forall. intros x Hx. apply in_map_iff in Hx as (kv & <- & _).
    apply encodedPair_without; reflexivity.
Qed.

Lemma query_string_chars (q : list (string * string)) :
  every (fun c => isEncoded c || Ascii.eqb c "=" || Ascii.eqb c "&")
    (JS.join "&" (map encodedPair q)) = true.
Proof.
  apply every_join; [reflexivity |]. apply Forall_forall.
  intros x Hx. apply in_map_iff in Hx as (kv & <- & _).
  assert (Himpl : forall c, isEncoded c = true ->
                    isEncoded c || Ascii.eqb c "=" || Ascii.eqb c "&" = true)
    by (intros c ->; reflexivity).
  unfold encodedPair. rewrite !every_app. cbn [every].
  rewrite !(every_impl isEncoded _ _ Himpl (encodeURIComponent_chars _)).
  reflexivity.
Qed.

Lemma encodedPair_injective kv kv' : encodedPair kv = encodedPair kv' -> kv = kv'.
Proof.
  intros H. rewrite <- (pairOf_encodedPair kv), <- (pairOf_encodedPair kv'), H.
  reflexivity.
Qed.

Lemma buildRequest_with_query
    (tool : Tool) (config : option EndpointConfig) (params : object) :
  b_queryParams (bindParams tool params) <> [] ->
  fst (buildRequest tool config params) =
    withQueryString (b_path (bindParams tool params))
      (b_queryParams (bindParams tool params)).
Proof.
  intros Hne. unfold buildRequest. cbn [fst].
  rewrite (query_string_not_content _ _ Hne).
  destruct config as [c|]; [rewrite andb_false_r |]; reflexivity.
Qed.

(** X15.  As soon as one query parameter is bound, the path handed to
    [graphRequest] carries the query string and no longer ends with
    [/content], so that [returnDownloadUrl] leaves the path as it is; and
    raw mode is decided by the error descriptions of the endpoint alone. *)
Theorem query_parameters_hide_the_content_suffix
    (tool : Tool) (config : option EndpointConfig) (params : object) :
  b_queryParams (bindParams tool params) <> [] ->
  fst (buildRequest tool config params) =
    withQueryString (b_path (bindParams tool params))
      (b_queryParams (bindParams tool params)) /\
  JS.endsWith (fst (buildRequest tool config params)) "/content" = false /\
  rawResponse (snd (buildRequest tool config params)) =
    existsb (String.eqb "Retrieved media content") (errors tool).
Proof.
  intros Hne. unfold buildRequest. cbn [fst snd rawResponse].
  rewrite (query_string_not_content _ _ Hne).
  destruct config as [c|]; [rewrite andb_false_r |];
    rewrite orb_false_r, (query_string_not_content _ _ Hne); auto.
Qed.

Lemma query_parameters_hide_the_content_suffix_sample :
  let t := tool "get" "/me/drive/items/{id}/content"
             [param "id" Path; param "select" Query] [] in
  let c := Some {| toolName := "sample-tool"; scopes := None; workScopes := None;
                   returnDownloadUrl := true; supportsTimezone := false;
                   llmTip := None |} in
  fst (buildRequest t c [("id", JStr "42")]) = "/me/drive/items/42" /\
  fst (buildRequest t c [("id", JStr "42"); ("select", JStr "id")]) =
    "/me/drive/items/42/content?%24select=id" /\
  rawResponse (snd (buildRequest t c [("id", JStr "42"); ("select", JStr "id")]))
    = false.
Proof.
  intros t c. split; [reflexivity |].
  assert (Hne : b_queryParams (bindParams t [("id", JStr "42"); ("select", JStr "id")])
                <> []) by discriminate.
  destruct (query_parameters_hide_the_content_suffix t c
              [("id", JStr "42"); ("select", JStr "id")] Hne) as (H1 & _ & H3).
  split; [rewrite H1; reflexivity | rewrite H3; reflexivity].
Defined.

(** X16.  Query parameters survive the encoding: when the bound path holds
    no [?], the URL of the request is the base URL, the bound path, a [?]
    and the query string; the query string is made of unreserved
    characters, [%], [=] and [&] alone; cut at every [&] it gives, in their
    order, one text for every bound parameter, the name and the value
    encoded by [encodeURIComponent] on either side of a [=]; and two
    different pairs of name and value never give the same text. *)
Theorem bound_query_parameters_reach_the_service
    (tool : Tool) (config : option EndpointConfig) (params : object)
    (token : string) :
  b_queryParams (bindParams tool params) <> [] ->
  every (fun c => negb (Ascii.eqb c "?")) (b_path (bindParams tool params))
    = true ->
  exists qs,
    url (requestFor (fst (buildRequest tool config params)) token
           (snd (buildRequest tool config params))) =
      "https://graph.microsoft.com/v1.0" ++
      b_path (bindParams tool params) ++ "?" ++ qs /\
    every (fun c => isEncoded c || Ascii.eqb c "=" || Ascii.eqb c "&") qs
      = true /\
    JS.split "&" qs =
      map (fun kv => JS.encodeURIComponent (fst kv) ++ "=" ++
                     JS.encodeURIComponent (snd kv))
        (b_queryParams (bindParams tool params)) /\
    (forall k v k' v',
       JS.encodeURIComponent k ++ "=" ++ JS.encodeURIComponent v =
       JS.encodeURIComponent k' ++ "=" ++ JS.encodeURIComponent v' ->
       k = k' /\ v = v').
Proof.
  intros Hne Hpath.
  pose proof (buildRequest_with_query tool config params Hne) as Hfst.
  exists (JS.join "&" (map encodedPair (b_queryParams (bindParams tool params)))).
  split.
  { unfold requestFor. cbn [url].
    rewrite Hfst, (withQueryString_plain _ _ Hpath Hne). reflexivity. }
  split; [apply query_string_chars |].
  split; [exact (split_query_string _ Hne) |].
  intros k v k' v' H.
  pose proof (encodedPair_injective (k, v) (k', v') H) as E.
  injection E as -> ->. split; reflexivity.
Qed.

Lemma bound_query_parameters_reach_the_service_sample :
  exists qs,
    url (requestFor
           (fst (buildRequest
                   (tool "get" "/me/messages"
                      [param "filter" Query; param "top" Query] []) None
                   [("filter", JStr "subject eq 'a&b=c'"); ("top", JNum 5)]))
           "tok"
           (snd (buildRequest
                   (tool "get" "/me/messages"
                      [param "filter" Query; param "top" Query] []) None
                   [("filter", JStr "subject eq 'a&b=c'"); ("top", JNum 5)]))) =
      "https://graph.microsoft.com/v1.0/me/messages?" ++ qs /\
    JS.split "&" qs = ["%24filter=subject%20eq%20'a%26b%3Dc'"; "%24top=5"].
Proof.
  destruct (bound_query_parameters_reach_the_service
              (tool "get" "/me/messages"
                 [param "filter" Query; param "top" Query] [])
              None [("filter", JStr "subject eq 'a&b=c'"); ("top", JNum 5)]
              "tok")
    as (qs & Hurl & _ & Hsplit & _).
  - discriminate.
  - reflexivity.
  - exists qs. split; [exact Hurl | exact Hsplit].
Defined.

Lemma get_middle_skip {A : Type} (x k : string) (v : A) before after :
  String.eqb x k = false ->
  get x (before ++ (k, v) :: after)%list = get x (before ++ after)%list.
Proof.
  intros Hx. induction before as [| [k0 v0] before IH]; cbn [app get].
  - rewrite Hx. reflexivity.
  - destruct (String.eqb x k0); [reflexivity | exact IH].
Qed.

Lemma bindParam_ignored defs b k v :
  JS.arrayIncludes controlParams k = true \/
  (findParamDef defs k = None /\ String.eqb k "body" = false) ->
  bindParam defs b (k, v) = b.
Proof.
  unfold bindParam. intros [Hc | [Hd Hb]].
  - rewrite Hc. reflexivity.
  - rewrite Hd, Hb. destruct (JS.arrayIncludes controlParams k); reflexivity.
Qed.

(** X17.  A parameter that is no control parameter, is not declared by the
    endpoint and is not called [body] has no effect on the request that is
    built. *)
Theorem undeclared_parameters_are_ignored
    (tool : Tool) (config : option EndpointConfig) (before after : object)
    (k : string) (v : json) :
  JS.arrayIncludes controlParams k = false ->
  findParamDef (parameters tool) k = None ->
  String.eqb k "body" = false ->
  buildRequest tool config (before ++ (k, v) :: after)%list =
  buildRequest tool config (before ++ after)%list.
Proof.
  intros Hc Hd Hb.
  assert (Hbind : bindParams tool (before ++ (k, v) :: after)%list =
                  bindParams tool (before ++ after)%list).
  { unfold bindParams. rewrite !fold_left_app. cbn [fold_left].
    rewrite bindParam_ignored by (right; auto). reflexivity. }
  assert (Hget : forall x, In x controlParams ->
            get x (before ++ (k, v) :: after)%list = get x (before ++ after)%list).
  { intros x Hx. apply get_middle_skip.
    destruct (String.eqb_spec x k) as [-> |]; [| reflexivity].
    unfold JS.arrayIncludes in Hc.
    assert (Hin : existsb (String.eqb k) controlParams = true).
    { apply existsb_exists. exists k. split; [exact Hx | apply String.eqb_refl]. }
    congruence. }
  unfold buildRequest. rewrite Hbind.
  rewrite !(Hget "timezone"), !(Hget "includeHeaders"), !(Hget "excludeResponse");
    cbn; auto.
Qed.

Lemma undeclared_parameters_are_ignored_sample :
  buildRequest (tool "get" "/me/messages" [param "top" Query] []) None
    [("top", JNum 5); ("colour", JStr "red")] =
  buildRequest (tool "get" "/me/messages" [param "top" Query] []) None
    [("top", JNum 5)].
Proof.
  exact (undeclared_parameters_are_ignored
           (tool "get" "/me/messages" [param "top" Query] []) None
           [("top", JNum 5)] [] "colour" (JStr "red") eq_refl eq_refl eq_refl).
Defined.

(** *** The prefixed entry in the request *)











(** ** The name filter *)

Lemma toLowerCase_cons_inv c s t :
  JS.toLowerCase (String c s) = JS.toLowerCase t ->
  exists c' s', t = String c' s' /\ JS.lowerChar c = JS.lowerChar c' /\
                JS.toLowerCase s = JS.toLowerCase s'.
Proof.
  destruct t as [| c' s']; cbn [JS.toLowerCase]; [discriminate |].
  intros [= Hc Hs]. eauto.
Qed.

Lemma toLowerCase_nil_inv t : JS.toLowerCase "" = JS.toLowerCase t -> t = "".
Proof. destruct t; [reflexivity | discriminate]. Qed.

Lemma truthy_lower s t :
  JS.toLowerCase s = JS.toLowerCase t -> JS.truthy s = JS.truthy t.
Proof.
  destruct s as [| c s]; intros H.
  - rewrite (toLowerCase_nil_inv _ H). reflexivity.
  - destruct (toLowerCase_cons_inv _ _ _ H) as (c' & s' & -> & _). reflexivity.
Qed.

Lemma lowerChar_line_end c c' :
  JS.lowerChar c = JS.lowerChar c' ->
  notLineTerminator c = notLineTerminator c'.
Proof.
  assert (H : forall x, notLineTerminator x = notLineTerminator (JS.lowerChar x)).
  { intros x. destruct x as [[] [] [] [] [] [] [] []]; reflexivity. }
  intros E. rewrite (H c), (H c'), E. reflexivity.
Qed.

Lemma lowerChar_idem c : JS.lowerChar (JS.lowerChar c) = JS.lowerChar c.
Proof. destruct c as [[] [] [] [] [] [] [] []]; reflexivity. Qed.

Lemma globMatch_lower pat :
  forall s t, JS.toLowerCase s = JS.toLowerCase t ->
              globMatch pat s = globMatch pat t.
Proof.
  induction pat as [| p pat IH]; intros s t Hst.
  - cbn [globMatch]. destruct s as [| c s].
    + rewrite (toLowerCase_nil_inv _ Hst). reflexivity.
    + destruct (toLowerCase_cons_inv _ _ _ Hst) as (c' & s' & -> & _).
      reflexivity.
  - cbn [globMatch]. destruct (Ascii.eqb p "*").
    + revert t Hst. induction s as [| c s IHs]; intros t Hst.
      * rewrite (toLowerCase_nil_inv _ Hst). reflexivity.
      * destruct (toLowerCase_cons_inv _ _ _ Hst) as (c' & s' & -> & Hc & Hs).
        rewrite (IH _ _ Hst), (lowerChar_line_end _ _ Hc), (IHs _ Hs).
        reflexivity.
    + destruct s as [| c s].
      * rewrite (toLowerCase_nil_inv _ Hst). reflexivity.
      * destruct (toLowerCase_cons_inv _ _ _ Hst) as (c' & s' & -> & Hc & Hs).
        rewrite Hc, (IH _ _ Hs). reflexivity.
Qed.

(** X18.  On ASCII text [matchesFilter] does not see letter case: names
    that agree up to the case of the letters A to Z, and filters that agree
    up to it, give the same answer. *)
Theorem matchesFilter_ignores_letter_case (name name' f f' : string) :
  JS.isAscii name = true -> JS.isAscii name' = true ->
  JS.isAscii f = true -> JS.isAscii f' = true ->
  JS.toLowerCase name = JS.toLowerCase name' ->
  JS.toLowerCase f = JS.toLowerCase f' ->
  matchesFilter (JStr name) (Some f) = matchesFilter (JStr name') (Some f').
Proof.
  intros _ _ _ _ Hn Hf. unfold matchesFilter, JS.orElse.
  rewrite (truthy_lower _ _ Hf).
  destruct (JS.truthy f'); [| reflexivity].
  cbn [truthy]. rewrite (truthy_lower _ _ Hn).
  destruct (JS.truthy name'); cbn [negb]; [| reflexivity].
  cbv zeta. rewrite Hf, Hn. f_equal.
  destruct (_ && _); [reflexivity |].
  destruct (JS.includes (JS.toLowerCase f') "*"); [| reflexivity].
  apply globMatch_lower, Hn.
Qed.

Lemma matchesFilter_ignores_letter_case_sample :
  matchesFilter (JStr "Report.PDF") (Some "*.pdf") = Some true /\
  matchesFilter (JStr "Report.PDF") (Some "*.pdf") =
  matchesFilter (JStr "report.pdf") (Some "*.PDF").
Proof.
  split; [reflexivity |].
  exact (matchesFilter_ignores_letter_case "Report.PDF" "report.pdf"
           "*.pdf" "*.PDF" eq_refl eq_refl eq_refl eq_refl eq_refl eq_refl).
Defined.

(** ** Drive selection *)

Lemma findDrive_find member p xs r :
  findDrive member p xs = inr r -> r = find (passes p) xs.
Proof.
  induction xs as [| x xs IH]; cbn [findDrive find].
  - intros [= <-]. reflexivity.
  - unfold passes at 1.
    destruct x; try discriminate;
      (destruct (p _) as [[|]|]; [intros [= <-]; reflexivity | exact IH
                                 | discriminate]).
Qed.

Lemma findDrive_wellFormed member p xs :
  Forall (fun d => d <> JNull /\ p d <> None) xs ->
  findDrive member p xs = inr (find (passes p) xs).
Proof.
  induction 1 as [| x xs [Hx Hp] _ IH]; [reflexivity |].
  cbn [findDrive find]. unfold passes at 1.
  destruct x; try congruence;
    (destruct (p _) as [[|]|]; [reflexivity | exact IH | congruence]).
Qed.

(** The last stage of [resolveSiteDrive], from the drive selected. *)
Lemma resolve_finish siteId selected w1 info w' :
  match orJ (prop "id" selected) None with
  | Some selectedId =>
      match orJ (match prop "root" selected with
                 | Some r => prop "id" r
                 | None => None
                 end) None with
      | Some rootItemId =>
          ret {| di_driveId := selectedId;
                 di_driveName :=
                   match orJ (prop "name" selected) None with
                   | Some n => n
                   | None => selectedId
                   end;
                 di_rootItemId := rootItemId |}
      | None =>
          if stringThrows selectedId then throw cannotConvert
          else
            bind (makeRequest
                    ("/drives/" ++ JS.encodeURIComponent (toString selectedId) ++
                     "/root") (optionsOfMethod "GET"))
              (fun driveRoot =>
                 match orJ (prop "id" driveRoot) None with
                 | Some rootItemId =>
                     ret {| di_driveId := selectedId;
                            di_driveName :=
                              match orJ (prop "name" selected) None with
                              | Some n => n
                              | None => selectedId
                              end;
                            di_rootItemId := rootItemId |}
                 | None =>
                     throw (OtherError
                       ("Failed to resolve drive root item for siteId=" ++
                        siteId ++ ", driveId=" ++ toString selectedId ++
                        " (missing root id)"))
                 end)
      end
  | None =>
      throw (OtherError ("Failed to resolve drive for siteId=" ++ siteId ++
                         " (missing drive id)"))
  end w1 = (inr info, w') ->
  prop "id" selected = Some (di_driveId info) /\
  truthy (di_driveId info) = true /\
  di_driveName info =
    match orJ (prop "name" selected) None with
    | Some n => n
    | None => di_driveId info
    end /\
  (truthyOpt (match prop "root" selected with
              | Some r => prop "id" r
              | None => None
              end) = true -> w' = w1).
Proof.
  unfold orJ at 1.
  destruct (prop "id" selected) as [i|]; cbn [truthyOpt]; [| discriminate].
  destruct (truthy i) eqn:Hi; [| discriminate].
  unfold orJ at 1.
  destruct (truthyOpt (match prop "root" selected with
                       | Some r => prop "id" r
                       | None => None
                       end)) eqn:Hroot.
  - destruct (match prop "root" selected with
              | Some r => prop "id" r
              | None => None
              end) as [rootId|]; [| discriminate Hroot].
    intros [= <- <-]. cbn. auto.
  - destruct (stringThrows i); [discriminate |].
    unfold bind.
    destruct (makeRequest _ _ w1) as [[e|driveRoot] w2]; [discriminate |].
    destruct (orJ (prop "id" driveRoot) None); [| discriminate].
    intros [= <- <-]. cbn. split; [reflexivity |]. split; [exact Hi |].
    split; [reflexivity | discriminate].
Qed.

Lemma selection_run {A : Type} driveId driveName d0 ds (k : json -> M A)
    w1 (a : A) w' :
  selection driveId driveName d0 ds k w1 = (inr a, w') ->
  exists selected,
    selectDrive driveId driveName (d0 :: ds) = Some selected /\
    In selected (d0 :: ds) /\
    k selected w1 = (inr a, w').
Proof.
  unfold selection, selectDrive.
  set (drives := d0 :: ds).
  assert (Hin : forall p d, find p drives = Some d -> In d drives).
  { intros p d H. exact (proj1 (find_some _ _ H)). }
  assert (Hpref :
    bind (bind (match findDrive "name" driveIsPreferred drives with
                | inl e => throw e
                | inr x => ret x
                end)
            (fun preferred =>
               ret (match preferred with Some d => d | None => d0 end))) k w1
      = (inr a, w') ->
    exists selected,
      match find (passes driveIsPreferred) drives with
      | Some d => Some d
      | None => hd_error drives
      end = Some selected /\ In selected drives /\ k selected w1 = (inr a, w')).
  { destruct (findDrive "name" driveIsPreferred drives) as [e|preferred] eqn:E;
      [discriminate |].
    rewrite <- (findDrive_find _ _ _ _ E).
    destruct preferred as [d|]; intros H.
    - exists d. split; [reflexivity |].
      split; [apply (Hin (passes driveIsPreferred)); symmetry;
              exact (findDrive_find _ _ _ _ E) | exact H].
    - exists d0. split; [reflexivity |]. split; [now left | exact H]. }
  assert (Hname :
    bind (if JS.isTruthy driveName
          then match findDrive "name" (driveHasName driveName) drives with
               | inl e => throw e
               | inr x => ret x
               end
          else ret None)
      (fun byName =>
         bind (match byName with
               | Some d => ret d
               | None =>
                   bind (match findDrive "name" driveIsPreferred drives with
                         | inl e => throw e
                         | inr x => ret x
                         end)
                     (fun preferred =>
                        ret (match preferred with
                             | Some d => d
                             | None => d0
                             end))
               end) k) w1 = (inr a, w') ->
    exists selected,
      match (if JS.isTruthy driveName
             then find (passes (driveHasName driveName)) drives else None) with
      | Some d => Some d
      | None =>
          match find (passes driveIsPreferred) drives with
          | Some d => Some d
          | None => hd_error drives
          end
      end = Some selected /\ In selected drives /\ k selected w1 = (inr a, w')).
  { destruct (JS.isTruthy driveName); [| exact Hpref].
    destruct (findDrive "name" (driveHasName driveName) drives)
      as [e|byName] eqn:E; [discriminate |].
    rewrite <- (findDrive_find _ _ _ _ E).
    destruct byName as [d|]; [| exact Hpref].
    intros H. exists d. split; [reflexivity |].
    split; [apply (Hin (passes (driveHasName driveName))); symmetry;
            exact (findDrive_find _ _ _ _ E) | exact H]. }
  destruct (JS.isTruthy driveId); [| exact Hname].
  destruct (findDrive "id" (driveHasId driveId) drives) as [e|byId] eqn:E;
    [discriminate |].
  rewrite <- (findDrive_find _ _ _ _ E).
  destruct byId as [d|]; [| exact Hname].
  intros H. exists d. split; [reflexivity |].
  split; [apply (Hin (passes (driveHasId driveId))); symmetry;
          exact (findDrive_find _ _ _ _ E) | exact H].
Qed.

(** On drives none of which makes a test throw, the selection goes through. *)
Lemma selection_total {A : Type} driveId driveName d0 ds (k : json -> M A) w1 :
  Forall (fun d => d <> JNull /\ driveHasId driveId d <> None /\
                   driveHasName driveName d <> None /\
                   driveIsPreferred d <> None) (d0 :: ds) ->
  exists selected,
    selectDrive driveId driveName (d0 :: ds) = Some selected /\
    In selected (d0 :: ds) /\
    selection driveId driveName d0 ds k w1 = k selected w1.
Proof.
  intros Hall.
  unfold selection, selectDrive.
  set (drives := d0 :: ds) in *.
  assert (Hin : forall p d, find p drives = Some d -> In d drives).
  { intros p d H. exact (proj1 (find_some _ _ H)). }
  rewrite !(findDrive_wellFormed "name" driveIsPreferred drives),
          !(findDrive_wellFormed "name" (driveHasName driveName) drives),
          !(findDrive_wellFormed "id" (driveHasId driveId) drives)
    by (eapply Forall_impl; [| exact Hall]; cbn beta; tauto).
  destruct (JS.isTruthy driveId);
    [destruct (find (passes (driveHasId driveId)) drives) as [d|] eqn:E1;
     [exists d; split; [reflexivity |];
      split; [exact (Hin _ _ E1) | reflexivity] |] |];
    (destruct (JS.isTruthy driveName);
     [destruct (find (passes (driveHasName driveName)) drives) as [d|] eqn:E2;
      [exists d; split; [reflexivity |];
       split; [exact (Hin _ _ E2) | reflexivity] |] |];
     (destruct (find (passes driveIsPreferred) drives) as [d|] eqn:E3;
      [exists d; split; [reflexivity |];
       split; [exact (Hin _ _ E3) | reflexivity]
      | exists d0; split; [reflexivity |];
        split; [now left | reflexivity]])).
Qed.

(** What a call of [resolveSiteDrive] that returns has gone through. *)
Lemma resolveSiteDrive_run siteId driveId driveName w info w' :
  resolveSiteDrive siteId driveId driveName w = (inr info, w') ->
  exists result w1 drives selected,
    makeRequest ("/sites/" ++ JS.encodeURIComponent siteId ++ "/drives")
      (optionsOfMethod "GET") w = (inr result, w1) /\
    prop "value" result = Some (JArr drives) /\
    selectDrive driveId driveName drives = Some selected /\
    In selected drives /\
    prop "id" selected = Some (di_driveId info) /\
    truthy (di_driveId info) = true /\
    di_driveName info =
      match orJ (prop "name" selected) None with
      | Some n => n
      | None => di_driveId info
      end /\
    (truthyOpt (match prop "root" selected with
                | Some r => prop "id" r
                | None => None
                end) = true -> w' = w1).
Proof.
  unfold resolveSiteDrive.
  set (endpoint := "/sites/" ++ JS.encodeURIComponent siteId ++ "/drives").
  unfold bind at 1.
  destruct (makeRequest endpoint (optionsOfMethod "GET") w) as [[e|result] w1];
    [discriminate |].
  unfold orJ at 1.
  destruct (prop "value" result) as [v|] eqn:Hvalue; cbn [truthyOpt];
    [| discriminate].
  destruct (truthy v) eqn:Htruthy; [| discriminate].
  destruct v as [| | | | [| d0 ds] |]; try discriminate.
  cbv zeta. intros Hrun.
  apply (selection_run driveId driveName d0 ds) in Hrun.
  destruct Hrun as (selected & Hsel & Hin & Hrun).
  exists result, w1, (d0 :: ds), selected.
  split; [reflexivity |]. split; [exact Hvalue |].
  split; [exact Hsel |]. split; [exact Hin |].
  exact (resolve_finish siteId selected w1 info w' Hrun).
Qed.

(** On a listing of drives as the code declares them, [resolveSiteDrive]
    returns with the drive selected and without a second request. *)
Lemma resolveSiteDrive_total_run siteId driveId driveName w result w1 d0 ds :
  makeRequest ("/sites/" ++ JS.encodeURIComponent siteId ++ "/drives")
    (optionsOfMethod "GET") w = (inr result, w1) ->
  prop "value" result = Some (JArr (d0 :: ds)) ->
  Forall (fun d => wellFormedDrive d = true) (d0 :: ds) ->
  exists info, resolveSiteDrive siteId driveId driveName w = (inr info, w1).
Proof.
  intros Hreq Hvalue Hall.
  unfold resolveSiteDrive, bind at 1. rewrite Hreq.
  unfold orJ at 1. rewrite Hvalue. cbn [truthyOpt truthy]. cbv zeta.
  destruct (selection_total driveId driveName d0 ds
              (fun selected =>
                 match orJ (prop "id" selected) None with
                 | Some selectedId =>
                     match orJ (match prop "root" selected with
                                | Some r => prop "id" r
                                | None => None
                                end) None with
                     | Some rootItemId =>
                         ret {| di_driveId := selectedId;
                                di_driveName :=
                                  match orJ (prop "name" selected) None with
                                  | Some n => n
                                  | None => selectedId
                                  end;
                                di_rootItemId := rootItemId |}
                     | None =>
                         if stringThrows selectedId then throw cannotConvert
                         else
                           bind (makeRequest
                                   ("/drives/" ++
                                    JS.encodeURIComponent (toString selectedId) ++
                                    "/root") (optionsOfMethod "GET"))
                             (fun driveRoot =>
                                match orJ (prop "id" driveRoot) None with
                                | Some rootItemId =>
                                    ret {| di_driveId := selectedId;
                                           di_driveName :=
                                             match orJ (prop "name" selected) None with
                                             | Some n => n
                                             | None => selectedId
                                             end;
                                           di_rootItemId := rootItemId |}
                                | None =>
                                    throw (OtherError
                                      ("Failed to resolve drive root item for siteId=" ++
                                       siteId ++ ", driveId=" ++
                                       toString selectedId ++
                                       " (missing root id)"))
                                end)
                     end
                 | None =>
                     throw (OtherError
                       ("Failed to resolve drive for siteId=" ++ siteId ++
                        " (missing drive id)"))
                 end) w1) as (selected & _ & Hin & Hrun).
  { eapply Forall_impl; [| exact Hall]. intros d Hd.
    unfold wellFormedDrive in Hd.
    apply andb_true_iff in Hd as [Hd _]. apply andb_true_iff in Hd as [Hid Hname].
    unfold driveHasId, driveHasName, driveIsPreferred, whenText.
    destruct d; cbn [prop] in *; try discriminate.
    destruct (get "id" _) as [[| | | s | |]|]; try discriminate.
    destruct (get "name" _) as [[| | | s' | |]|]; try discriminate;
      repeat split; discriminate. }
  unfold selection in Hrun. rewrite Hrun.
  rewrite Forall_forall in Hall. specialize (Hall selected Hin).
  unfold wellFormedDrive in Hall.
  apply andb_true_iff in Hall as [Hall Hroot].
  apply andb_true_iff in Hall as [Hid _].
  destruct (prop "id" selected) as [[| | | s | |]|]; try discriminate.
  unfold orJ at 1. cbn [truthyOpt truthy]. rewrite Hid.
  unfold orJ at 1. rewrite Hroot.
  destruct (match prop "root" selected with
            | Some r => prop "id" r
            | None => None
            end); [| discriminate].
  eexists. reflexivity.
Qed.

Lemma find_existsb {A : Type} (p : A -> bool) (l : list A) :
  existsb p l = true -> exists x, find p l = Some x.
Proof.
  induction l as [| x l IH]; cbn [existsb find]; [discriminate |].
  destruct (p x); [eauto | exact IH].
Qed.

Lemma find_not_existsb {A : Type} (p : A -> bool) (l : list A) :
  existsb p l = false -> find p l = None.
Proof.
  induction l as [| x l IH]; cbn [existsb find]; [reflexivity |].
  destruct (p x); [discriminate | exact IH].
Qed.

(** A test that fails on a missing member passes on text only. *)
Lemma passes_text (v : json -> option json) f d :
  f None = false ->
  passes (fun d => whenText (v d) f) d = true ->
  exists s, v d = Some (JStr s) /\ f (Some s) = true.
Proof.
  intros Hnone. unfold passes, whenText.
  destruct (v d) as [[| | | s | |]|]; cbn [truthy];
    rewrite ?Hnone; try discriminate;
    try (destruct (negb _); discriminate);
    try (destruct b; discriminate).
  destruct (f (Some s)) eqn:E; [| discriminate].
  intros _. exists s. auto.
Qed.

(** X19.  The drive [resolveSiteDrive] returns is one of the drives the site
    lists, by this rule: the first drive with the requested id when there is
    one, else the first drive with the requested name when there is one (ids
    and names compared trimmed and without letter case); else the first drive
    under one of the names dokumente, documents, shared documents when there
    is one, else the first drive.  Stated for requested and listed ids and
    names in ASCII text. *)
Theorem resolveSiteDrive_selection_rule
    (siteId : string) (driveId driveName : option string) (w : World)
    (result : json) (w1 : World) (drives : list json)
    (info : SharePointDriveInfo) (w' : World) :
  makeRequest ("/sites/" ++ JS.encodeURIComponent siteId ++ "/drives")
    (optionsOfMethod "GET") w = (inr result, w1) ->
  prop "value" result = Some (JArr drives) ->
  asciiOpt driveId = true ->
  asciiOpt driveName = true ->
  Forall (fun d => asciiText (prop "id" d) = true /\
                   asciiText (prop "name" d) = true) drives ->
  resolveSiteDrive siteId driveId driveName w = (inr info, w') ->
  exists selected,
    In selected drives /\
    prop "id" selected = Some (di_driveId info) /\
    selectDrive driveId driveName drives = Some selected /\
    (JS.isTruthy driveId = true ->
     existsb (passes (driveHasId driveId)) drives = true ->
     exists s, di_driveId info = JStr s /\
               normalize (Some s) = normalize driveId) /\
    (JS.isTruthy driveName = true ->
     JS.isTruthy driveId = false \/
       existsb (passes (driveHasId driveId)) drives = false ->
     existsb (passes (driveHasName driveName)) drives = true ->
     exists s, di_driveName info = JStr s /\
               normalize (Some s) = normalize driveName) /\
    (JS.isTruthy driveId = false \/
       existsb (passes (driveHasId driveId)) drives = false ->
     JS.isTruthy driveName = false \/
       existsb (passes (driveHasName driveName)) drives = false ->
     (existsb (passes driveIsPreferred) drives = true ->
      exists s, di_driveName info = JStr s /\
                JS.arrayIncludes ["dokumente"; "documents"; "shared documents"]
                  (normalize (Some s)) = true) /\
     (existsb (passes driveIsPreferred) drives = false ->
      hd_error drives = Some selected)).
Proof.
  intros Hreq Hvalue _ _ _ Hrun.
  destruct (resolveSiteDrive_run _ _ _ _ _ _ Hrun)
    as (result' & w1' & drives' & selected & Hreq' & Hvalue' & Hsel & Hin &
        Hid & Hidt & Hname & _).
  rewrite Hreq in Hreq'. injection Hreq' as <- <-.
  rewrite Hvalue in Hvalue'. injection Hvalue' as <-.
  exists selected.
  split; [exact Hin |]. split; [exact Hid |]. split; [exact Hsel |].
  assert (HbyId : (if JS.isTruthy driveId
                   then find (passes (driveHasId driveId)) drives
                   else None) = None <->
                  (JS.isTruthy driveId = false \/
                   existsb (passes (driveHasId driveId)) drives = false)).
  { destruct (JS.isTruthy driveId); split; auto.
    - intros H. right.
      destruct (existsb (passes (driveHasId driveId)) drives) eqn:E;
        [| reflexivity].
      apply find_existsb in E as [d E]. congruence.
    - intros [H | H]; [discriminate | apply find_not_existsb, H]. }
  assert (HbyName : (if JS.isTruthy driveName
                     then find (passes (driveHasName driveName)) drives
                     else None) = None <->
                    (JS.isTruthy driveName = false \/
                     existsb (passes (driveHasName driveName)) drives = false)).
  { destruct (JS.isTruthy driveName); split; auto.
    - intros H. right.
      destruct (existsb (passes (driveHasName driveName)) drives) eqn:E;
        [| reflexivity].
      apply find_existsb in E as [d E]. congruence.
    - intros [H | H]; [discriminate | apply find_not_existsb, H]. }
  unfold selectDrive in Hsel.
  split; [| split].
  - intros Ht He. rewrite Ht in Hsel.
    apply find_existsb in He as [d He]. rewrite He in Hsel.
    injection Hsel as <-. apply find_some in He as [_ He].
    apply (passes_text (prop "id")) in He as (s & Hs & He); [| reflexivity].
    apply andb_true_iff in He as [_ He]. apply String.eqb_eq in He.
    exists s. split; [congruence | exact He].
  - intros Ht Hno He. apply HbyId in Hno. rewrite Hno, Ht in Hsel.
    apply find_existsb in He as [d He]. rewrite He in Hsel.
    injection Hsel as <-. apply find_some in He as [_ He].
    apply (passes_text (prop "name")) in He as (s & Hs & He); [| reflexivity].
    apply andb_true_iff in He as [Hn He]. apply String.eqb_eq in He.
    exists s. split; [| exact He].
    rewrite Hname, Hs. unfold orJ. cbn [truthyOpt truthy].
    cbn [JS.isTruthy] in Hn. rewrite Hn. reflexivity.
  - intros Hno1 Hno2. apply HbyId in Hno1. apply HbyName in Hno2.
    rewrite Hno1, Hno2 in Hsel. split.
    + intros He. apply find_existsb in He as [d He]. rewrite He in Hsel.
      injection Hsel as <-. apply find_some in He as [_ He].
      apply (passes_text (prop "name")) in He as (s & Hs & He);
        [| reflexivity].
      exists s. split; [| exact He].
      rewrite Hname, Hs. unfold orJ. cbn [truthyOpt truthy].
      destruct (JS.truthy s) eqn:Hn; [reflexivity |].
      unfold normalize, JS.orElse in He. rewrite Hn in He. discriminate He.
    + intros He. rewrite (find_not_existsb _ _ He) in Hsel. exact Hsel.
Qed.

(** X20.  A requested drive id or name that no drive of the site has is not
    an error: when the listing succeeds and is not empty, and every drive in
    it is an object with a non-empty string for its id, a string or nothing
    for its name and a root item id, [resolveSiteDrive] returns one of the
    listed drives whatever [driveId] and [driveName] are, and sends nothing
    beyond the listing request. *)
Theorem an_unknown_drive_is_not_an_error
    (siteId : string) (driveId driveName : option string) (w : World)
    (result : json) (w1 : World) (d0 : json) (ds : list json) :
  makeRequest ("/sites/" ++ JS.encodeURIComponent siteId ++ "/drives")
    (optionsOfMethod "GET") w = (inr result, w1) ->
  prop "value" result = Some (JArr (d0 :: ds)) ->
  Forall (fun d => wellFormedDrive d = true) (d0 :: ds) ->
  exists info d,
    resolveSiteDrive siteId driveId driveName w = (inr info, w1) /\
    In d (d0 :: ds) /\ prop "id" d = Some (di_driveId info).
Proof.
  intros Hreq Hvalue Hall.
  destruct (resolveSiteDrive_total_run siteId driveId driveName _ _ _ _ _
              Hreq Hvalue Hall) as [info Hrun].
  destruct (resolveSiteDrive_run _ _ _ _ _ _ Hrun)
    as (result' & w1' & drives & selected & Hreq' & Hvalue' & _ & Hin & Hid & _).
  rewrite Hreq in Hreq'. injection Hreq' as <- <-.
  rewrite Hvalue in Hvalue'. injection Hvalue' as <-.
  exists info, selected. auto.
Qed.

Lemma resolveSiteDrive_selection_rule_sample :
  fst (resolveSiteDrive "site-1" (Some " B!PLANS ") None
         (plainWorld twoLibraries)) =
    inr {| di_driveId := JStr "b!Plans"; di_driveName := JStr "Plans";
           di_rootItemId := JStr "root-p" |} /\
  exists selected,
    In selected [library "b!Archive" "Archive" "root-a";
                 library "b!Plans" "Plans" "root-p"] /\
    prop "id" selected = Some (JStr "b!Plans") /\
    selectDrive (Some " B!PLANS ") None
      [library "b!Archive" "Archive" "root-a";
       library "b!Plans" "Plans" "root-p"] = Some selected.
Proof.
  split; [reflexivity |].
  destruct (resolveSiteDrive_selection_rule "site-1" (Some " B!PLANS ") None
              (plainWorld twoLibraries)
              (JObj [("value", JArr [library "b!Archive" "Archive" "root-a";
                                     library "b!Plans" "Plans" "root-p"])])
              (snd (makeRequest "/sites/site-1/drives" (optionsOfMethod "GET")
                      (plainWorld twoLibraries)))
              [library "b!Archive" "Archive" "root-a";
               library "b!Plans" "Plans" "root-p"]
              {| di_driveId := JStr "b!Plans"; di_driveName := JStr "Plans";
                 di_rootItemId := JStr "root-p" |}
              (snd (resolveSiteDrive "site-1" (Some " B!PLANS ") None
                      (plainWorld twoLibraries)))
              eq_refl eq_refl eq_refl eq_refl)
    as (selected & Hin & Hid & Hsel & _).
  - constructor; [split; reflexivity |].
    constructor; [split; reflexivity | constructor].
  - reflexivity.
  - exists selected. split; [exact Hin |]. split; [exact Hid | exact Hsel].
Defined.

Lemma an_unknown_drive_is_not_an_error_sample :
  exists info d,
    resolveSiteDrive "site-1" (Some "no-such-drive") (Some "Documents")
      (plainWorld twoLibraries) =
      (inr info,
       snd (makeRequest "/sites/site-1/drives" (optionsOfMethod "GET")
              (plainWorld twoLibraries))) /\
    In d [library "b!Archive" "Archive" "root-a";
          library "b!Plans" "Plans" "root-p"] /\
    prop "id" d = Some (di_driveId info).
Proof.
  apply (an_unknown_drive_is_not_an_error "site-1" (Some "no-such-drive")
           (Some "Documents") (plainWorld twoLibraries)
           (JObj [("value", JArr [library "b!Archive" "Archive" "root-a";
                                  library "b!Plans" "Plans" "root-p"])])).
  - reflexivity.
  - reflexivity.
  - constructor; [reflexivity |].
    constructor; [reflexivity | constructor].
Defined.

(** ** The collector reads only *)


Lemma steps_resolveSiteDrive siteId driveId driveName :
  Steps (Sent isRead) (resolveSiteDrive siteId driveId driveName).
Proof.
  unfold resolveSiteDrive, isRead. cbv beta zeta.
  steps_with (sent_refl (builtFrom (optionsOfMethod "GET")))
    (sent_trans (builtFrom (optionsOfMethod "GET")))
    ltac:(apply steps_makeRequest).
Qed.

Lemma steps_listPages fuel :
  forall endpoint items, Steps (Sent isRead) (listPages fuel endpoint items).
Proof.
  unfold isRead.
  induction fuel as [| fuel IH]; intros endpoint items; cbn [listPages].
  - apply steps_throw, sent_refl.
  - apply (steps_bind _ (sent_trans _)); [apply steps_makeRequest |].
    intros response. cbv zeta.
    destruct (prop "@odata.nextLink" response) as [[| | | nextLink | |]|];
      try apply steps_ret, sent_refl.
    destruct (JS.truthy nextLink); [| apply steps_ret, sent_refl].
    destruct (URL.parse nextLink); [apply IH | apply steps_ret, sent_refl].
Qed.

Lemma steps_listDriveItemChildren fuel driveId driveItemId pageSize :
  Steps (Sent isRead) (listDriveItemChildren fuel driveId driveItemId pageSize).
Proof.
  unfold listDriveItemChildren.
  destruct (_ || _); [apply steps_throw, sent_refl | apply steps_listPages].
Qed.

Section WalkReads.

Variable o : ListSharePointSiteFilesOptions.
Variable driveInfo : SharePointDriveInfo.
Variable pageFuel : nat.

Lemma steps_walkChildren recurse currentPath depth :
  (forall f, recurse = Some f ->
     forall id path d st, Steps (Sent isRead) (f id path d st)) ->
  forall children childNodes st,
    Steps (Sent isRead)
      (walkChildren o driveInfo recurse currentPath depth children childNodes st).
Proof.
  intros Hrec. induction children as [| item rest IH]; intros childNodes st.
  - apply steps_ret, sent_refl.
  - assert (Hbody : forall item',
      Steps (Sent isRead)
        (if stringThrows (itemName item') then throw cannotConvert
         else
           match emits o item' with
           | None => throw notAFunction
           | Some pushed =>
               if itemIsFolder item' then
                 if depth <? effectiveMaxDepth o then
                   match recurse with
                   | Some walk =>
                       bind (walk (prop "id" item')
                               (childPathOf currentPath
                                  (toString (itemName item')))
                               (depth + 1)
                               (if pushed
                                then pushFlat
                                       (baseNode (o_siteId o)
                                          (di_driveId driveInfo) item'
                                          (childPathOf currentPath
                                             (toString (itemName item')))) st
                                else st))
                         (fun r =>
                            walkChildren o driveInfo recurse currentPath depth
                              rest (childNodes ++ [fst r]) (snd r))
                   | None =>
                       walkChildren o driveInfo recurse currentPath depth rest
                         childNodes
                         (setTruncated
                            (if pushed
                             then pushFlat
                                    (baseNode (o_siteId o)
                                       (di_driveId driveInfo) item'
                                       (childPathOf currentPath
                                          (toString (itemName item')))) st
                             else st))
                   end
                 else
                   walkChildren o driveInfo recurse currentPath depth rest
                     childNodes
                     (setTruncated
                        (if pushed
                         then pushFlat
                                (baseNode (o_siteId o)
                                   (di_driveId driveInfo) item'
                                   (childPathOf currentPath
                                      (toString (itemName item')))) st
                         else st))
               else
                 match structure o with
                 | tree =>
                     walkChildren o driveInfo recurse currentPath depth rest
                       (childNodes ++
                        [baseNode (o_siteId o) (di_driveId driveInfo) item'
                           (childPathOf currentPath
                              (toString (itemName item')))])
                       (if pushed
                        then pushFlat
                               (baseNode (o_siteId o)
                                  (di_driveId driveInfo) item'
                                  (childPathOf currentPath
                                     (toString (itemName item')))) st
                        else st)
                 | flat =>
                     walkChildren o driveInfo recurse currentPath depth rest
                       childNodes
                       (if pushed
                        then pushFlat
                               (baseNode (o_siteId o)
                                  (di_driveId driveInfo) item'
                                  (childPathOf currentPath
                                     (toString (itemName item')))) st
                        else st)
                 end
           end)).
    { intros item'.
      destruct (stringThrows _); [apply steps_throw, sent_refl |].
      destruct (emits o item') as [pushed|]; [| apply steps_throw, sent_refl].
      destruct (itemIsFolder item').
      - destruct (depth <? effectiveMaxDepth o); [| apply IH].
        destruct recurse as [f|]; [| apply IH].
        apply (steps_bind _ (sent_trans _)); [apply (Hrec f eq_refl) |].
        intros r. apply IH.
      - destruct (structure o); apply IH. }
    destruct item;
      [apply steps_throw, sent_refl | ..];
      match goal with
      | |- Steps _ (walkChildren _ _ _ _ _ (?i :: _) _ _) => exact (Hbody i)
      end.
Qed.

Lemma steps_walk levels :
  forall id path depth st,
    Steps (Sent isRead) (walk o driveInfo pageFuel levels id path depth st).
Proof.
  induction levels as [| levels IH]; intros id path depth st;
    cbn [walk];
    (apply (steps_bind _ (sent_trans _));
     [apply steps_listDriveItemChildren |];
     intros children;
     apply (steps_bind _ (sent_trans _));
     [| intros r; apply steps_ret, sent_refl];
     apply steps_walkChildren).
  - intros f Hf. discriminate Hf.
  - intros f [= <-]. apply IH.
Qed.

End WalkReads.

Lemma steps_collectSharePointFiles pageFuel o :
  Steps (Sent isRead) (collectSharePointFiles pageFuel o).
Proof.
  unfold collectSharePointFiles.
  apply (steps_bind _ (sent_trans _)); [apply steps_resolveSiteDrive |].
  intros driveInfo.
  apply (steps_bind _ (sent_trans _)); [apply steps_walk |].
  intros r. apply steps_ret, sent_refl.
Qed.

(** X21.  Whatever the options and the service, the requests
    [collectSharePointFiles] sends to the Graph service are GET requests
    without a body, to URLs under [https://graph.microsoft.com/v1.0], with
    the [Authorization] and [Content-Type] headers alone.  Beside them the
    client calls the token endpoint, to refresh its access token, at
    most once for every request to the Graph service. *)
Theorem collecting_files_only_reads
    (pageFuel : nat) (o : ListSharePointSiteFilesOptions) (w : World) :
  exists l c,
    sent (snd (collectSharePointFiles pageFuel o w)) = (sent w ++ l)%list /\
    refreshCalls (snd (collectSharePointFiles pageFuel o w)) =
      (refreshCalls w ++ c)%list /\
    (length c <= length l)%nat /\
    Forall (fun req =>
              method req = "GET" /\ req_body req = None /\
              JS.startsWith (url req) "https://graph.microsoft.com/v1.0" = true /\
              map fst (req_headers req) = ["Authorization"; "Content-Type"])
           l.
Proof.
  destruct (steps_collectSharePointFiles pageFuel o w)
    as (_ & l & c & Hs & Hall & Hc & Hn).
  exists l, c. split; [exact Hs |]. split; [exact Hc |]. split; [exact Hn |].
  eapply Forall_impl; [| exact Hall].
  intros req (e & t & ->).
  split; [reflexivity |]. split; [reflexivity |].
  split; [apply requestFor_url | reflexivity].
Qed.

(** ** The walk of the collector *)

Lemma bind_inr {A B : Type} (m : M A) (f : A -> M B) w a w1 :
  m w = (inr a, w1) -> bind m f w = f a w1.
Proof. intros H. unfold bind. rewrite H. reflexivity. Qed.

Lemma leaves_folder n kids :
  n_isFolder n = true -> n_children n = Some kids ->
  leaves n = flat_map leaves kids.
Proof.
  destruct n; cbn [n_isFolder n_children]. intros -> ->. reflexivity.
Qed.

Lemma leaves_file n : n_isFolder n = false -> leaves n = [n].
Proof. destruct n; cbn [n_isFolder]. intros ->. reflexivity. Qed.

Lemma folders_folder n kids :
  n_isFolder n = true -> n_children n = Some kids ->
  folders n = (n_driveItemId n, n_path n) :: flat_map folders kids.
Proof.
  destruct n; cbn [n_isFolder n_children]. intros -> ->.
  reflexivity.
Qed.

Lemma folders_file n : n_isFolder n = false -> folders n = [].
Proof. destruct n; cbn [n_isFolder]. intros ->. reflexivity. Qed.

Lemma matchesFilter_text s f : exists b, matchesFilter (JStr s) f = Some b.
Proof.
  unfold matchesFilter. destruct (JS.orElse f None); [| eauto].
  destruct (negb _); eauto.
Qed.

Lemma childPathOf_truthy p n : JS.truthy (childPathOf p n) = true.
Proof.
  unfold childPathOf. destruct (String.eqb p "/"); [reflexivity |].
  destruct p; reflexivity.
Qed.

Lemma ok_status r : ok r = true -> (status r =? 401) = false /\ classify r = inr r.
Proof.
  intros Hok. unfold classify. rewrite Hok. cbn [negb].
  unfold ok in Hok. apply andb_true_iff in Hok as [H1 H2].
  apply Z.leb_le in H1, H2.
  split; [apply Z.eqb_neq; lia |].
  replace (status r =? 403) with false by (symmetry; apply Z.eqb_neq; lia).
  reflexivity.
Qed.

Lemma afterRequests_nil w : afterRequests [] w = w.
Proof. unfold afterRequests. rewrite app_nil_r. destruct w; reflexivity. Qed.

Lemma afterRequests_app l1 l2 w :
  afterRequests l2 (afterRequests l1 w) = afterRequests (l1 ++ l2) w.
Proof.
  unfold afterRequests. cbn [set_sent sent]. rewrite app_assoc. reflexivity.
Qed.

Lemma ready_afterRequests tok g reqs w :
  Ready tok g w -> Ready tok g (afterRequests reqs w).
Proof. intros [H1 H2]. split; assumption. Qed.

(** A page the service holds is fetched with one request. *)
Lemma makeRequest_page tok g endpoint items next w :
  Page g endpoint items next ->
  Ready tok g w ->
  exists response,
    makeRequest endpoint (optionsOfMethod "GET") w =
      (inr response, afterRequests [pageRequest tok endpoint] w) /\
    pageItems response = items /\
    nextEndpoint response = next.
Proof.
  intros Hpage [Hg Htok].
  destruct (Hpage (length (sent w)) tok) as (r & Hr & Hok & Hitems & Hnext).
  rewrite <- Hg in Hr.
  destruct (ok_status r Hok) as [H401 Hclass].
  exists (decodeBody r). split; [| split; assumption].
  unfold makeRequest.
  rewrite (bind_inr _ _ _ r (afterRequests [pageRequest tok endpoint] w)).
  - reflexivity.
  - unfold pageRequest in *.
    rewrite (requestWithRefresh_direct _ _ _ _ _ Htok Hr H401), Hclass.
    reflexivity.
Qed.

(** One turn of the loop of [listDriveItemChildren]. *)
Lemma listPages_step fuel endpoint acc w :
  listPages (S fuel) endpoint acc w =
    bind (makeRequest endpoint (optionsOfMethod "GET"))
      (fun response =>
         match nextEndpoint response with
         | Some next => listPages fuel next (acc ++ pageItems response)%list
         | None => ret (acc ++ pageItems response)%list
         end) w.
Proof.
  cbn [listPages]. unfold bind.
  destruct (makeRequest endpoint (optionsOfMethod "GET") w)
    as [[e | response] w1]; [reflexivity |].
  cbv zeta. unfold pageItems, nextEndpoint.
  assert (Hitems :
    match orJ (prop "value" response) None with
    | Some (JArr pageItems) => (acc ++ pageItems)%list
    | _ => acc
    end =
    (acc ++ match orJ (prop "value" response) None with
            | Some (JArr items) => items
            | _ => []
            end)%list).
  { destruct (orJ (prop "value" response) None) as [[| | | | xs |]|];
      rewrite ?app_nil_r; reflexivity. }
  rewrite Hitems.
  destruct (prop "@odata.nextLink" response) as [[| | | nextLink | |]|];
    try reflexivity.
  destruct (JS.truthy nextLink); [| reflexivity].
  destruct (URL.parse nextLink); reflexivity.
Qed.

(** A listing the service holds in pages is fetched page by page. *)
Lemma listPages_served tok g endpoints items :
  Paged g endpoints items ->
  forall fuel acc w,
    (length endpoints <= fuel)%nat ->
    Ready tok g w ->
    listPages fuel (hd "" endpoints) acc w =
      (inr (acc ++ items)%list,
       afterRequests (map (pageRequest tok) endpoints) w).
Proof.
  induction 1 as [endpoint items Hpage
                 | endpoint next rest items more Hpage _ IH];
    intros fuel acc w Hfuel Hw;
    (destruct fuel as [| fuel]; [cbn [length] in Hfuel; lia |]);
    rewrite listPages_step;
    destruct (makeRequest_page tok g endpoint items _ w Hpage Hw)
      as (response & Hrun & Hitems & Hnext);
    rewrite (bind_inr _ _ _ _ _ Hrun), Hnext, Hitems.
  - reflexivity.
  - change next with (hd "" (next :: rest)).
    rewrite IH;
      [| cbn [length] in *; lia | apply ready_afterRequests; exact Hw].
    rewrite afterRequests_app, app_assoc. reflexivity.
Qed.

(** A folder the service holds is listed with the requests for its
    pages. *)
Lemma listDriveItemChildren_served pageFuel o driveId pagesOf tok g id items w :
  hd_error (pagesOf id) = Some (childrenEndpoint driveId id (pageSize o)) ->
  (length (pagesOf id) <= pageFuel)%nat ->
  Paged g (pagesOf id) items ->
  Ready tok g w ->
  stringThrows driveId = false ->
  writable id = true ->
  listDriveItemChildren pageFuel driveId id (pageSize o) w =
    (inr items, afterRequests (listings tok pagesOf [id]) w).
Proof.
  intros Hhd Hfuel Hpaged Hw Hdrive Hid.
  unfold listDriveItemChildren. rewrite Hdrive.
  replace (match id with Some i => stringThrows i | None => false end)
    with false
    by (destruct id as [i|]; [| reflexivity];
        cbn [writable] in Hid; destruct (stringThrows i);
        [discriminate | reflexivity]).
  cbn [orb].
  replace (childrenEndpoint driveId id (pageSize o))
    with (hd "" (pagesOf id))
    by (destruct (pagesOf id); [discriminate Hhd | injection Hhd as ->; reflexivity]).
  rewrite (listPages_served tok g _ _ Hpaged pageFuel [] w Hfuel Hw).
  unfold listings. cbn [flat_map app]. rewrite app_nil_r. reflexivity.
Qed.

Section ServedWalk.

Variable o : ListSharePointSiteFilesOptions.
Variable driveInfo : SharePointDriveInfo.
Variable pageFuel : nat.
Variable tok : string.
Variable pagesOf : option json -> list string.
Variable g : nat -> HttpRequest -> option Response.

Hypothesis drive_writable : stringThrows (di_driveId driveInfo) = false.

Let driveId := di_driveId driveInfo.

(** One round of the loop on an item that is [listable]. *)
Lemma walkChildren_step recurse p depth item rest childNodes st :
  listable item = true ->
  walkChildren o driveInfo recurse p depth (item :: rest) childNodes st =
    let childPath := childPathOf p (toString (itemName item)) in
    let v := {| v_item := item; v_path := childPath; v_depth := depth |} in
    let st1 := if emitted o v then pushFlat (nodeOf o driveId v) st else st in
    if itemIsFolder item then
      if depth <? effectiveMaxDepth o then
        match recurse with
        | Some walk =>
            bind (walk (prop "id" item) childPath (depth + 1) st1)
              (fun r =>
                 walkChildren o driveInfo recurse p depth rest
                   (childNodes ++ [fst r]) (snd r))
        | None =>
            walkChildren o driveInfo recurse p depth rest childNodes
              (setTruncated st1)
        end
      else
        walkChildren o driveInfo recurse p depth rest childNodes
          (setTruncated st1)
    else
      match structure o with
      | tree =>
          walkChildren o driveInfo recurse p depth rest
            (childNodes ++ [nodeOf o driveId v]) st1
      | flat => walkChildren o driveInfo recurse p depth rest childNodes st1
      end.
Proof.
  intros Hitem. cbv zeta.
  assert (Hname : exists s, itemName item = JStr s).
  { unfold listable in Hitem.
    destruct item; try discriminate;
      (destruct (itemName _); try discriminate; eauto). }
  destruct Hname as [s Hs].
  assert (Hemits : emits o item =
                   Some (emitted o {| v_item := item;
                                      v_path := childPathOf p (toString (itemName item));
                                      v_depth := depth |})).
  { unfold emits, emitted, isFileVisit. cbn [v_item]. rewrite Hs.
    destruct (matchesFilter_text s (filter o)) as [b ->].
    destruct (itemIsFolder item); cbn [negb orb];
      destruct (includeFoldersOf o), b; reflexivity. }
  destruct item; try discriminate Hitem;
    cbn [walkChildren]; rewrite Hs in *; cbn [stringThrows];
    rewrite Hemits; reflexivity.
Qed.

Lemma walk_unfold levels id p depth st :
  walk o driveInfo pageFuel levels id p depth st =
  bind (listDriveItemChildren pageFuel driveId id (pageSize o))
    (fun children =>
       bind (walkChildren o driveInfo
               (match levels with
                | S levels' => Some (walk o driveInfo pageFuel levels')
                | O => None
                end) p depth children [] st)
         (fun r =>
            ret ({| n_siteId := o_siteId o;
                    n_driveId := driveId;
                    n_driveItemId := id;
                    n_name :=
                      if depth =? 0 then di_driveName driveInfo
                      else JStr (last (JS.split "/" p) "");
                    n_webUrl := None;
                    n_size := None;
                    n_isFolder := true;
                    n_mimeType := None;
                    n_createdDateTime := None;
                    n_lastModifiedDateTime := None;
                    n_path := if JS.truthy p then p else "/";
                    n_children := match structure o with
                                  | tree => Some (fst r)
                                  | flat => None
                                  end |}, snd r))).
Proof. destruct levels; reflexivity. Qed.

Lemma met_cons p depth item inside rest :
  met o p depth (Held item inside :: rest) =
    ({| v_item := item;
        v_path := childPathOf p (toString (itemName item));
        v_depth := depth |} ::
     (if itemIsFolder item && (depth <? effectiveMaxDepth o)
      then met o (childPathOf p (toString (itemName item))) (depth + 1) inside
      else []) ++ met o p depth rest)%list.
Proof. reflexivity. Qed.

Lemma flatItems_step (b : bool) n st :
  flatItems (if b then pushFlat n st else st) =
    (flatItems st ++ (if b then [n] else []))%list.
Proof. destruct b; cbn; [reflexivity | rewrite app_nil_r; reflexivity]. Qed.

Lemma truncated_step (b : bool) n st :
  truncated (if b then pushFlat n st else st) = truncated st.
Proof. destruct b; reflexivity. Qed.

Lemma nodeOf_isFolder v :
  n_isFolder (nodeOf o driveId v) = itemIsFolder (v_item v).
Proof. reflexivity. Qed.

(** The loop has nothing to do. *)
Lemma walked_nil p depth st w : Walked o driveId tok pagesOf p depth [] st w [] st w.
Proof.
  unfold Walked. cbn. rewrite !app_nil_r, orb_false_r. auto 10.
Qed.

(** The loop meets a file first. *)
Lemma walked_file p depth item inside rest st w nodes nodes' st' w' :
  let v := {| v_item := item;
              v_path := childPathOf p (toString (itemName item));
              v_depth := depth |} in
  itemIsFolder item = false ->
  (structure o = tree -> nodes' = nodeOf o driveId v :: nodes) ->
  Walked o driveId tok pagesOf p depth rest
    (if emitted o v then pushFlat (nodeOf o driveId v) st else st) w
    nodes st' w' ->
  Walked o driveId tok pagesOf p depth (Held item inside :: rest) st w nodes' st' w'.
Proof.
  intros v Hfile Hnodes (Hflat & Htrunc & Hsent & Hg & Htok & Htree).
  subst v. unfold Walked. rewrite met_cons. rewrite Hfile. cbn [andb app].
  cbn [List.filter existsb].
  unfold belowCeiling, atCeiling, isFolderVisit, isFileVisit in *.
  cbn [v_item v_depth] in *. rewrite !Hfile. cbn [andb orb negb].
  split.
  { rewrite Hflat, flatItems_step, <- app_assoc.
    destruct (emitted o _); reflexivity. }
  split; [rewrite Htrunc, truncated_step; reflexivity |].
  split; [exact Hsent |]. split; [exact Hg |]. split; [exact Htok |].
  intros Hs. destruct (Htree Hs) as [Hl Hf]. rewrite (Hnodes Hs).
  cbn [flat_map map].
  rewrite leaves_file, folders_file
    by (rewrite nodeOf_isFolder; exact Hfile).
  cbn [app]. rewrite Hl, Hf. auto.
Qed.

(** The loop meets a folder at the depth ceiling first. *)
Lemma walked_ceiling p depth item inside rest st w nodes st' w' :
  let v := {| v_item := item;
              v_path := childPathOf p (toString (itemName item));
              v_depth := depth |} in
  itemIsFolder item = true ->
  (depth <? effectiveMaxDepth o) = false ->
  Walked o driveId tok pagesOf p depth rest
    (setTruncated
       (if emitted o v then pushFlat (nodeOf o driveId v) st else st)) w
    nodes st' w' ->
  Walked o driveId tok pagesOf p depth (Held item inside :: rest) st w nodes st' w'.
Proof.
  intros v Hfolder Hdepth (Hflat & Htrunc & Hsent & Hg & Htok & Htree).
  subst v. unfold Walked. rewrite met_cons. rewrite Hfolder, Hdepth.
  cbn [andb app]. cbn [List.filter existsb].
  unfold belowCeiling, atCeiling, isFolderVisit, isFileVisit in *.
  cbn [v_item v_depth] in *. rewrite !Hfolder, !Hdepth. cbn [andb orb negb].
  split.
  { rewrite Hflat. cbn [setTruncated flatItems].
    rewrite flatItems_step, <- app_assoc.
    destruct (emitted o _); reflexivity. }
  split; [rewrite Htrunc; cbn [setTruncated truncated];
          rewrite orb_true_r; reflexivity |].
  split; [exact Hsent |]. split; [exact Hg |]. split; [exact Htok |].
  exact Htree.
Qed.

(** The loop meets a folder below the depth ceiling first. *)
Lemma walked_descent p depth item inside rest st w node nodesIn st2 w2
    nodes st' w' :
  let childPath := childPathOf p (toString (itemName item)) in
  let v := {| v_item := item; v_path := childPath; v_depth := depth |} in
  itemIsFolder item = true ->
  (depth <? effectiveMaxDepth o) = true ->
  n_isFolder node = true ->
  n_driveItemId node = prop "id" item ->
  n_path node = childPath ->
  n_children node =
    (match structure o with tree => Some nodesIn | flat => None end) ->
  Walked o driveId tok pagesOf childPath (depth + 1) inside
    (if emitted o v then pushFlat (nodeOf o driveId v) st else st)
    (afterRequests (listings tok pagesOf [prop "id" item]) w)
    nodesIn st2 w2 ->
  Walked o driveId tok pagesOf p depth rest st2 w2 nodes st' w' ->
  Walked o driveId tok pagesOf p depth (Held item inside :: rest) st w
    (node :: nodes) st' w'.
Proof.
  intros childPath v Hfolder Hdepth Hn1 Hn2 Hn3 Hn4
    (Hflat1 & Htrunc1 & Hsent1 & Hg1 & Htok1 & Htree1)
    (Hflat & Htrunc & Hsent & Hg & Htok & Htree).
  subst childPath v. unfold Walked. rewrite met_cons.
  rewrite Hfolder, Hdepth. cbn [andb app].
  cbn [List.filter existsb].
  unfold belowCeiling, atCeiling, isFolderVisit, isFileVisit in *.
  cbn [v_item v_depth] in *. rewrite !Hfolder, !Hdepth. cbn [andb orb negb].
  rewrite !filter_app, existsb_app, !map_app.
  split.
  { rewrite Hflat, Hflat1, flatItems_step, <- !app_assoc.
    destruct (emitted o _); cbn [map app]; rewrite ?map_app; reflexivity. }
  split; [rewrite Htrunc, Htrunc1, truncated_step, orb_assoc; reflexivity |].
  split.
  { rewrite Hsent, Hsent1. unfold listings, afterRequests.
    cbn [set_sent sent map flat_map idOf v_item].
    rewrite !map_app, !flat_map_app, !map_app, app_nil_r, <- !app_assoc.
    reflexivity. }
  split; [rewrite Hg, Hg1; reflexivity |].
  split; [rewrite Htok, Htok1; reflexivity |].
  intros Hs. destruct (Htree Hs) as [Hl Hf].
  destruct (Htree1 Hs) as [Hl1 Hf1]. rewrite Hs in Hn4.
  cbn [flat_map].
  rewrite (leaves_folder _ _ Hn1 Hn4), (folders_folder _ _ Hn1 Hn4).
  rewrite Hl, Hf, Hl1, Hf1, Hn2, Hn3. cbn [map app].
  rewrite ?map_app. split; reflexivity.
Qed.

(** The loop over the children of a folder, given what the calls of [walk]
    for the folders among them do. *)
Lemma walkChildren_served recurse p depth kids :
  Forall (fun k => listable (itemOf k) = true) kids ->
  (forall item inside,
     In (Held item inside) kids ->
     itemIsFolder item = true -> depth < effectiveMaxDepth o ->
     exists walk,
       recurse = Some walk /\
       forall st w,
         Ready tok g w ->
         Descended o driveId tok pagesOf (prop "id" item)
           (childPathOf p (toString (itemName item))) (depth + 1) inside st w
           (walk (prop "id" item)
              (childPathOf p (toString (itemName item))) (depth + 1) st w)) ->
  forall childNodes st w,
    Ready tok g w ->
    exists nodes st' w',
      walkChildren o driveInfo recurse p depth (map itemOf kids) childNodes
        st w = (inr ((childNodes ++ nodes)%list, st'), w') /\
      Walked o driveId tok pagesOf p depth kids st w nodes st' w'.
Proof.
  induction kids as [| [item inside] rest IH]; intros Hall Hrec childNodes st w Hw.
  - exists [], st, w. rewrite app_nil_r. split; [reflexivity |].
    unfold Walked. cbn. rewrite !app_nil_r, orb_false_r. auto 10.
  - inversion Hall as [| k ks Hitem Hrest]; subst. cbn [itemOf] in Hitem.
    assert (Hrec' : forall item' inside',
              In (Held item' inside') rest ->
              itemIsFolder item' = true -> depth < effectiveMaxDepth o ->
              exists walk,
                recurse = Some walk /\
                forall st w,
                  Ready tok g w ->
                  Descended o driveId tok pagesOf (prop "id" item')
                    (childPathOf p (toString (itemName item'))) (depth + 1)
                    inside' st w
                    (walk (prop "id" item')
                       (childPathOf p (toString (itemName item')))
                       (depth + 1) st w)).
    { intros item' inside' Hin. apply Hrec. right. exact Hin. }
    specialize (IH Hrest Hrec').
    cbn [map itemOf]. rewrite (walkChildren_step _ _ _ _ _ _ _ Hitem).
    cbv zeta.
    destruct (itemIsFolder item) eqn:Hfolder.
    + destruct (depth <? effectiveMaxDepth o) eqn:Hdepth.
      * destruct (Hrec item inside (or_introl eq_refl) Hfolder
                    (proj1 (Z.ltb_lt _ _) Hdepth))
          as (walk & -> & Hwalk).
        destruct (Hwalk (if emitted o
                              {| v_item := item;
                                 v_path := childPathOf p (toString (itemName item));
                                 v_depth := depth |}
                         then pushFlat
                                (nodeOf o driveId
                                   {| v_item := item;
                                      v_path := childPathOf p (toString (itemName item));
                                      v_depth := depth |}) st
                         else st) w Hw)
          as (node & nodesIn & st2 & w2 & Hout & Hn1 & Hn2 & Hn3 & Hn4 & Hin).
        rewrite (bind_inr _ _ _ _ _ Hout). cbn [fst snd].
        assert (Hw2 : Ready tok g w2).
        { destruct Hin as (_ & _ & _ & Hg2 & Htok2 & _). destruct Hw as [Hg0 Ht0].
          split; [rewrite Hg2; exact Hg0 | rewrite Htok2; exact Ht0]. }
        destruct (IH (childNodes ++ [node])%list st2 w2 Hw2)
          as (nodes & st' & w' & Hrun & Hrest').
        exists (node :: nodes), st', w'.
        split; [rewrite Hrun, <- app_assoc; reflexivity |].
        exact (walked_descent _ _ _ _ _ _ _ _ _ _ _ _ _ _ Hfolder Hdepth
                 Hn1 Hn2 Hn3 Hn4 Hin Hrest').
      * match goal with
        | |- context [walkChildren _ _ _ _ _ _ ?c ?s w] =>
            destruct (IH c s w Hw) as (nodes & st' & w' & Hrun & Hrest')
        end.
        exists nodes, st', w'. split; [exact Hrun |].
        exact (walked_ceiling _ _ _ _ _ _ _ _ _ _ Hfolder Hdepth Hrest').
    + destruct (structure o) eqn:Hs;
        match goal with
        | |- context [walkChildren _ _ _ _ _ _ ?c ?s w] =>
            destruct (IH c s w Hw) as (nodes & st' & w' & Hrun & Hrest')
        end.
      * exists nodes, st', w'. split; [exact Hrun |].
        apply (walked_file _ _ _ _ _ _ _ nodes _ _ _ Hfolder);
          [rewrite Hs; discriminate | exact Hrest'].
      * exists (nodeOf o driveId
                  {| v_item := item;
                     v_path := childPathOf p (toString (itemName item));
                     v_depth := depth |} :: nodes), st', w'.
        split; [rewrite Hrun, <- app_assoc; reflexivity |].
        apply (walked_file _ _ _ _ _ _ _ nodes _ _ _ Hfolder);
          [reflexivity | exact Hrest'].
Qed.

(** A call of [walk] on a folder the service holds. *)
Lemma walk_served id depth kids :
  Served o driveId pageFuel pagesOf g id depth kids ->
  forall levels p st w,
    (Z.to_nat (effectiveMaxDepth o - depth) <= levels)%nat ->
    Ready tok g w ->
    JS.truthy p = true ->
    writable id = true ->
    Descended o driveId tok pagesOf id p depth kids st w
      (walk o driveInfo pageFuel levels id p depth st w).
Proof.
  induction 1 as [id depth kids Hhd Hfuel Hpaged Hall Hsub IH].
  intros levels p st w Hlevels Hw Hp Hid.
  rewrite walk_unfold.
  rewrite (bind_inr _ _ _ _ _
             (listDriveItemChildren_served pageFuel o driveId pagesOf tok g id
                _ w Hhd Hfuel Hpaged Hw drive_writable Hid)).
  destruct (walkChildren_served
              (match levels with
               | S levels' => Some (walk o driveInfo pageFuel levels')
               | O => None
               end) p depth kids Hall) with
    (childNodes := @nil SharePointFileNode) (st := st)
    (w := afterRequests (listings tok pagesOf [id]) w)
    as (nodes & st' & w' & Hrun & Hwalked).
  - intros item inside Hin Hfolder Hdepth.
    destruct levels as [| levels']; [lia |].
    exists (walk o driveInfo pageFuel levels'). split; [reflexivity |].
    intros st0 w0 Hw0.
    apply (IH item inside Hin Hfolder Hdepth); [lia | exact Hw0 | |].
    + apply childPathOf_truthy.
    + rewrite Forall_forall in Hall. specialize (Hall _ Hin).
      cbn [itemOf] in Hall. unfold listable in Hall. unfold writable.
      destruct item; try discriminate Hall;
        (apply andb_true_iff in Hall as [_ Hall];
         destruct (prop "id" _); [exact Hall | reflexivity]).
  - apply ready_afterRequests. exact Hw.
  - rewrite (bind_inr _ _ _ _ _ Hrun). cbn [fst snd app].
    eexists _, nodes, st', w'. split; [reflexivity |].
    cbn [n_isFolder n_driveItemId n_path n_children]. rewrite Hp.
    split; [reflexivity |]. split; [reflexivity |]. split; [reflexivity |].
    split; [reflexivity | exact Hwalked].
Qed.

End ServedWalk.

(** ** The collector on a library the service holds *)



(** The whole call on a library the service holds: the drive is resolved,
    the root is listed, and the loop runs over what is to be met. *)
Lemma collectSharePointFiles_served pageFuel o w driveInfo w1 tok pagesOf kids :
  resolveSiteDrive (o_siteId o) (o_driveId o) (o_driveName o) w =
    (inr driveInfo, w1) ->
  startingToken (optionsOfMethod "GET") w1 = Some tok ->
  stringThrows (di_driveId driveInfo) = false ->
  stringThrows (di_rootItemId driveInfo) = false ->
  Served o (di_driveId driveInfo) pageFuel pagesOf (graph w)
    (Some (di_rootItemId driveInfo)) 0 kids ->
  exists root nodes st' w',
    collectSharePointFiles pageFuel o w =
      (inr (match structure o with
            | flat => FlatResult (flatItems st') (di_driveId driveInfo)
                        (di_driveName driveInfo) (o_siteId o) (truncated st')
            | tree => TreeResult root (di_driveId driveInfo)
                        (di_driveName driveInfo) (o_siteId o) (truncated st')
            end), w') /\
    n_isFolder root = true /\
    n_driveItemId root = Some (di_rootItemId driveInfo) /\
    n_path root = "/" /\
    n_children root =
      (match structure o with tree => Some nodes | flat => None end) /\
    Walked o (di_driveId driveInfo) tok pagesOf "/" 0 kids initialWalkState
      (afterRequests (listings tok pagesOf [Some (di_rootItemId driveInfo)]) w1)
      nodes st' w'.
Proof.
  intros Hresolve Htok Hdrive Hroot Hserved.
  assert (Hg : graph w1 = graph w).
  { pose proof (steps_resolveSiteDrive (o_siteId o) (o_driveId o)
                  (o_driveName o) w) as [H _].
    rewrite Hresolve in H. exact H. }
  destruct (walk_served o driveInfo pageFuel tok pagesOf (graph w) Hdrive
              _ _ _ Hserved (Z.to_nat (effectiveMaxDepth o)) "/"
              initialWalkState w1)
    as (root & nodes & st' & w' & Hout & Hrest).
  - rewrite Z.sub_0_r. apply Nat.le_refl.
  - split; assumption.
  - reflexivity.
  - cbn [writable]. rewrite Hroot. reflexivity.
  - exists root, nodes, st', w'. split; [| exact Hrest].
    unfold collectSharePointFiles.
    rewrite (bind_inr _ _ _ _ _ Hresolve), (bind_inr _ _ _ _ _ Hout).
    cbn [fst snd]. destruct (structure o); reflexivity.
Qed.






(** A folder listed on two pages: the second page is asked for, and the
    items of both pages are met. *)
Lemma pagedSite_served :
  Served (listOptions flat None None None) (JStr "drive-1") 5
    (fun _ => ["/drives/drive-1/items/root/children";
               "/drives/drive-1/items/root/children?$skiptoken=2"])
    pagedSite (Some (JStr "root")) 0 pagedLibrary.
Proof.
  constructor.
  - reflexivity.
  - cbn [length]. lia.
  - apply (@Paged_more pagedSite _ _ [] [fileItem "a" "a.pdf"]
             [fileItem "b" "b.txt"]).
    + intros n token. eexists. split; [reflexivity |].
      split; [reflexivity |]. split; reflexivity.
    + apply Paged_last. intros n token. eexists. split; [reflexivity |].
      split; [reflexivity |]. split; reflexivity.
  - repeat constructor.
  - intros item inside [Hin | [Hin | []]] Hfolder _;
      injection Hin as <- <-; discriminate Hfolder.
Qed.

Lemma paged_listing_is_followed :
  exists items d n s t w',
    collectSharePointFiles 5 (listOptions flat None None None)
      (plainWorld pagedSite) = (inr (FlatResult items d n s t), w') /\
    map n_path items = ["/a.pdf"; "/b.txt"] /\
    map url (sent w') =
      ["https://graph.microsoft.com/v1.0/sites/site-1/drives";
       "https://graph.microsoft.com/v1.0/drives/drive-1/items/root/children";
       "https://graph.microsoft.com/v1.0/drives/drive-1/items/root/children?$skiptoken=2"].
Proof.
  destruct (collectSharePointFiles_served 5 (listOptions flat None None None)
              (plainWorld pagedSite) documents
              (snd (resolveSiteDrive "site-1" None None (plainWorld pagedSite)))
              "tok" _ pagedLibrary eq_refl eq_refl eq_refl eq_refl
              pagedSite_served)
    as (root & nodes & st' & w' & Hrun & _ & _ & _ & _ & Hflat & _ & Hsent & _).
  cbn [structure listOptions] in Hrun.
  eexists _, _, _, _, _, w'. split; [exact Hrun |].
  split; [rewrite Hflat; reflexivity | rewrite Hsent; reflexivity].
Qed.



(** ** The download handler and the file system *)

Lemma lookup_set_other p q (x : Fs.Entry) fs :
  String.eqb p q = false -> Fs.lookup p (Json.set q x fs) = Fs.lookup p fs.
Proof.
  intros H. unfold Fs.lookup. destruct (String.eqb p "/"); [reflexivity |].
  apply get_set_other, H.
Qed.

Lemma lookup_set_same p (x : Fs.Entry) fs :
  String.eqb p "/" = false -> Fs.lookup p (Json.set p x fs) = Some x.
Proof.
  intros H. unfold Fs.lookup. rewrite H. apply get_set_same.
Qed.

(** [mkdirSync] only adds directories where nothing was. *)
Lemma mkdirSync_keeps p fs fs1 :
  Fs.mkdirSync p fs = inr fs1 ->
  forall q x, Fs.lookup q fs = Some x -> Fs.lookup q fs1 = Some x.
Proof.
  unfold Fs.mkdirSync. generalize (NodePath.ancestors p) as ds.
  intros ds. revert fs. induction ds as [| d ds IH]; intros fs Hrun q x Hq;
    cbn [fold_left] in Hrun.
  - injection Hrun as <-. exact Hq.
  - destruct (Fs.lookup d fs) as [[data|]|] eqn:Hd.
    + exfalso. clear -Hrun. induction ds as [| d' ds IH]; cbn [fold_left] in Hrun;
        [discriminate Hrun | exact (IH Hrun)].
    + exact (IH _ Hrun q x Hq).
    + apply (IH _ Hrun). rewrite lookup_set_other; [exact Hq |].
      destruct (String.eqb q d) eqn:E; [| reflexivity].
      apply String.eqb_eq in E. subst q. congruence.
Qed.

Lemma downloadBinary_run endpoint options w :
  (exists e, downloadBinary endpoint options w =
               (inl e, snd (requestWithRefresh endpoint options w)) /\
             fst (requestWithRefresh endpoint options w) = inl e) \/
  (exists r, downloadBinary endpoint options w =
               (inr (text r), snd (requestWithRefresh endpoint options w)) /\
             fst (requestWithRefresh endpoint options w) = inr r).
Proof.
  unfold downloadBinary, bind.
  destruct (requestWithRefresh endpoint options w) as [[e|r] w'].
  - left. exists e. auto.
  - right. exists r. auto.
Qed.

(** X22.  Unless [overwrite] is [true], a call of the download handler leaves
    every file and directory that existed before as it was, whether the call
    succeeds or fails. *)
Theorem download_without_overwrite_keeps_what_exists
    (env : DownloadEnv) (driveId driveItemId localPath : string)
    (overwrite : option bool) (fs : Fs.t) (w : World)
    (p : string) (x : Fs.Entry) :
  overwrite <> Some true ->
  Fs.lookup p fs = Some x ->
  Fs.lookup p
    (snd (fst (downloadFileToLocal env driveId driveItemId localPath
                 overwrite fs w))) = Some x.
Proof.
  intros Hover Hp. unfold downloadFileToLocal. cbv zeta.
  fold (downloadBase env). fold (downloadTarget env localPath).
  set (resolvedBase := downloadBase env).
  set (targetPath := downloadTarget env localPath).
  assert (Hflag : match overwrite with Some b => b | None => false end = false).
  { destruct overwrite as [[|]|]; [congruence | reflexivity | reflexivity]. }
  rewrite Hflag. cbn [negb andb].
  destruct (negb (JS.startsWith targetPath resolvedBase)); [exact Hp |].
  destruct (Fs.existsSync targetPath fs) eqn:Hex; [exact Hp |].
  destruct (Fs.mkdirSync (NodePath.dirname targetPath) fs) as [e|fs1] eqn:Hmk;
    [exact Hp |].
  pose proof (mkdirSync_keeps _ _ _ Hmk _ _ Hp) as Hp1.
  destruct (downloadBinary _ _ w) as [[e|buffer] w']; [exact Hp1 |].
  unfold Fs.writeFileSync.
  destruct (Fs.lookup (NodePath.dirname targetPath) fs1) as [[d|]|]; try exact Hp1.
  destruct (Fs.lookup targetPath fs1) as [[d|]|]; try exact Hp1;
    cbn [fst snd];
    (rewrite lookup_set_other; [exact Hp1 |]);
    (destruct (String.eqb p targetPath) eqn:E; [| reflexivity]);
    apply String.eqb_eq in E; subst p;
    unfold Fs.existsSync in Hex; rewrite Hp in Hex; discriminate Hex.
Qed.

(** X23.  When the download handler reports success, the file at [savedAs]
    holds the body of a 2xx answer to the [/content] request of the item,
    [size] is the length of that body, and, unless [overwrite] is [true],
    nothing existed at [savedAs] before. *)
Theorem successful_download_stores_the_answer
    (env : DownloadEnv) (driveId driveItemId localPath : string)
    (overwrite : option bool) (fs : Fs.t) (w : World) :
  let r := downloadFileToLocal env driveId driveItemId localPath overwrite fs w in
  res_isError (fst (fst r)) = false ->
  exists target response item,
    res_content (fst (fst r)) = [item] /\
    prop "savedAs" item = Some (JStr target) /\
    prop "size" item = Some (JNum (Z.of_nat (String.length (text response)))) /\
    Fs.lookup target (snd (fst r)) = Some (Fs.File (text response)) /\
    ok response = true /\
    fst (requestWithRefresh (contentEndpoint driveId driveItemId)
           (optionsOfMethod "GET") w) = inr response /\
    (overwrite <> Some true -> Fs.lookup target fs = None).
Proof.
  intros r. subst r. unfold downloadFileToLocal. cbv zeta.
  fold (downloadBase env). fold (downloadTarget env localPath).
  set (resolvedBase := downloadBase env).
  set (targetPath := downloadTarget env localPath).
  fold (contentEndpoint driveId driveItemId).
  destruct (negb (JS.startsWith targetPath resolvedBase));
    [intros H; discriminate H |].
  destruct (negb _ && Fs.existsSync targetPath fs) eqn:Hex;
    [intros H; discriminate H |].
  destruct (Fs.mkdirSync (NodePath.dirname targetPath) fs) as [e|fs1] eqn:Hmk;
    [intros H; discriminate H |].
  destruct (downloadBinary_run (contentEndpoint driveId driveItemId)
              (optionsOfMethod "GET") w)
    as [(e & -> & _) | (response & -> & Hres)];
    [intros H; discriminate H |].
  unfold Fs.writeFileSync.
  destruct (Fs.lookup (NodePath.dirname targetPath) fs1) as [[d|]|];
    try (intros H; discriminate H).
  assert (Hroot : Fs.lookup targetPath fs1 <> Some Fs.Dir ->
                  String.eqb targetPath "/" = false).
  { intros Hne. destruct (String.eqb targetPath "/") eqn:E; [| reflexivity].
    unfold Fs.lookup in Hne. rewrite E in Hne. congruence. }
  assert (Hok : ok response = true).
  { destruct (requestWithRefresh_log (contentEndpoint driveId driveItemId)
                (optionsOfMethod "GET") w)
      as (_ & l & c & _ & _ & _ & _ & _ & _ & _ & _ & _ & Hlast).
    destruct (Hlast _ Hres) as (pre & req & _ & _ & H). exact H. }
  assert (Hfresh : overwrite <> Some true -> Fs.lookup targetPath fs = None).
  { intros Hover. destruct overwrite as [[|]|]; [congruence | |];
      cbn [negb andb] in Hex; unfold Fs.existsSync in Hex;
      destruct (Fs.lookup targetPath fs); [discriminate Hex | reflexivity |
                                           discriminate Hex | reflexivity]. }
  destruct (Fs.lookup targetPath fs1) as [[d|]|] eqn:Ht;
    try (intros H; discriminate H); intros _; cbn [fst snd res_content];
    (eexists targetPath, response, _; split; [reflexivity |];
     split; [reflexivity |]; split; [reflexivity |];
     split; [apply lookup_set_same, Hroot; discriminate |];
     split; [exact Hok |]; split; [exact Hres | exact Hfresh]).
Qed.

(** X24.  The download handler sends at most two requests to the Graph
    service, each a GET without a body to
    [/drives/{driveId}/items/{driveItemId}/content] with both ids
    URI-encoded; beside them it calls the token endpoint at most once, to
    refresh the access token.  When the target exists and [overwrite] is not
    [true], it sends nothing, calls nothing, leaves the file system as it is
    and reports an error. *)
Theorem download_request_log
    (env : DownloadEnv) (driveId driveItemId localPath : string)
    (overwrite : option bool) (fs : Fs.t) (w : World) :
  let r := downloadFileToLocal env driveId driveItemId localPath overwrite fs w in
  graph (snd r) = graph w /\
  exists l c,
    sent (snd r) = (sent w ++ l)%list /\
    refreshCalls (snd r) = (refreshCalls w ++ c)%list /\
    (length l <= 2)%nat /\
    (length c <= 1)%nat /\
    Forall (fun req =>
              method req = "GET" /\ req_body req = None /\
              url req = "https://graph.microsoft.com/v1.0/drives/" ++
                        JS.encodeURIComponent driveId ++ "/items/" ++
                        JS.encodeURIComponent driveItemId ++ "/content") l /\
    (Fs.existsSync (downloadTarget env localPath) fs = true ->
     overwrite <> Some true ->
     l = [] /\ c = [] /\ snd (fst r) = fs /\ res_isError (fst (fst r)) = true).
Proof.
  intros r. subst r. unfold downloadFileToLocal. cbv zeta.
  fold (downloadBase env). fold (downloadTarget env localPath).
  set (resolvedBase := downloadBase env).
  set (targetPath := downloadTarget env localPath).
  fold (contentEndpoint driveId driveItemId).
  assert (Hnothing : forall (res : CallToolResult) (fs' : Fs.t),
            (Fs.existsSync targetPath fs = true -> overwrite <> Some true ->
             fs' = fs /\ res_isError res = true) ->
            graph (snd (res, fs', w)) = graph w /\
            exists l c,
              sent (snd (res, fs', w)) = (sent w ++ l)%list /\
              refreshCalls (snd (res, fs', w)) = (refreshCalls w ++ c)%list /\
              (length l <= 2)%nat /\
              (length c <= 1)%nat /\
              Forall (fun req =>
                method req = "GET" /\ req_body req = None /\
                url req = "https://graph.microsoft.com/v1.0/drives/" ++
                          JS.encodeURIComponent driveId ++ "/items/" ++
                          JS.encodeURIComponent driveItemId ++ "/content") l /\
              (Fs.existsSync targetPath fs = true -> overwrite <> Some true ->
               l = [] /\ c = [] /\ snd (fst (res, fs', w)) = fs /\
               res_isError (fst (fst (res, fs', w))) = true)).
  { intros res fs' Hkeep. split; [reflexivity |]. exists [], [].
    cbn [fst snd]. rewrite !app_nil_r. split; [reflexivity |].
    split; [reflexivity |].
    split; [cbn; lia |]. split; [cbn; lia |]. split; [constructor |].
    intros Hex Hover. split; [reflexivity |]. split; [reflexivity |].
    exact (Hkeep Hex Hover). }
  destruct (negb (JS.startsWith targetPath resolvedBase)).
  { apply Hnothing. intros _ _. split; reflexivity. }
  destruct (negb _ && Fs.existsSync targetPath fs) eqn:Hex.
  { apply Hnothing. intros _ _. split; reflexivity. }
  assert (Hgo : Fs.existsSync targetPath fs = true -> overwrite <> Some true ->
                False).
  { intros Hthere Hover. rewrite Hthere in Hex.
    destruct overwrite as [[|]|]; [congruence | discriminate Hex |
                                   discriminate Hex]. }
  destruct (Fs.mkdirSync (NodePath.dirname targetPath) fs) as [e|fs1] eqn:Hmk.
  { apply Hnothing. intros H1 H2. destruct (Hgo H1 H2). }
  destruct (requestWithRefresh_log (contentEndpoint driveId driveItemId)
              (optionsOfMethod "GET") w)
    as (Hgraph & l & c & Hsent & Hcalls & Hlen & Hone & _ & Hall & _).
  assert (Hsends : forall (res : CallToolResult) (fs' : Fs.t),
            let w' := snd (requestWithRefresh
                             (contentEndpoint driveId driveItemId)
                             (optionsOfMethod "GET") w) in
            graph (snd (res, fs', w')) = graph w /\
            exists l c,
              sent (snd (res, fs', w')) = (sent w ++ l)%list /\
              refreshCalls (snd (res, fs', w')) = (refreshCalls w ++ c)%list /\
              (length l <= 2)%nat /\
              (length c <= 1)%nat /\
              Forall (fun req =>
                method req = "GET" /\ req_body req = None /\
                url req = "https://graph.microsoft.com/v1.0/drives/" ++
                          JS.encodeURIComponent driveId ++ "/items/" ++
                          JS.encodeURIComponent driveItemId ++ "/content") l /\
              (Fs.existsSync targetPath fs = true -> overwrite <> Some true ->
               l = [] /\ c = [] /\ snd (fst (res, fs', w')) = fs /\
               res_isError (fst (fst (res, fs', w'))) = true)).
  { intros res fs' w'. split; [exact Hgraph |]. exists l, c.
    split; [exact Hsent |]. split; [exact Hcalls |].
    split; [exact Hlen |]. split; [exact Hone |].
    split; [| intros H1 H2; destruct (Hgo H1 H2)].
    eapply Forall_impl; [| exact Hall]. intros req [t ->].
    split; [reflexivity |]. split; reflexivity. }
  destruct (downloadBinary_run (contentEndpoint driveId driveItemId)
              (optionsOfMethod "GET") w)
    as [(e & -> & _) | (response & -> & _)].
  { apply Hsends. }
  destruct (Fs.writeFileSync targetPath (text response) fs1); apply Hsends.
Qed.

Lemma download_without_overwrite_keeps_what_exists_sample :
  Fs.lookup "/srv/downloads/a.txt"
    (snd (fst (downloadFileToLocal downloadEnv "d" "i" "a.txt" (Some false)
                 oneFile (plainWorld (scripted [okBytes "NEW"]))))) =
    Some (Fs.File "OLD") /\
  Fs.lookup "/srv/downloads/a.txt"
    (snd (fst (downloadFileToLocal downloadEnv "d" "i" "sub/b.txt" None
                 oneFile (plainWorld (scripted [okBytes "NEW"]))))) =
    Some (Fs.File "OLD").
Proof.
  split;
    apply download_without_overwrite_keeps_what_exists;
    [discriminate | reflexivity | discriminate | reflexivity].
Defined.

Lemma successful_download_stores_the_answer_sample :
  exists target response item,
    res_content
      (fst (fst (downloadFileToLocal downloadEnv "d" "i" "sub/b.txt" None
                   oneFile (plainWorld (scripted [okBytes "NEW"]))))) = [item] /\
    prop "savedAs" item = Some (JStr target) /\
    prop "size" item = Some (JNum (Z.of_nat (String.length (text response)))) /\
    Fs.lookup target
      (snd (fst (downloadFileToLocal downloadEnv "d" "i" "sub/b.txt" None
                   oneFile (plainWorld (scripted [okBytes "NEW"]))))) =
      Some (Fs.File (text response)) /\
    ok response = true /\
    fst (requestWithRefresh (contentEndpoint "d" "i") (optionsOfMethod "GET")
           (plainWorld (scripted [okBytes "NEW"]))) = inr response /\
    (@None bool <> Some true -> Fs.lookup target oneFile = None).
Proof.
  exact (successful_download_stores_the_answer downloadEnv "d" "i" "sub/b.txt"
           None oneFile (plainWorld (scripted [okBytes "NEW"])) eq_refl).
Defined.
